(** * Stock portfolio tracker: valuation, reconciliation and store operations

    A shallow embedding of the tracker's three front ends and of the quotes
    endpoint of its server:

    - [Demo]       : [src/app.js], the stand-alone demo with simulated prices;
    - [LocalStore] : the front end that persists to [localStorage] and asks
                     the server for quotes;
    - [ApiStore]   : [frontend/src/App.js], the front end backed by the
                     REST API;
    - [Server]     : the [/api/quotes] handler of [backend/server.js].

    JavaScript numbers are IEEE 754 doubles and are modelled by Rocq's
    primitive floats, so [NaN], the infinities and the signed zeros behave
    as they do in the source.  Objects whose key order is observable
    ([Object.keys(this.portfolios)[0]]) are lists in insertion order, keyed
    by the [id] the source stores inside each value; the price table of a
    quotes response is a finite map. *)

From Stdlib Require Import Floats.
From stdpp Require Import base option list gmap strings pretty.

Set Warnings "-inexact-float,-clear-no-such-hyp".

(* ------------------------------------------------------------------ *)
(** ** JavaScript values used by the tracker *)

Module JS.

(** [!x] on a number: [0], [-0] and [NaN] are the falsy numbers. *)
Definition falsy (x : float) : bool := is_zero x || is_nan x.

(** [!s] on a string: only the empty string is falsy. *)
Definition falsy_str (s : string) : bool := bool_decide (s = "").

(** The global [isNaN] applied to a number. *)
Definition isNaN (x : float) : bool := is_nan x.

(** [cond ? a : b] with the guard [cost > 0] shared by all percentages. *)
Definition percentOf (gain cost : float) : float :=
  if (0 <? cost)%float then (gain / cost * 100)%float else 0%float.

Section Object.
(** An object used as a dictionary whose values carry their own key
    ([this.portfolios[p.id] = p]).  The keys of the tracker are UUIDs or
    ["portfolio-<ms>"] strings, never array indices, so enumeration
    order is insertion order. *)
Context {A : Type} (key : A → string).

(** [o[k]] *)
Fixpoint get (k : string) (o : list A) : option A :=
  match o with
  | [] => None
  | a :: o' => if decide (key a = k) then Some a else get k o'
  end.

(** [o[key a] = a]: replaces in place, or appends a new property. *)
Fixpoint set (a : A) (o : list A) : list A :=
  match o with
  | [] => [a]
  | b :: o' => if decide (key b = key a) then a :: o' else b :: set a o'
  end.

(** [delete o[k]] *)
Definition delete (k : string) (o : list A) : list A :=
  filter (λ a, key a ≠ k) o.

(** [Object.keys(o)] *)
Definition keys (o : list A) : list string := map key o.
End Object.

(** [o[k] = v] for a number [v] on an object literal used as a table.
    The key ["__proto__"] names the accessor inherited from
    [Object.prototype], whose setter ignores a number: no entry is made. *)
Definition assign (k : string) (v : float) (o : gmap string float)
    : gmap string float :=
  if decide (k = "__proto__") then o else <[k := v]> o.

(** [new Set(...)] keeps its elements in first-insertion order. *)
Definition Set_add (s : list string) (x : string) : list string :=
  if decide (x ∈ s) then s else s ++ [x].

Definition Set_from (l : list string) : list string :=
  fold_left Set_add l [].

(** [Array.prototype.join(',')] *)
Definition join (l : list string) : string := String.concat "," l.

(** The sum of a list of numbers as a loop computes it: [total += x] for
    each [x] in order, from [total = 0].  Addition of doubles is not
    associative, so the order is part of the definition. *)
Definition sum (l : list float) : float :=
  fold_left (λ total x, (total + x)%float) l 0%float.

(** [Math.max] and [Math.min] of two numbers: NaN if either is NaN, and
    [+0] counts as larger than [-0]. *)
Definition Math_max (a b : float) : float :=
  if is_nan a || is_nan b then nan
  else if (a <? b)%float then b
  else if (b <? a)%float then a
  else if get_sign a then b else a.

Definition Math_min (a b : float) : float :=
  if is_nan a || is_nan b then nan
  else if (a <? b)%float then a
  else if (b <? a)%float then b
  else if get_sign a then a else b.

Definition Math_abs (a : float) : float := abs a.

(** [o[k]] finds, besides the properties of [o] itself, those every object
    inherits from [Object.prototype]; these are their names, and what they
    name is truthy.  No id of a portfolio or of a holding is one of them. *)
Definition inherited (k : string) : bool :=
  bool_decide
    (k ∈ ["constructor"; "__defineGetter__"; "__defineSetter__";
          "hasOwnProperty"; "__lookupGetter__"; "__lookupSetter__";
          "isPrototypeOf"; "propertyIsEnumerable"; "toString"; "valueOf";
          "__proto__"; "toLocaleString"]).

(** A number as [JSON.stringify] writes it and [JSON.parse] reads it back:
    the infinities and NaN are written as [null] ([None] here), and [-0] as
    [0]; every other number comes back as it was. *)
Definition JSON_number (x : float) : option float :=
  if is_finite x then Some (if is_zero x then 0%float else x) else None.

(** *** [parseInt] with no radix

    Strings are sequences of UTF-8 bytes. *)

(** The number for an integer: the nearest double, ties to even, an
    infinity beyond the largest double, and [-0] for a zero after a minus
    sign. *)
Definition toNumber (negative : bool) (n : N) : float :=
  SF2Prim (binary_normalize prec emax
             (if negative then (- Z.of_N n)%Z else Z.of_N n) 0 negative).

(** White space and line terminators, by the bytes of their encoding: the
    ASCII ones; U+00A0; U+1680, U+2000 to U+200A, U+2028, U+2029, U+202F,
    U+205F, U+3000 and U+FEFF. *)
Definition whitespace1 (c : N) : bool :=
  (9 <=? c)%N && (c <=? 13)%N || (c =? 32)%N.

Definition whitespace2 (c1 c2 : N) : bool := (c1 =? 194)%N && (c2 =? 160)%N.

Definition whitespace3 (c1 c2 c3 : N) : bool :=
  (c1 =? 225)%N && (c2 =? 154)%N && (c3 =? 128)%N
  || (c1 =? 226)%N && (c2 =? 128)%N
     && ((128 <=? c3)%N && (c3 <=? 138)%N || (c3 =? 168)%N || (c3 =? 169)%N
         || (c3 =? 175)%N)
  || (c1 =? 226)%N && (c2 =? 129)%N && (c3 =? 159)%N
  || (c1 =? 227)%N && (c2 =? 128)%N && (c3 =? 128)%N
  || (c1 =? 239)%N && (c2 =? 187)%N && (c3 =? 191)%N.

Fixpoint trimStart (s : string) : string :=
  match s with
  | String c1 s1 =>
      if whitespace1 (Ascii.N_of_ascii c1) then trimStart s1
      else
        match s1 with
        | String c2 s2 =>
            if whitespace2 (Ascii.N_of_ascii c1) (Ascii.N_of_ascii c2)
            then trimStart s2
            else
              match s2 with
              | String c3 s3 =>
                  if whitespace3 (Ascii.N_of_ascii c1) (Ascii.N_of_ascii c2)
                                 (Ascii.N_of_ascii c3)
                  then trimStart s3
                  else s
              | EmptyString => s
              end
        | EmptyString => s
        end
  | EmptyString => s
  end.

(** The value of a character as a digit of the radix, if it is one. *)
Definition digit (radix : N) (c : Ascii.ascii) : option N :=
  let n := Ascii.N_of_ascii c in
  let value :=
    if (48 <=? n)%N && (n <=? 57)%N then Some (n - 48)%N
    else if (97 <=? n)%N && (n <=? 122)%N then Some (n - 87)%N
    else if (65 <=? n)%N && (n <=? 90)%N then Some (n - 55)%N
    else None in
  match value with
  | Some d => if (d <? radix)%N then Some d else None
  | None => None
  end.

(** The integer that the digits at the front of [s] write, [acc] being the
    value of those read already; [None] when there is no digit. *)
Fixpoint digits (radix : N) (s : string) (acc : option N) : option N :=
  match s with
  | String c s' =>
      match digit radix c with
      | Some d => digits radix s' (Some (radix * default 0 acc + d)%N)
      | None => acc
      end
  | EmptyString => acc
  end.

(** [parseInt(string)]: white space at the front is skipped, a sign is
    read, [0x] or [0X] announces hexadecimal digits, and the digits up to
    the first character that is none are the number; what follows them, a
    fraction for one, is dropped.  NaN when there is no digit. *)
Definition parseInt (string : string) : float :=
  let text := trimStart string in
  let '(negative, text) :=
    match text with
    | String c text' =>
        if (Ascii.N_of_ascii c =? 45)%N then (true, text')
        else if (Ascii.N_of_ascii c =? 43)%N then (false, text')
        else (false, text)
    | EmptyString => (false, text)
    end in
  let mathInt :=
    match text with
    | String c1 (String c2 text') =>
        if (Ascii.N_of_ascii c1 =? 48)%N
           && ((Ascii.N_of_ascii c2 =? 120)%N || (Ascii.N_of_ascii c2 =? 88)%N)
        then digits 16 text' None
        else digits 10 text None
    | _ => digits 10 text None
    end in
  match mathInt with
  | Some n => toNumber negative n
  | None => nan
  end.

End JS.

(** What a handler does besides changing the state. *)
Inductive Effect :=
  | Alert (message : string)                       (* window.alert *)
  | ShowConfirmation (title : string) (isAlertOnly : bool)
  | ConsoleError (message : string)
  | Uncaught (error : string)                      (* exception leaving the handler *)
  | SaveToLocalStorage
  | Render.

(** How the [fetch] of [/api/quotes] can end. *)
Inductive FetchOutcome :=
  | NetworkError                                   (* fetch rejects *)
  | NotOk                                          (* response.ok is false *)
  | BadBody                                        (* response.json() rejects *)
  | Prices (prices : gmap string float).           (* the parsed body *)

Definition failed (out : FetchOutcome) : bool :=
  match out with Prices _ => false | _ => true end.

(* ------------------------------------------------------------------ *)
(** ** [frontend/src/App.js]: the front end backed by the REST API *)

Module ApiStore.

Definition API_BASE_URL : string := "/api".

(** A holding as kept in [this.holdings], keyed by its [id]. *)
Record Holding := mkHolding {
  holding_id : string;
  symbol : string;
  shares : float;
  purchasePrice : float;
  purchaseDate : string;
  currentPrice : float }.

(** The JSON row the server answers to a POST: a holding without
    [currentPrice]. *)
Record HoldingRow := mkHoldingRow {
  row_id : string;
  row_symbol : string;
  row_shares : float;
  row_purchasePrice : float;
  row_purchaseDate : string }.

Record Portfolio := mkPortfolio {
  portfolio_id : string;
  name : string;
  holdingIds : list string }.

Record State := mkState {
  portfolios : list Portfolio;          (* this.portfolios, by id *)
  holdings : list Holding;              (* this.holdings, by id *)
  currentPortfolioId : option string;   (* null or undefined is [None] *)
  priceUpdateInterval : option nat }.   (* handle of the armed interval *)

(** [{ marketValue, totalGainLoss, gainLossPercent }] of a holding; the
    middle field is named [gainLoss] here because the totals record below
    has a [totalGainLoss] of its own. *)
Record HoldingMetrics := mkHoldingMetrics {
  marketValue : float;
  gainLoss : float;
  gainLossPercent : float }.

Record PortfolioTotals := mkPortfolioTotals {
  totalValue : float;
  totalGainLoss : float;
  totalGainLossPercent : float }.

(** [this.portfolios[this.currentPortfolioId] || null].  The selection is
    [null] or the id of a portfolio in every state the constructor, the
    load, the select and the other actions lead to, so the lookup is among
    the portfolios; [switchPortfolio] below says what a call with another
    id does. *)
Definition getCurrentPortfolio (st : State) : option Portfolio :=
  match currentPortfolioId st with
  | Some cur => JS.get portfolio_id cur (portfolios st)
  | None => None
  end.

Definition calculateHoldingMetrics (h : Holding) : HoldingMetrics :=
  let marketValue := (shares h * currentPrice h)%float in
  let totalCost := (shares h * purchasePrice h)%float in
  let totalGainLoss := (marketValue - totalCost)%float in
  let gainLossPercent :=
    if (0 <? totalCost)%float then (totalGainLoss / totalCost * 100)%float
    else 0%float in
  mkHoldingMetrics marketValue totalGainLoss gainLossPercent.

(** One turn of the [forEach] of [calculatePortfolioTotals]; the
    accumulator is [(totalValue, totalCost)]. *)
Definition addHoldingTotals (hs : list Holding) (acc : float * float)
    (id : string) : float * float :=
  match JS.get holding_id id hs with
  | Some h => ((acc.1 + shares h * currentPrice h)%float,
               (acc.2 + shares h * purchasePrice h)%float)
  | None => acc
  end.

Definition calculatePortfolioTotals (st : State) (p : Portfolio) : PortfolioTotals :=
  let '(totalValue, totalCost) :=
    fold_left (addHoldingTotals (holdings st)) (holdingIds p) (0%float, 0%float) in
  let totalGainLoss := (totalValue - totalCost)%float in
  let totalGainLossPercent :=
    if (0 <? totalCost)%float then (totalGainLoss / totalCost * 100)%float
    else 0%float in
  mkPortfolioTotals totalValue totalGainLoss totalGainLossPercent.

(** *** [fetchRealTimePrices] *)

Definition allSymbols (st : State) : list string :=
  JS.Set_from (map symbol (holdings st)).

(** Up to the first [await]: the URL that is fetched, or [None] when the
    function returns before fetching. *)
Definition fetchRealTimePrices_request (st : State) : option string :=
  let allSymbols := allSymbols st in
  if decide (length allSymbols = 0) then None
  else Some (API_BASE_URL +:+ "/quotes?symbols=" +:+ JS.join allSymbols).

(** [if (prices[h.symbol] !== undefined) h.currentPrice = prices[h.symbol]];
    [prices] is the parsed body, and symbols are stored in upper case, so
    none of them names a property inherited from [Object.prototype]. *)
Definition updatePrice (prices : gmap string float) (h : Holding) : Holding :=
  match prices !! symbol h with
  | Some price =>
      mkHolding (holding_id h) (symbol h) (shares h) (purchasePrice h)
                (purchaseDate h) price
  | None => h
  end.

(** From the answer of the fetch to the end of the function. *)
Definition fetchRealTimePrices_resume (st : State) (out : FetchOutcome)
    : State * list Effect :=
  match out with
  | Prices prices =>
      (mkState (portfolios st) (map (updatePrice prices) (holdings st))
               (currentPortfolioId st) (priceUpdateInterval st),
       [Render])
  | _ => (st, [ConsoleError "Failed to fetch real-time prices:"])
  end.

(** The whole call when nothing else runs while the fetch is pending. *)
Definition fetchRealTimePrices (st : State) (respond : string → FetchOutcome)
    : State * list Effect :=
  match fetchRealTimePrices_request st with
  | None => (st, [])
  | Some url => fetchRealTimePrices_resume st (respond url)
  end.

(** *** [addStock] *)

(** The answer to [POST /portfolios/:id/holdings]. *)
Inductive PostOutcome :=
  | Created (row : HoldingRow)
  | PostFailed.

(** [portfolio.holdingIds.some(id => this.holdings[id].symbol === symbol)];
    [None] is the [TypeError] of reading [symbol] from a missing holding. *)
Fixpoint someSymbol (hs : list Holding) (sym : string) (ids : list string)
    : option bool :=
  match ids with
  | [] => Some false
  | id :: ids' =>
      match JS.get holding_id id hs with
      | None => None
      | Some h => if decide (symbol h = sym) then Some true
                  else someSymbol hs sym ids'
      end
  end.

(** [this.portfolios[id].holdingIds.push(hid)] *)
Definition pushHoldingId (id hid : string) (p : Portfolio) : Portfolio :=
  if decide (portfolio_id p = id)
  then mkPortfolio (portfolio_id p) (name p) (holdingIds p ++ [hid])
  else p.

(** [addStock], with [rest] standing for what the function does once the
    new holding is in the store.  [symbol] is the form value after
    [toUpperCase().trim()], [shares] and [purchasePrice] are the results of
    [parseFloat], [post] is the answer to the POST request. *)
Definition addStock_then (rest : State → State * list Effect) (st : State)
    (symbol : string) (shares purchasePrice : float) (purchaseDate : string)
    (post : PostOutcome) : State * list Effect :=
  match getCurrentPortfolio st with
  | None => (st, [ShowConfirmation "No Portfolio" true])
  | Some portfolio =>
      if JS.falsy_str symbol || JS.falsy shares || JS.falsy purchasePrice
         || JS.falsy_str purchaseDate || (shares <=? 0)%float
         || (purchasePrice <? 0)%float
      then (st, [ShowConfirmation "Invalid Input" true])
      else
        match someSymbol (holdings st) symbol (holdingIds portfolio) with
        | None => (st, [Uncaught "TypeError"])
        | Some true => (st, [ShowConfirmation "Duplicate Stock" true])
        | Some false =>
            match post with
            | PostFailed =>
                (st, [ConsoleError "Failed to add stock:";
                      ShowConfirmation "Error" true])
            | Created row =>
                let newHolding :=
                  mkHolding (row_id row) (row_symbol row) (row_shares row)
                            (row_purchasePrice row) (row_purchaseDate row)
                            (row_purchasePrice row) in
                rest
                  (mkState
                     (map (pushHoldingId (portfolio_id portfolio) (row_id row))
                          (portfolios st))
                     (JS.set holding_id newHolding (holdings st))
                     (currentPortfolioId st) (priceUpdateInterval st))
            end
        end
  end.

(** The whole call: after the push it ends with
    [await this.fetchRealTimePrices()], whose request [respond] answers. *)
Definition addStock (st : State) (symbol : string) (shares purchasePrice : float)
    (purchaseDate : string) (post : PostOutcome)
    (respond : string → FetchOutcome) : State * list Effect :=
  addStock_then (λ st', fetchRealTimePrices st' respond)
    st symbol shares purchasePrice purchaseDate post.

(** The call up to that [await]: the state in which the quote request goes
    out, which other handlers can meet before the answer is there. *)
Definition addStock_push (st : State) (symbol : string)
    (shares purchasePrice : float) (purchaseDate : string) (post : PostOutcome)
    : State * list Effect :=
  addStock_then (λ st', (st', []))
    st symbol shares purchasePrice purchaseDate post.

(** *** [deletePortfolio] *)

(** [confirm]: the user presses the confirm button of the dialog;
    [deleted]: the DELETE request is answered with an ok status.  The
    callback is taken to run on the state the dialog was opened in. *)
Definition deletePortfolio (st : State) (confirm deleted : bool)
    : State * list Effect :=
  match getCurrentPortfolio st with
  | None => (st, [])
  | Some portfolio =>
      if decide (length (JS.keys portfolio_id (portfolios st)) ≤ 1)
      then (st, [ShowConfirmation "Cannot Delete" true])
      else if negb confirm
      then (st, [ShowConfirmation "Delete Portfolio?" false])
      else if negb deleted
      then (st, [ShowConfirmation "Delete Portfolio?" false;
                 ShowConfirmation "Error" true])
      else
        let holdings' :=
          fold_left (λ hs id, JS.delete holding_id id hs)
                    (holdingIds portfolio) (holdings st) in
        let portfolios' :=
          JS.delete portfolio_id (portfolio_id portfolio) (portfolios st) in
        (mkState portfolios' holdings'
                 (head (JS.keys portfolio_id portfolios'))
                 (priceUpdateInterval st),
         [ShowConfirmation "Delete Portfolio?" false; Render])
  end.

(** *** Start-up *)

(** The state the constructor builds, before [initializeApp] loads the
    data. *)
Definition constructor : State := mkState [] [] None None.

(** *** [loadDataFromApi] *)

(** A portfolio as [GET /portfolios] lists it, with its holdings. *)
Record PortfolioRow := mkPortfolioRow {
  prow_id : string;
  prow_name : string;
  Holdings : list HoldingRow }.

(** The answer to [GET /portfolios]: the array of portfolio rows the server
    sends, or a failure (the fetch rejects, the status is not ok, or the
    body is not JSON). *)
Inductive LoadOutcome :=
  | Loaded (data : list PortfolioRow)
  | LoadFailed.

(** [h.currentPrice = h.purchasePrice] *)
Definition loadHolding (h : HoldingRow) : Holding :=
  mkHolding (row_id h) (row_symbol h) (row_shares h) (row_purchasePrice h)
            (row_purchaseDate h) (row_purchasePrice h).

(** One turn of [data.forEach]: the holdings and the portfolios so far. *)
Definition loadPortfolio (acc : list Portfolio * list Holding) (p : PortfolioRow)
    : list Portfolio * list Holding :=
  let holdings :=
    fold_left (λ hs h, JS.set holding_id (loadHolding h) hs) (Holdings p) acc.2 in
  let portfolio := mkPortfolio (prow_id p) (prow_name p) (map row_id (Holdings p)) in
  (JS.set portfolio_id portfolio acc.1, holdings).

Definition loadDataFromApi (st : State) (out : LoadOutcome) : State * list Effect :=
  match out with
  | LoadFailed =>
      (st, [ConsoleError "Error loading data:";
            ShowConfirmation "Connection Error" true])
  | Loaded data =>
      let '(portfolios, holdings) := fold_left loadPortfolio data ([], []) in
      let currentPortfolioId :=
        match data with
        | p :: _ => Some (prow_id p)
        | [] => None
        end in
      (mkState portfolios holdings currentPortfolioId (priceUpdateInterval st), [])
  end.

(** *** The other actions *)

(** The guard [this.portfolios[portfolioId]] lets through the id of a
    portfolio and, besides, the name of an inherited property; what that
    names has no [holdingIds], and [render] shows it as a portfolio without
    holdings. *)
Definition switchPortfolio (st : State) (portfolioId : string)
    : State * list Effect :=
  match JS.get portfolio_id portfolioId (portfolios st) with
  | Some _ =>
      (mkState (portfolios st) (holdings st) (Some portfolioId)
               (priceUpdateInterval st),
       [Render])
  | None =>
      if JS.inherited portfolioId
      then (mkState (portfolios st) (holdings st) (Some portfolioId)
                    (priceUpdateInterval st),
            [Render])
      else (st, [])
  end.

(** [portfolio.holdingIds = portfolio.holdingIds.filter(id => id !==
    holdingId)] on the current portfolio. *)
Definition filterHoldingId (id holdingId : string) (p : Portfolio) : Portfolio :=
  if decide (portfolio_id p = id)
  then mkPortfolio (portfolio_id p) (name p)
         (filter (λ id', id' ≠ holdingId) (holdingIds p))
  else p.

(** [confirm]: the user presses the confirm button; [deleted]: the DELETE
    request is answered with an ok status. *)
Definition removeHolding (st : State) (holdingId : string) (confirm deleted : bool)
    : State * list Effect :=
  if negb confirm then (st, [ShowConfirmation "Confirm Deletion" false])
  else if negb deleted
  then (st, [ShowConfirmation "Confirm Deletion" false;
             ConsoleError "Failed to delete holding:";
             ShowConfirmation "Error" true])
  else
    let portfolios' :=
      match getCurrentPortfolio st with
      | Some portfolio =>
          map (filterHoldingId (portfolio_id portfolio) holdingId) (portfolios st)
      | None => portfolios st
      end in
    (mkState portfolios' (JS.delete holding_id holdingId (holdings st))
             (currentPortfolioId st) (priceUpdateInterval st),
     [ShowConfirmation "Confirm Deletion" false; Render]).

(** The answer to [POST /portfolios]: the id and the name of the new row. *)
Inductive CreateOutcome :=
  | PortfolioCreated (id name : string)
  | CreateFailed.

(** [newName] is the form value after [trim()]. *)
Definition createPortfolio (st : State) (newName : string) (post : CreateOutcome)
    : State * list Effect :=
  if JS.falsy_str newName
  then (st, [ShowConfirmation "Invalid Name" true])
  else
    match post with
    | CreateFailed => (st, [ShowConfirmation "Error" true])
    | PortfolioCreated id name =>
        (mkState (JS.set portfolio_id (mkPortfolio id name []) (portfolios st))
                 (holdings st) (Some id) (priceUpdateInterval st),
         [Render])
    end.

Definition rename (id newName : string) (p : Portfolio) : Portfolio :=
  if decide (portfolio_id p = id)
  then mkPortfolio (portfolio_id p) newName (holdingIds p)
  else p.

(** [saved]: the PUT request is answered with an ok status. *)
Definition savePortfolioName (st : State) (newName : string) (saved : bool)
    : State * list Effect :=
  match getCurrentPortfolio st with
  | Some portfolio =>
      if JS.falsy_str newName then (st, [])
      else if negb saved then (st, [ShowConfirmation "Error" true])
      else
        (mkState (map (rename (portfolio_id portfolio) newName) (portfolios st))
                 (holdings st) (currentPortfolioId st) (priceUpdateInterval st),
         [])
  | None => (st, [])
  end.

End ApiStore.

(* ------------------------------------------------------------------ *)
(** ** The front end that persists to [localStorage] *)

Module LocalStore.

Definition API_BASE_URL : string := "/api".

Record Holding := mkHolding {
  symbol : string;
  shares : float;
  purchasePrice : float;
  purchaseDate : string;
  currentPrice : float }.

Record Portfolio := mkPortfolio {
  portfolio_id : string;
  name : string;
  holdings : list Holding }.

Record State := mkState {
  portfolios : list Portfolio;               (* this.portfolios, by id *)
  currentPortfolioId : option string;
  priceUpdateInterval : option nat;
  localStorage : option (list Portfolio) }.  (* the item 'stockPortfolios' *)

Record HoldingMetrics := mkHoldingMetrics {
  marketValue : float;
  gainLoss : float;                          (* totalGainLoss in the source *)
  gainLossPercent : float }.

Record PortfolioTotals := mkPortfolioTotals {
  totalValue : float;
  totalGainLoss : float;
  totalGainLossPercent : float }.

Definition saveDataToLocalStorage (st : State) : State :=
  mkState (portfolios st) (currentPortfolioId st) (priceUpdateInterval st)
          (Some (portfolios st)).

(** [this.portfolios[this.currentPortfolioId] || null].  The selection is
    [null] or the id of a portfolio in every state the constructor, the
    select and the other actions lead to, so the lookup is among the
    portfolios; [switchPortfolio] below says what a call with another id
    does. *)
Definition getCurrentPortfolio (st : State) : option Portfolio :=
  match currentPortfolioId st with
  | Some cur => JS.get portfolio_id cur (portfolios st)
  | None => None
  end.

Definition calculateHoldingMetrics (holding : Holding) : HoldingMetrics :=
  let marketValue := (shares holding * currentPrice holding)%float in
  let totalCost := (shares holding * purchasePrice holding)%float in
  let totalGainLoss := (marketValue - totalCost)%float in
  let gainLossPercent :=
    if (0 <? totalCost)%float then (totalGainLoss / totalCost * 100)%float
    else 0%float in
  mkHoldingMetrics marketValue totalGainLoss gainLossPercent.

Definition addHoldingTotals (acc : float * float) (h : Holding) : float * float :=
  ((acc.1 + shares h * currentPrice h)%float,
   (acc.2 + shares h * purchasePrice h)%float).

Definition calculatePortfolioTotals (portfolio : Portfolio) : PortfolioTotals :=
  let '(totalValue, totalCost) :=
    fold_left addHoldingTotals (holdings portfolio) (0%float, 0%float) in
  let totalGainLoss := (totalValue - totalCost)%float in
  let totalGainLossPercent :=
    if (0 <? totalCost)%float then (totalGainLoss / totalCost * 100)%float
    else 0%float in
  mkPortfolioTotals totalValue totalGainLoss totalGainLossPercent.

(** *** [fetchRealTimePrices] *)

Definition allSymbols (st : State) : list string :=
  fold_left
    (λ allSymbols p,
       fold_left (λ allSymbols h, JS.Set_add allSymbols (symbol h))
                 (holdings p) allSymbols)
    (portfolios st) [].

Definition fetchRealTimePrices_request (st : State) : option string :=
  let allSymbols := allSymbols st in
  if decide (length allSymbols = 0) then None
  else
    let symbolsQuery := JS.join allSymbols in
    Some (API_BASE_URL +:+ "/quotes?symbols=" +:+ symbolsQuery).

Definition updatePrice (prices : gmap string float) (h : Holding) : Holding :=
  match prices !! symbol h with
  | Some price =>
      mkHolding (symbol h) (shares h) (purchasePrice h) (purchaseDate h) price
  | None => h
  end.

Definition updatePrices (prices : gmap string float) (p : Portfolio) : Portfolio :=
  mkPortfolio (portfolio_id p) (name p) (map (updatePrice prices) (holdings p)).

Definition fetchRealTimePrices_resume (st : State) (out : FetchOutcome)
    : State * list Effect :=
  match out with
  | Prices prices =>
      (saveDataToLocalStorage
         (mkState (map (updatePrices prices) (portfolios st))
                  (currentPortfolioId st) (priceUpdateInterval st)
                  (localStorage st)),
       [SaveToLocalStorage; Render])
  | _ => (st, [ConsoleError "Failed to fetch real-time prices:"])
  end.

Definition fetchRealTimePrices (st : State) (respond : string → FetchOutcome)
    : State * list Effect :=
  match fetchRealTimePrices_request st with
  | None => (st, [])
  | Some url => fetchRealTimePrices_resume st (respond url)
  end.

(** *** [addStock] *)

(** [portfolio.holdings.push(newHolding)] on the current portfolio. *)
Definition pushHolding (id : string) (h : Holding) (p : Portfolio) : Portfolio :=
  if decide (portfolio_id p = id)
  then mkPortfolio (portfolio_id p) (name p) (holdings p ++ [h])
  else p.

(** [addStock], with [rest] standing for what the function does once the
    new holding is pushed and saved.  [symbol] is the form value after
    [toUpperCase().trim()], [shares] and [purchasePrice] are the results of
    [parseFloat]. *)
Definition addStock_then (rest : State → State * list Effect) (st : State)
    (symbol : string) (shares purchasePrice : float) (purchaseDate : string)
    : State * list Effect :=
  match getCurrentPortfolio st with
  | None => (st, [ShowConfirmation "No Portfolio Selected" true])
  | Some portfolio =>
      if JS.falsy_str symbol || JS.falsy shares || JS.falsy purchasePrice
         || JS.falsy_str purchaseDate || (shares <=? 0)%float
         || (purchasePrice <? 0)%float
      then (st, [ShowConfirmation "Invalid Input" true])
      else if existsb (λ h, bool_decide (LocalStore.symbol h = symbol))
                      (holdings portfolio)
      then (st, [ShowConfirmation "Duplicate Stock" true])
      else
        let newHolding :=
          mkHolding symbol shares purchasePrice purchaseDate purchasePrice in
        let '(st', effects) :=
          rest
            (saveDataToLocalStorage
               (mkState
                  (map (pushHolding (portfolio_id portfolio) newHolding)
                       (portfolios st))
                  (currentPortfolioId st) (priceUpdateInterval st)
                  (localStorage st))) in
        (st', SaveToLocalStorage :: effects)
  end.

(** The whole call: after the push and the save it ends with
    [await this.fetchRealTimePrices(); this.render()]; [respond] answers
    the request. *)
Definition addStock (st : State) (symbol : string) (shares purchasePrice : float)
    (purchaseDate : string) (respond : string → FetchOutcome)
    : State * list Effect :=
  addStock_then
    (λ st', let '(st'', effects) := fetchRealTimePrices st' respond in
            (st'', effects ++ [Render]))
    st symbol shares purchasePrice purchaseDate.

(** The call up to that [await]: the state in which the quote request goes
    out, which other handlers can meet before the answer is there. *)
Definition addStock_push (st : State) (symbol : string)
    (shares purchasePrice : float) (purchaseDate : string)
    : State * list Effect :=
  addStock_then (λ st', (st', []))
    st symbol shares purchasePrice purchaseDate.

(** *** [deletePortfolio] *)

Definition deletePortfolio (st : State) (confirm : bool) : State * list Effect :=
  match getCurrentPortfolio st with
  | None => (st, [])
  | Some portfolio =>
      if decide (length (JS.keys portfolio_id (portfolios st)) ≤ 1)
      then (st, [ShowConfirmation "Cannot Delete" true])
      else if negb confirm
      then (st, [ShowConfirmation "Delete Portfolio?" false])
      else
        let portfolios' :=
          match currentPortfolioId st with
          | Some cur => JS.delete portfolio_id cur (portfolios st)
          | None => portfolios st
          end in
        (saveDataToLocalStorage
           (mkState portfolios' (head (JS.keys portfolio_id portfolios'))
                    (priceUpdateInterval st) (localStorage st)),
         [ShowConfirmation "Delete Portfolio?" false; SaveToLocalStorage; Render])
  end.

(** *** Start-up *)

(** [`portfolio-${Date.now()}`] *)
Definition newPortfolioId (now : N) : string := "portfolio-" +:+ pretty now.

(** [stored] is the parsed item 'stockPortfolios', if there is one. *)
Definition loadDataFromLocalStorage (stored : option (list Portfolio)) (now : N)
    : list Portfolio :=
  match stored with
  | Some data => data
  | None =>
      let defaultId := newPortfolioId now in
      [mkPortfolio defaultId "My First Portfolio" []]
  end.

(** The state the constructor builds; [Object.keys(...)[0] || null] is
    [null] also for a first key that is the empty string. *)
Definition constructor (stored : option (list Portfolio)) (now : N) : State :=
  let portfolios := loadDataFromLocalStorage stored now in
  let currentPortfolioId :=
    match head (JS.keys portfolio_id portfolios) with
    | Some k => if JS.falsy_str k then None else Some k
    | None => None
    end in
  mkState portfolios currentPortfolioId None stored.

(** *** The other actions *)

(** The guard [this.portfolios[portfolioId]] lets through the id of a
    portfolio and, besides, the name of an inherited property; what that
    names has no [holdings], and [render] fails on it with a TypeError. *)
Definition switchPortfolio (st : State) (portfolioId : string)
    : State * list Effect :=
  match JS.get portfolio_id portfolioId (portfolios st) with
  | Some _ =>
      (mkState (portfolios st) (Some portfolioId) (priceUpdateInterval st)
               (localStorage st),
       [Render])
  | None =>
      if JS.inherited portfolioId
      then (mkState (portfolios st) (Some portfolioId) (priceUpdateInterval st)
                    (localStorage st),
            [Uncaught "TypeError"])
      else (st, [])
  end.

(** [portfolio.holdings = portfolio.holdings.filter(h => h.symbol !==
    symbolToRemove)] on the current portfolio. *)
Definition filterHoldings (id symbolToRemove : string) (p : Portfolio)
    : Portfolio :=
  if decide (portfolio_id p = id)
  then mkPortfolio (portfolio_id p) (name p)
         (filter (λ h, symbol h ≠ symbolToRemove) (holdings p))
  else p.

(** [confirm]: the user presses the confirm button of the dialog. *)
Definition removeHolding (st : State) (symbolToRemove : string) (confirm : bool)
    : State * list Effect :=
  if negb confirm then (st, [ShowConfirmation "Confirm Deletion" false])
  else
    match getCurrentPortfolio st with
    | Some portfolio =>
        (saveDataToLocalStorage
           (mkState
              (map (filterHoldings (portfolio_id portfolio) symbolToRemove)
                   (portfolios st))
              (currentPortfolioId st) (priceUpdateInterval st)
              (localStorage st)),
         [ShowConfirmation "Confirm Deletion" false; SaveToLocalStorage; Render])
    | None => (st, [ShowConfirmation "Confirm Deletion" false])
    end.

(** [newName] is the form value after [trim()], [now] is [Date.now()]. *)
Definition createPortfolio (st : State) (newName : string) (now : N)
    : State * list Effect :=
  if JS.falsy_str newName
  then (st, [ShowConfirmation "Invalid Name" true])
  else
    let newId := newPortfolioId now in
    (saveDataToLocalStorage
       (mkState
          (JS.set portfolio_id (mkPortfolio newId newName []) (portfolios st))
          (Some newId) (priceUpdateInterval st) (localStorage st)),
     [SaveToLocalStorage; Render]).

(** [portfolio.name = newName] on the current portfolio. *)
Definition rename (id newName : string) (p : Portfolio) : Portfolio :=
  if decide (portfolio_id p = id)
  then mkPortfolio (portfolio_id p) newName (holdings p)
  else p.

Definition savePortfolioName (st : State) (newName : string)
    : State * list Effect :=
  match getCurrentPortfolio st with
  | Some portfolio =>
      if JS.falsy_str newName then (st, [])
      else
        (saveDataToLocalStorage
           (mkState (map (rename (portfolio_id portfolio) newName) (portfolios st))
                    (currentPortfolioId st) (priceUpdateInterval st)
                    (localStorage st)),
         [SaveToLocalStorage])
  | None => (st, [])
  end.

End LocalStore.

(* ------------------------------------------------------------------ *)
(** ** [src/app.js]: the stand-alone demo *)

Module Demo.

Record Holding := mkHolding {
  symbol : string;
  shares : float;
  purchasePrice : float;
  purchaseDate : string;
  currentPrice : float }.

Record Portfolio := mkPortfolio {
  portfolio_id : string;
  name : string;
  holdings : list Holding }.

Record Range := mkRange { range_min : float; range_max : float }.

Record State := mkState {
  portfolios : list Portfolio;
  priceRanges : gmap string Range;
  currentPortfolioId : string }.

(** The three numbers a table row is rendered from. *)
Record RowMetrics := mkRowMetrics {
  marketValue : float;
  gainLoss : float;                          (* totalGainLoss in the source *)
  gainLossPercent : float }.

Record PortfolioTotals := mkPortfolioTotals {
  totalValue : float;
  totalGainLoss : float;
  totalGainLossPercent : float }.

(** The state the constructor builds. *)
Definition constructor : State :=
  mkState
    [ mkPortfolio "tech-growth" "Tech Growth Portfolio"
        [ mkHolding "AAPL" 50 150.25 "2024-01-15" 175.30;
          mkHolding "GOOGL" 25 120.50 "2024-01-20" 138.75;
          mkHolding "MSFT" 30 280.00 "2024-02-01" 295.50 ];
      mkPortfolio "dividend-income" "Dividend Income Portfolio"
        [ mkHolding "KO" 100 58.20 "2024-01-10" 61.45;
          mkHolding "JNJ" 40 165.80 "2024-01-25" 172.20;
          mkHolding "PFE" 75 42.15 "2024-02-05" 39.80 ] ]
    (list_to_map
       [ ("AAPL", mkRange 170 180); ("GOOGL", mkRange 135 145);
         ("MSFT", mkRange 290 300); ("KO", mkRange 60 65);
         ("JNJ", mkRange 168 175); ("PFE", mkRange 38 42) ])
    "tech-growth".

(** [this.portfolios[this.currentPortfolioId]].  The selection is the id
    the constructor sets or one the select offers, the id of a portfolio,
    so the lookup is among the portfolios; [switchPortfolio] below says
    what a call with another id does. *)
Definition getCurrentPortfolio (st : State) : option Portfolio :=
  JS.get portfolio_id (currentPortfolioId st) (portfolios st).

Definition createTableRow (holding : Holding) : RowMetrics :=
  let marketValue := (shares holding * currentPrice holding)%float in
  let totalGainLoss :=
    (marketValue - shares holding * purchasePrice holding)%float in
  let gainLossPercent :=
    (totalGainLoss / (shares holding * purchasePrice holding) * 100)%float in
  mkRowMetrics marketValue totalGainLoss gainLossPercent.

Definition addHoldingTotals (acc : float * float) (holding : Holding)
    : float * float :=
  let marketValue := (shares holding * currentPrice holding)%float in
  let cost := (shares holding * purchasePrice holding)%float in
  ((acc.1 + marketValue)%float, (acc.2 + cost)%float).

Definition calculatePortfolioTotals (portfolio : Portfolio) : PortfolioTotals :=
  let '(totalValue, totalCost) :=
    fold_left addHoldingTotals (holdings portfolio) (0%float, 0%float) in
  let totalGainLoss := (totalValue - totalCost)%float in
  let totalGainLossPercent :=
    if (0 <? totalCost)%float then (totalGainLoss / totalCost * 100)%float
    else 0%float in
  mkPortfolioTotals totalValue totalGainLoss totalGainLossPercent.

(** [/^[A-Z0-9]{1,6}$/.test(s)] *)
Definition alnum (c : Ascii.ascii) : bool :=
  let n := Ascii.nat_of_ascii c in
  (65 <=? n)%nat && (n <=? 90)%nat || (48 <=? n)%nat && (n <=? 57)%nat.

Definition symbolRegex_test (s : string) : bool :=
  (1 <=? String.length s)%nat && (String.length s <=? 6)%nat
  && forallb alnum (String.list_ascii_of_string s).

Definition pushHolding (id : string) (h : Holding) (p : Portfolio) : Portfolio :=
  if decide (portfolio_id p = id)
  then mkPortfolio (portfolio_id p) (name p) (holdings p ++ [h])
  else p.

(** [stockSymbol] is the form value after [toUpperCase().trim()],
    [sharesValue] the text of the shares field, which [parseInt] reads, and
    [purchasePrice] what [parseFloat] makes of the text of the price
    field. *)
Definition addStock (st : State) (stockSymbol sharesValue : string)
    (purchasePrice : float) (purchaseDate : string)
    : State * list Effect :=
  if negb (symbolRegex_test stockSymbol)
  then (st, [Alert "Invalid stock symbol. Please enter 1-6 alphanumeric characters (letters and numbers only)."])
  else
    let shares := JS.parseInt sharesValue in
    let stock :=
      mkHolding stockSymbol shares purchasePrice purchaseDate purchasePrice in
    if JS.falsy_str stockSymbol || JS.isNaN shares || JS.isNaN purchasePrice
       || JS.falsy_str purchaseDate
    then (st, [Alert "Please fill in all fields with valid values"])
    else if (shares <=? 0)%float || (purchasePrice <=? 0)%float
    then (st, [Alert "Shares and purchase price must be positive numbers"])
    else
      match getCurrentPortfolio st with
      | None => (st, [ConsoleError "No current portfolio found"])
      | Some portfolio =>
          let portfolios' :=
            map (pushHolding (portfolio_id portfolio) stock) (portfolios st) in
          let priceRanges' :=
            match priceRanges st !! stockSymbol with
            | Some _ => priceRanges st
            | None =>
                <[stockSymbol :=
                    mkRange (purchasePrice * 0.9)%float
                            (purchasePrice * 1.1)%float]> (priceRanges st)
            end in
          (mkState portfolios' priceRanges' (currentPortfolioId st), [Render])
      end.

(** *** The other actions *)

(** [switchPortfolio] selects whatever id it is given; [renderPortfolio]
    then renders the portfolio of that id, logs an error when there is
    nothing under the id, and fails with a TypeError on what the name of an
    inherited property stands for, which has no [holdings]. *)
Definition switchPortfolio (st : State) (portfolioId : string)
    : State * list Effect :=
  let st' := mkState (portfolios st) (priceRanges st) portfolioId in
  match getCurrentPortfolio st' with
  | Some _ => (st', [Render])
  | None =>
      if JS.inherited portfolioId then (st', [Uncaught "TypeError"])
      else (st', [ConsoleError "Portfolio not found:"])
  end.

(** [portfolio.holdings.splice(index, 1)] on the current portfolio. *)
Definition spliceHolding (id : string) (index : nat) (p : Portfolio) : Portfolio :=
  if decide (portfolio_id p = id)
  then mkPortfolio (portfolio_id p) (name p) (delete index (holdings p))
  else p.

(** [confirm]: the answer to [window.confirm]. *)
Definition removeHolding (st : State) (index : nat) (confirm : bool)
    : State * list Effect :=
  if confirm then
    match getCurrentPortfolio st with
    | Some portfolio =>
        match holdings portfolio !! index with
        | Some _ =>
            (mkState (map (spliceHolding (portfolio_id portfolio) index)
                          (portfolios st))
                     (priceRanges st) (currentPortfolioId st),
             [Render])
        | None => (st, [])
        end
    | None => (st, [])
    end
  else (st, []).

Definition rename (id newName : string) (p : Portfolio) : Portfolio :=
  if decide (portfolio_id p = id)
  then mkPortfolio (portfolio_id p) newName (holdings p)
  else p.

(** [newName] is the form value after [trim()]. *)
Definition savePortfolioName (st : State) (newName : string)
    : State * list Effect :=
  if JS.falsy_str newName
  then (st, [Alert "Please enter a portfolio name"])
  else
    match getCurrentPortfolio st with
    | Some portfolio =>
        (mkState (map (rename (portfolio_id portfolio) newName) (portfolios st))
                 (priceRanges st) (currentPortfolioId st),
         [])
    | None => (st, [])
    end.

(** *** [simulatePriceUpdates] *)

(** The body of the inner [forEach] for a holding whose symbol has a price
    range; [random] is the value of [Math.random()].  The result is the
    holding and whether its price was changed. *)
Definition simulateInRange (range : Range) (random : float) (holding : Holding)
    : Holding * bool :=
  let volatility := 0.02%float in
  let change := ((random - 0.5) * 2 * volatility)%float in
  let newPrice := (currentPrice holding * (1 + change))%float in
  let newPrice :=
    JS.Math_max (range_min range) (JS.Math_min (range_max range) newPrice) in
  if (0.01 <? JS.Math_abs (newPrice - currentPrice holding))%float
  then (mkHolding (symbol holding) (shares holding) (purchasePrice holding)
                  (purchaseDate holding) newPrice, true)
  else (holding, false).

(** The inner [forEach] over the holdings of one portfolio.  [random n] is
    the [n]-th value [Math.random()] returns during the call; the counter
    moves on for every holding that has a price range. *)
Fixpoint simulateHoldings (priceRanges : gmap string Range) (random : nat → float)
    (n : nat) (holdings : list Holding) : list Holding * nat * bool :=
  match holdings with
  | [] => ([], n, false)
  | holding :: rest =>
      match priceRanges !! symbol holding with
      | Some range =>
          let '(holding', updated) := simulateInRange range (random n) holding in
          let '(rest', n', hasUpdates) :=
            simulateHoldings priceRanges random (S n) rest in
          (holding' :: rest', n', updated || hasUpdates)
      | None =>
          let '(rest', n', hasUpdates) :=
            simulateHoldings priceRanges random n rest in
          (holding :: rest', n', hasUpdates)
      end
  end.

(** The outer [forEach] over the portfolios. *)
Fixpoint simulatePortfolios (priceRanges : gmap string Range) (random : nat → float)
    (n : nat) (portfolios : list Portfolio) : list Portfolio * nat * bool :=
  match portfolios with
  | [] => ([], n, false)
  | portfolio :: rest =>
      let '(holdings', n', updated) :=
        simulateHoldings priceRanges random n (holdings portfolio) in
      let '(rest', n'', hasUpdates) :=
        simulatePortfolios priceRanges random n' rest in
      (mkPortfolio (portfolio_id portfolio) (name portfolio) holdings' :: rest',
       n'', updated || hasUpdates)
  end.

Definition simulatePriceUpdates (st : State) (random : nat → float)
    : State * list Effect :=
  let '(portfolios', _, hasUpdates) :=
    simulatePortfolios (priceRanges st) random 0 (portfolios st) in
  (mkState portfolios' (priceRanges st) (currentPortfolioId st),
   if hasUpdates then [Render] else []).

End Demo.

(* ------------------------------------------------------------------ *)
(** ** [backend/server.js]: the price table of [GET /api/quotes] *)

Module Server.

(** A quote of the upstream answer, as the handler reads it. *)
Record Quote := mkQuote {
  instrument_symbol : option string;   (* quote.instrument?.symbol *)
  last : float }.                      (* parseFloat(quote.last) *)

(** The body of the [forEach]: [prices] after one more quote. *)
Definition addQuote (prices : gmap string float) (quote : Quote)
    : gmap string float :=
  let price := last quote in
  match instrument_symbol quote with
  | Some sym =>
      if negb (JS.falsy_str sym) && negb (JS.isNaN price)
      then JS.assign sym price prices
      else prices
  | None => prices
  end.

(** The object [prices] at the end of the loop.  [quotes] is
    [response.data.quotes] when the answer has such an array (the two
    versions of the handler differ only in how they test for it). *)
Definition quotePrices (quotes : option (list Quote)) : gmap string float :=
  match quotes with
  | Some quotes => fold_left addQuote quotes ∅
  | None => ∅
  end.

(** [res.json(prices)]: the mapping the endpoint returns, as the body
    carries it; [None] is the [null] that stands for a price that is no
    finite number. *)
Definition quotesBody (quotes : option (list Quote))
    : gmap string (option float) :=
  JS.JSON_number <$> quotePrices quotes.

(** *** The instruments asked of the upstream API *)






(** *** [getValidAccessToken] *)

(** The cached token.  Times are [Date.now()] values, whole numbers of
    milliseconds, and validities are whole minutes; both are far below
    2^53, where the arithmetic of doubles on them is exact. *)
Record ApiAccessToken := mkApiAccessToken {
  token : option string;
  expiresAt : Z }.

(** The answer of the token service: no answer, or the [accessToken] and
    [validity_in_minutes] properties of its data, where present. *)
Inductive TokenReply :=
  | TokenFailed
  | TokenData (accessToken : option string) (validity_in_minutes : option Z).

Record TokenCall := mkTokenCall {
  cache : ApiAccessToken;          (* apiAccessToken after the call *)
  outcome : string + string;       (* the token, or the message of the error *)
  posted : bool }.                 (* whether the token service was asked *)

(** [x || 55] on a number that may be missing. *)
Definition validityOr55 (validity_in_minutes : option Z) : Z :=
  match validity_in_minutes with
  | Some v => if decide (v = 0%Z) then 55%Z else v
  | None => 55%Z
  end.

(** [now] is the time of the validity test, [now'] the time at which a new
    token is stored. *)
Definition getValidAccessToken (PUBLIC_API_SECRET_KEY : option string)
    (apiAccessToken : ApiAccessToken) (now : Z) (reply : TokenReply) (now' : Z)
    : TokenCall :=
  let failure :=
    mkTokenCall apiAccessToken
      (inr "Could not obtain API access token. Please check your PUBLIC_API_KEY.")
      true in
  let request :=
    match PUBLIC_API_SECRET_KEY with
    | Some key =>
        if JS.falsy_str key
        then mkTokenCall apiAccessToken
               (inr "PUBLIC_API_KEY is not configured on the server.") false
        else
          match reply with
          | TokenFailed => failure
          | TokenData None _ => failure
          | TokenData (Some newAccessToken) validity_in_minutes =>
              if JS.falsy_str newAccessToken then failure
              else
                let validityInMinutes := validityOr55 validity_in_minutes in
                mkTokenCall
                  (mkApiAccessToken (Some newAccessToken)
                     (now' + validityInMinutes * 60 * 1000)%Z)
                  (inl newAccessToken) true
          end
    | None =>
        mkTokenCall apiAccessToken
          (inr "PUBLIC_API_KEY is not configured on the server.") false
    end in
  match token apiAccessToken with
  | Some t =>
      if negb (JS.falsy_str t) && bool_decide (now < expiresAt apiAccessToken - 60000)%Z
      then mkTokenCall apiAccessToken (inl t) false
      else request
  | None => request
  end.

End Server.

(* ------------------------------------------------------------------ *)
(** ** The refresh timer and the pending quote requests

    [startPriceUpdates] and the arrow function it hands to [setInterval] are
    the same in [LocalStore] and [ApiStore]; what differs is
    [fetchRealTimePrices], which enters here in its two halves.  The browser
    is a record of the armed intervals and of the fetches that have not
    been answered; it delivers one event at a time, and a handler runs
    until it returns or reaches an [await]. *)

Module Scheduler.
Section EventLoop.

Context {State : Type}.
Variable request : State → option string.
Variable resume : State → FetchOutcome → State * list Effect.
Variable priceUpdateInterval : State → option nat.
Variable set_priceUpdateInterval : option nat → State → State.

Record Runtime := mkRuntime {
  app : State;
  pending : list string;   (* URLs of the fetches in flight, oldest first *)
  timers : list nat;       (* handles of the armed intervals *)
  nextHandle : nat;        (* the handle the next setInterval returns *)
  console : list Effect }.

Inductive Event :=
  | Tick (handle : nat)                     (* an interval fires *)
  | Answer (i : nat) (out : FetchOutcome).  (* the i-th pending fetch settles *)

(** [this.fetchRealTimePrices()] up to its [await]. *)
Definition callFetch (r : Runtime) : Runtime :=
  match request (app r) with
  | None => r
  | Some url =>
      mkRuntime (app r) (pending r ++ [url]) (timers r) (nextHandle r) (console r)
  end.

Definition clearInterval (h : nat) (timers : list nat) : list nat :=
  filter (λ h', h' ≠ h) timers.

Definition startPriceUpdates (r : Runtime) : Runtime :=
  let r := callFetch r in
  let timers' :=
    match priceUpdateInterval (app r) with
    | Some h => clearInterval h (timers r)
    | None => timers r
    end in
  let h := nextHandle r in
  mkRuntime (set_priceUpdateInterval (Some h) (app r)) (pending r)
            (timers' ++ [h]) (S h) (console r).

Definition step (r : Runtime) (e : Event) : Runtime :=
  match e with
  | Tick h => if decide (h ∈ timers r) then callFetch r else r
  | Answer i out =>
      match pending r !! i with
      | None => r
      | Some _ =>
          let '(st, effects) := resume (app r) out in
          mkRuntime st (delete i (pending r)) (timers r) (nextHandle r)
                    (console r ++ effects)
      end
  end.

Definition run (r : Runtime) (events : list Event) : Runtime :=
  fold_left step events r.

End EventLoop.
End Scheduler.

Module ApiLoop.
Definition set_priceUpdateInterval (h : option nat) (st : ApiStore.State)
    : ApiStore.State :=
  ApiStore.mkState (ApiStore.portfolios st) (ApiStore.holdings st)
                   (ApiStore.currentPortfolioId st) h.

Definition Runtime := @Scheduler.Runtime ApiStore.State.

Definition startPriceUpdates : Runtime → Runtime :=
  Scheduler.startPriceUpdates ApiStore.fetchRealTimePrices_request
    ApiStore.priceUpdateInterval set_priceUpdateInterval.

Definition step : Runtime → Scheduler.Event → Runtime :=
  Scheduler.step ApiStore.fetchRealTimePrices_request
    ApiStore.fetchRealTimePrices_resume.

Definition run : Runtime → list Scheduler.Event → Runtime :=
  Scheduler.run ApiStore.fetchRealTimePrices_request
    ApiStore.fetchRealTimePrices_resume.
End ApiLoop.

Module LocalLoop.
Definition set_priceUpdateInterval (h : option nat) (st : LocalStore.State)
    : LocalStore.State :=
  LocalStore.mkState (LocalStore.portfolios st) (LocalStore.currentPortfolioId st)
                     h (LocalStore.localStorage st).

Definition Runtime := @Scheduler.Runtime LocalStore.State.

Definition startPriceUpdates : Runtime → Runtime :=
  Scheduler.startPriceUpdates LocalStore.fetchRealTimePrices_request
    LocalStore.priceUpdateInterval set_priceUpdateInterval.

Definition step : Runtime → Scheduler.Event → Runtime :=
  Scheduler.step LocalStore.fetchRealTimePrices_request
    LocalStore.fetchRealTimePrices_resume.

Definition run : Runtime → list Scheduler.Event → Runtime :=
  Scheduler.run LocalStore.fetchRealTimePrices_request
    LocalStore.fetchRealTimePrices_resume.
End LocalLoop.

(* ------------------------------------------------------------------ *)
(** ** Sample states *)

Module Sample.

(** Two portfolios that both hold AAPL, the first one selected. *)
Definition api : ApiStore.State :=
  ApiStore.mkState
    [ ApiStore.mkPortfolio "p1" "Growth" ["h1"; "h2"];
      ApiStore.mkPortfolio "p2" "Income" ["h3"] ]
    [ ApiStore.mkHolding "h1" "AAPL" 50 150.25 "2024-01-15" 175.30;
      ApiStore.mkHolding "h2" "MSFT" 30 280 "2024-02-01" 295.50;
      ApiStore.mkHolding "h3" "AAPL" 10 160 "2024-03-01" 175.30 ]
    (Some "p1") (Some 1).

Definition local : LocalStore.State :=
  LocalStore.mkState
    [ LocalStore.mkPortfolio "portfolio-1" "Growth"
        [ LocalStore.mkHolding "AAPL" 50 150.25 "2024-01-15" 175.30;
          LocalStore.mkHolding "MSFT" 30 280 "2024-02-01" 295.50 ];
      LocalStore.mkPortfolio "portfolio-2" "Income"
        [ LocalStore.mkHolding "AAPL" 10 160 "2024-03-01" 175.30 ] ]
    (Some "portfolio-1") (Some 1) None.

(** The same stores before any holding is added. *)
Definition api_empty : ApiStore.State :=
  ApiStore.mkState [ApiStore.mkPortfolio "p1" "Growth" []] [] (Some "p1") (Some 1).




(** Shares received for nothing, and the holding of the scenario of the
    specification. *)
Definition gift : ApiStore.Holding :=
  ApiStore.mkHolding "h9" "GIFT" 10 0 "2024-01-01" 42.5.

Definition aapl : Demo.Holding :=
  Demo.mkHolding "AAPL" 50 150.25 "2024-01-15" 175.30.

(** A price table that quotes AAPL only. *)
Definition quotes : gmap string float := {[ "AAPL" := 180.5%float ]}.

(** The browser with the interval armed and nothing in flight. *)
Definition api_runtime : ApiLoop.Runtime :=
  Scheduler.mkRuntime api [] [1] 2 [].

Definition local_runtime : LocalLoop.Runtime :=
  Scheduler.mkRuntime local [] [1] 2 [].

End Sample.

(* ------------------------------------------------------------------ *)
(** ** The properties in the words of the specification *)

(** The metrics of a holding as the specification words them: market value,
    gain or loss against the cost basis, and the percentage with its guard
    against a cost basis that is not positive. *)
Definition holdingMetrics_spec
    (shares purchasePrice currentPrice marketValue gainLoss gainLossPercent : float)
    : Prop :=
  let totalCost := (shares * purchasePrice)%float in
  marketValue = (shares * currentPrice)%float
  ∧ gainLoss = (marketValue - shares * purchasePrice)%float
  ∧ ((0 <? totalCost)%float = true →
       gainLossPercent = (gainLoss / totalCost * 100)%float)
  ∧ ((totalCost =? 0)%float = true → gainLossPercent = 0%float)
  ∧ ((purchasePrice =? 0)%float = true → gainLossPercent = 0%float).


(** The holdings of a portfolio of [ApiStore]: the entries of
    [this.holdings] that its [holdingIds] name, in that order. *)
Definition holdingsOf (st : ApiStore.State) (p : ApiStore.Portfolio)
    : list ApiStore.Holding :=
  omap (λ id, JS.get ApiStore.holding_id id (ApiStore.holdings st))
       (ApiStore.holdingIds p).

(** The totals of a portfolio as the specification words them, from the
    market values and the costs of its holdings. *)
Definition portfolioTotals_spec (values costs : list float)
    (totalValue totalGainLoss totalGainLossPercent : float) : Prop :=
  totalValue = JS.sum values
  ∧ totalGainLoss = (totalValue - JS.sum costs)%float
  ∧ totalGainLossPercent = JS.percentOf totalGainLoss (JS.sum costs).

(** "At most one external price call is in flight": the browser has at most
    one unanswered quote request. *)
Definition atMostOneInFlight {State : Type} (r : @Scheduler.Runtime State) : Prop :=
  length (Scheduler.pending r) ≤ 1.

(** The inputs [addStock] lets through its validation: a symbol and a date
    that are not empty, and shares and a purchase price that are numbers
    above zero. *)
Definition validInput (symbol : string) (shares purchasePrice : float)
    (purchaseDate : string) : Prop :=
  symbol ≠ "" ∧ (0 <? shares)%float = true ∧ (0 <? purchasePrice)%float = true
  ∧ purchaseDate ≠ "".

(** A text of decimal digits only. *)
Definition decimal (s : string) : bool :=
  forallb (λ c, (48 <=? Ascii.N_of_ascii c)%N && (Ascii.N_of_ascii c <=? 57)%N)
          (String.list_ascii_of_string s).

(** A quote that [/api/quotes] keeps: it carries an instrument symbol that
    is not empty, and its [last] parses to a number. *)
Definition keptQuote (quote : Server.Quote) : bool :=
  match Server.instrument_symbol quote with
  | Some sym => negb (JS.falsy_str sym) && negb (JS.isNaN (Server.last quote))
  | None => false
  end.

(** What a price table may do to a current price: set it to the price the
    table has for the symbol, or leave it when the table has none. *)
Definition reconciled (prices : gmap string float) (symbol : string)
    (before after : float) : Prop :=
  match prices !! symbol with
  | Some price => after = price
  | None => after = before
  end.

(** The current price of a holding bought at [before] once the quote request
    that [addStock] ends with is answered by [out]. *)
Definition quoted (out : FetchOutcome) (symbol : string) (before : float)
    : float :=
  match out with
  | Prices prices => default before (prices !! symbol)
  | _ => before
  end.

(** A holding before and after a reconciliation, in either front end. *)
Definition api_reconciled (prices : gmap string float)
    (h h' : ApiStore.Holding) : Prop :=
  ApiStore.holding_id h' = ApiStore.holding_id h
  ∧ ApiStore.symbol h' = ApiStore.symbol h
  ∧ ApiStore.shares h' = ApiStore.shares h
  ∧ ApiStore.purchasePrice h' = ApiStore.purchasePrice h
  ∧ ApiStore.purchaseDate h' = ApiStore.purchaseDate h
  ∧ reconciled prices (ApiStore.symbol h)
      (ApiStore.currentPrice h) (ApiStore.currentPrice h').

Definition local_reconciled (prices : gmap string float)
    (h h' : LocalStore.Holding) : Prop :=
  LocalStore.symbol h' = LocalStore.symbol h
  ∧ LocalStore.shares h' = LocalStore.shares h
  ∧ LocalStore.purchasePrice h' = LocalStore.purchasePrice h
  ∧ LocalStore.purchaseDate h' = LocalStore.purchaseDate h
  ∧ reconciled prices (LocalStore.symbol h)
      (LocalStore.currentPrice h) (LocalStore.currentPrice h').

(** The stores before and after: the same portfolios with the same
    holdings in the same places, each holding reconciled. *)
Definition api_store_reconciled (prices : gmap string float)
    (st st' : ApiStore.State) : Prop :=
  ApiStore.portfolios st' = ApiStore.portfolios st
  ∧ ApiStore.currentPortfolioId st' = ApiStore.currentPortfolioId st
  ∧ Forall2 (api_reconciled prices) (ApiStore.holdings st) (ApiStore.holdings st').

Definition local_store_reconciled (prices : gmap string float)
    (st st' : LocalStore.State) : Prop :=
  LocalStore.currentPortfolioId st' = LocalStore.currentPortfolioId st
  ∧ Forall2
      (λ p p', LocalStore.portfolio_id p' = LocalStore.portfolio_id p
               ∧ LocalStore.name p' = LocalStore.name p
               ∧ Forall2 (local_reconciled prices)
                   (LocalStore.holdings p) (LocalStore.holdings p'))
      (LocalStore.portfolios st) (LocalStore.portfolios st').

(* ------------------------------------------------------------------ *)
(** ** Histories of user actions *)

(** What can happen to the [LocalStore] front end: the user's actions and
    the answers to its quote requests.  [LSwitch] is the change event of
    the select, whose options are the ids of the portfolios: a value that
    is none of them is not on offer.  [LAddStock] is [addStock] up to its
    [await]; the answer to the request it then sends is an [LAnswer], as
    for every other request. *)
Inductive LocalAction :=
  | LSwitch (portfolioId : string)
  | LAddStock (symbol : string) (shares purchasePrice : float) (purchaseDate : string)
  | LRemoveHolding (symbol : string) (confirm : bool)
  | LCreatePortfolio (newName : string) (now : N)
  | LSavePortfolioName (newName : string)
  | LDeletePortfolio (confirm : bool)
  | LAnswer (out : FetchOutcome).

Definition local_act (st : LocalStore.State) (a : LocalAction) : LocalStore.State :=
  match a with
  | LSwitch portfolioId =>
      match JS.get LocalStore.portfolio_id portfolioId (LocalStore.portfolios st) with
      | Some _ => (LocalStore.switchPortfolio st portfolioId).1
      | None => st
      end
  | LAddStock symbol shares purchasePrice purchaseDate =>
      (LocalStore.addStock_push st symbol shares purchasePrice purchaseDate).1
  | LRemoveHolding symbol confirm => (LocalStore.removeHolding st symbol confirm).1
  | LCreatePortfolio newName now => (LocalStore.createPortfolio st newName now).1
  | LSavePortfolioName newName => (LocalStore.savePortfolioName st newName).1
  | LDeletePortfolio confirm => (LocalStore.deletePortfolio st confirm).1
  | LAnswer out => (LocalStore.fetchRealTimePrices_resume st out).1
  end.

(** A [LocalStore] state as the front end keeps it: the portfolio ids are
    distinct, being the keys of an object, and a portfolio is selected. *)
Definition local_wf (st : LocalStore.State) : Prop :=
  NoDup (JS.keys LocalStore.portfolio_id (LocalStore.portfolios st))
  ∧ is_Some (LocalStore.getCurrentPortfolio st).

(** The armed intervals are the one the front end remembers, if any. *)
Definition api_one_timer (r : ApiLoop.Runtime) : Prop :=
  Scheduler.timers r = option_list (ApiStore.priceUpdateInterval (Scheduler.app r)).

Definition local_one_timer (r : LocalLoop.Runtime) : Prop :=
  Scheduler.timers r = option_list (LocalStore.priceUpdateInterval (Scheduler.app r)).

(** What [simulatePriceUpdates] may do to a holding: leave it as it is, or
    move its price to a different one inside the range of its symbol. *)
Definition simulated (priceRanges : gmap string Demo.Range)
    (holding holding' : Demo.Holding) : Prop :=
  holding' = holding
  ∨ ∃ range newPrice,
      priceRanges !! Demo.symbol holding = Some range
      ∧ holding' = Demo.mkHolding (Demo.symbol holding) (Demo.shares holding)
                     (Demo.purchasePrice holding) (Demo.purchaseDate holding)
                     newPrice
      ∧ (Demo.range_min range <=? newPrice)%float = true
      ∧ (newPrice <=? Demo.range_max range)%float = true
      ∧ newPrice ≠ Demo.currentPrice holding.

Definition simulated_portfolio (priceRanges : gmap string Demo.Range)
    (portfolio portfolio' : Demo.Portfolio) : Prop :=
  Demo.portfolio_id portfolio' = Demo.portfolio_id portfolio
  ∧ Demo.name portfolio' = Demo.name portfolio
  ∧ Forall2 (simulated priceRanges)
      (Demo.holdings portfolio) (Demo.holdings portfolio').

(** Every price range has its minimum at or below its maximum. *)
Definition ranges_ordered (priceRanges : gmap string Demo.Range) : Prop :=
  map_Forall (λ _ range,
    (Demo.range_min range <=? Demo.range_max range)%float = true) priceRanges.



(** What can happen to the [ApiStore] front end: the start-up load, the
    user's actions with the answers of the server to them, and the answers
    to its quote requests.  [ASwitch] is the change event of the select,
    whose options are the ids of the portfolios: a value that is none of
    them is not on offer.  [AAddStock] is [addStock] up to its last
    [await]; the answer to the request it then sends is an [AAnswer], as
    for every other request. *)
Inductive ApiAction :=
  | ALoad (out : ApiStore.LoadOutcome)
  | ASwitch (portfolioId : string)
  | AAddStock (symbol : string) (shares purchasePrice : float)
      (purchaseDate : string) (post : ApiStore.PostOutcome)
  | ARemoveHolding (holdingId : string) (confirm deleted : bool)
  | ACreatePortfolio (newName : string) (post : ApiStore.CreateOutcome)
  | ASavePortfolioName (newName : string) (saved : bool)
  | ADeletePortfolio (confirm deleted : bool)
  | AAnswer (out : FetchOutcome).

Definition api_act (st : ApiStore.State) (a : ApiAction) : ApiStore.State :=
  match a with
  | ALoad out => (ApiStore.loadDataFromApi st out).1
  | ASwitch portfolioId =>
      match JS.get ApiStore.portfolio_id portfolioId (ApiStore.portfolios st) with
      | Some _ => (ApiStore.switchPortfolio st portfolioId).1
      | None => st
      end
  | AAddStock symbol shares purchasePrice purchaseDate post =>
      (ApiStore.addStock_push st symbol shares purchasePrice purchaseDate post).1
  | ARemoveHolding holdingId confirm deleted =>
      (ApiStore.removeHolding st holdingId confirm deleted).1
  | ACreatePortfolio newName post => (ApiStore.createPortfolio st newName post).1
  | ASavePortfolioName newName saved =>
      (ApiStore.savePortfolioName st newName saved).1
  | ADeletePortfolio confirm deleted => (ApiStore.deletePortfolio st confirm deleted).1
  | AAnswer out => (ApiStore.fetchRealTimePrices_resume st out).1
  end.

(** The holding ids the portfolios list, portfolio by portfolio. *)
Definition listedIds (portfolios : list ApiStore.Portfolio) : list string :=
  concat (map ApiStore.holdingIds portfolios).

(** The holding ids of an answer to [GET /portfolios]. *)
Definition rowIds (data : list ApiStore.PortfolioRow) : list string :=
  concat (map (λ p, map ApiStore.row_id (ApiStore.Holdings p)) data).

(** An [ApiStore] state that hangs together: the portfolio ids are
    distinct, every holding id is listed once and by one portfolio, every
    listed id names a holding of the store, and a portfolio is selected
    unless there is none. *)
Definition api_wf (st : ApiStore.State) : Prop :=
  NoDup (JS.keys ApiStore.portfolio_id (ApiStore.portfolios st))
  ∧ NoDup (listedIds (ApiStore.portfolios st))
  ∧ Forall (λ id, is_Some (JS.get ApiStore.holding_id id (ApiStore.holdings st)))
           (listedIds (ApiStore.portfolios st))
  ∧ (ApiStore.portfolios st = [] ∨ is_Some (ApiStore.getCurrentPortfolio st)).

(** What the front end relies on when an action meets a state: the server
    gives every portfolio and every holding an id of its own, and the
    holding whose removal is confirmed is one of the portfolio on
    display. *)
Definition api_expected (st : ApiStore.State) (a : ApiAction) : Prop :=
  match a with
  | ALoad (ApiStore.Loaded data) =>
      NoDup (map ApiStore.prow_id data) ∧ NoDup (rowIds data)
  | AAddStock _ _ _ _ (ApiStore.Created row) =>
      ApiStore.row_id row ∉ JS.keys ApiStore.holding_id (ApiStore.holdings st)
  | ARemoveHolding holdingId true true =>
      holdingId ∈ listedIds (ApiStore.portfolios st) →
      ∃ p, ApiStore.getCurrentPortfolio st = Some p
           ∧ holdingId ∈ ApiStore.holdingIds p
  | ACreatePortfolio _ (ApiStore.PortfolioCreated id _) =>
      id ∉ JS.keys ApiStore.portfolio_id (ApiStore.portfolios st)
  | _ => True
  end.

(** A history of actions each of which meets its state as expected. *)
Fixpoint api_history (st : ApiStore.State) (actions : list ApiAction) : Prop :=
  match actions with
  | [] => True
  | a :: rest => api_expected st a ∧ api_history (api_act st a) rest
  end.

(** The portfolio [loadDataFromApi] makes of a row. *)
Definition toPortfolio (p : ApiStore.PortfolioRow) : ApiStore.Portfolio :=
  ApiStore.mkPortfolio (ApiStore.prow_id p) (ApiStore.prow_name p)
    (map ApiStore.row_id (ApiStore.Holdings p)).

(** The holding rows of an answer to [GET /portfolios]. *)
Definition rows (data : list ApiStore.PortfolioRow) : list ApiStore.HoldingRow :=
  concat (map ApiStore.Holdings data).

(** What can happen to the demo: the user's actions and the firings of its
    price simulation, each with the values [Math.random()] returns. *)
Inductive DemoAction :=
  | DSwitch (portfolioId : string)
  | DAddStock (stockSymbol sharesValue : string) (purchasePrice : float)
      (purchaseDate : string)
  | DRemoveHolding (index : nat) (confirm : bool)
  | DSavePortfolioName (newName : string)
  | DSimulate (random : nat → float).

Definition demo_act (st : Demo.State) (a : DemoAction) : Demo.State :=
  match a with
  | DSwitch portfolioId => (Demo.switchPortfolio st portfolioId).1
  | DAddStock stockSymbol sharesValue purchasePrice purchaseDate =>
      (Demo.addStock st stockSymbol sharesValue purchasePrice purchaseDate).1
  | DRemoveHolding index confirm => (Demo.removeHolding st index confirm).1
  | DSavePortfolioName newName => (Demo.savePortfolioName st newName).1
  | DSimulate random => (Demo.simulatePriceUpdates st random).1
  end.

(** Every holding of the portfolios has a price range for its symbol. *)
Definition ranged (priceRanges : gmap string Demo.Range)
    (portfolios : list Demo.Portfolio) : Prop :=
  Forall (λ p, Forall (λ h, is_Some (priceRanges !! Demo.symbol h))
                      (Demo.holdings p))
         portfolios.

(** An action that the server refuses, or that the user does not confirm;
    for a quote request, an answer without prices. *)
Definition api_refused (a : ApiAction) : bool :=
  match a with
  | ALoad ApiStore.LoadFailed => true
  | AAddStock _ _ _ _ ApiStore.PostFailed => true
  | ARemoveHolding _ confirm deleted => negb (confirm && deleted)
  | ACreatePortfolio _ ApiStore.CreateFailed => true
  | ASavePortfolioName _ saved => negb saved
  | ADeletePortfolio confirm deleted => negb (confirm && deleted)
  | AAnswer out => failed out
  | _ => false
  end.

(* ================================================================== *)
(** * Properties *)

(* ------------------------------------------------------------------ *)
(** ** Comparison of a double with zero *)

Section FloatFacts.

Lemma Prim2SF_zero : Prim2SF 0%float = S754_zero false.
Proof. reflexivity. Qed.

Lemma SFcompare_finite_refl s m e :
  SFcompare (S754_finite s m e) (S754_finite s m e) = Some Eq.
Proof.
  pose proof (Z.compare_refl e) as He.
  pose proof (Pos.compare_cont_refl m Eq) as Hm.
  simpl. rewrite He, Hm. by destruct s.
Qed.

Lemma is_nan_spec x : is_nan x = match Prim2SF x with S754_nan => true | _ => false end.
Proof.
  unfold is_nan. rewrite FloatAxioms.eqb_spec. unfold SFeqb.
  destruct (Prim2SF x) as [s|s| |s m e]; try done; try by destruct s.
  by rewrite SFcompare_finite_refl.
Qed.

(** [0 < x] decides the sign class of [x]. *)
Lemma pos_spec x :
  (0 <? x)%float = match Prim2SF x with
                   | S754_infinity false | S754_finite false _ _ => true
                   | _ => false
                   end.
Proof.
  rewrite FloatAxioms.ltb_spec, Prim2SF_zero. unfold SFltb.
  by destruct (Prim2SF x) as [s|s| |s m e]; try destruct s.
Qed.

Lemma neg_spec x :
  (x <? 0)%float = match Prim2SF x with
                   | S754_infinity true | S754_finite true _ _ => true
                   | _ => false
                   end.
Proof.
  rewrite FloatAxioms.ltb_spec, Prim2SF_zero. unfold SFltb.
  by destruct (Prim2SF x) as [s|s| |s m e]; try destruct s.
Qed.

Lemma nonpos_spec x :
  (x <=? 0)%float = match Prim2SF x with
                    | S754_zero _ | S754_infinity true | S754_finite true _ _ => true
                    | _ => false
                    end.
Proof.
  rewrite FloatAxioms.leb_spec, Prim2SF_zero. unfold SFleb.
  by destruct (Prim2SF x) as [s|s| |s m e]; try destruct s.
Qed.

Lemma is_zero_spec x :
  is_zero x = match Prim2SF x with S754_zero _ => true | _ => false end.
Proof.
  unfold is_zero. rewrite FloatAxioms.eqb_spec. change (Prim2SF zero) with (S754_zero false).
  unfold SFeqb.
  by destruct (Prim2SF x) as [s|s| |s m e]; try destruct s.
Qed.

(** [!x || x <= 0] is false exactly when [0 < x]. *)
Lemma truthy_not_nonpos x :
  JS.falsy x || (x <=? 0)%float = negb (0 <? x)%float.
Proof.
  unfold JS.falsy. rewrite is_zero_spec, is_nan_spec, nonpos_spec, pos_spec.
  by destruct (Prim2SF x) as [s|s| |s m e]; try destruct s.
Qed.

(** [!x || x < 0] is false exactly when [0 < x]. *)
Lemma truthy_not_neg x :
  JS.falsy x || (x <? 0)%float = negb (0 <? x)%float.
Proof.
  unfold JS.falsy. rewrite is_zero_spec, is_nan_spec, neg_spec, pos_spec.
  by destruct (Prim2SF x) as [s|s| |s m e]; try destruct s.
Qed.

(** [isNaN(x) || x <= 0] is false exactly when [0 < x]. *)
Lemma number_not_nonpos x :
  JS.isNaN x || (x <=? 0)%float = negb (0 <? x)%float.
Proof.
  unfold JS.isNaN. rewrite is_nan_spec, nonpos_spec, pos_spec.
  by destruct (Prim2SF x) as [s|s| |s m e]; try destruct s.
Qed.

(** A product with a zero factor is a zero or [NaN], never positive. *)
Lemma mul_zero_not_pos s p :
  is_zero p = true → (0 <? s * p)%float = false.
Proof.
  rewrite is_zero_spec, pos_spec, FloatAxioms.mul_spec. unfold SF64mul.
  destruct (Prim2SF p) as [b|b| |b m e]; try done. intros _.
  by destruct (Prim2SF s) as [c|c| |c m e]; try destruct c; try destruct b.
Qed.

Lemma zero_not_pos x : is_zero x = true → (0 <? x)%float = false.
Proof.
  rewrite is_zero_spec, pos_spec.
  by destruct (Prim2SF x) as [s|s| |s m e]; try destruct s.
Qed.

Lemma percentOf_zero_cost gain cost :
  is_zero cost = true → JS.percentOf gain cost = 0%float.
Proof. intros H. unfold JS.percentOf. by rewrite zero_not_pos. Qed.

Lemma percentOf_zero_price gain s p :
  is_zero p = true → JS.percentOf gain (s * p)%float = 0%float.
Proof. intros H. unfold JS.percentOf. by rewrite mul_zero_not_pos. Qed.

End FloatFacts.


(* ------------------------------------------------------------------ *)
(** ** Holding metrics *)

Lemma holdingMetrics_spec_intro shares purchasePrice currentPrice :
  let marketValue := (shares * currentPrice)%float in
  let gainLoss := (marketValue - shares * purchasePrice)%float in
  holdingMetrics_spec shares purchasePrice currentPrice marketValue gainLoss
    (JS.percentOf gainLoss (shares * purchasePrice)%float).
Proof.
  repeat split.
  - intros H. unfold JS.percentOf. by rewrite H.
  - apply percentOf_zero_cost.
  - apply percentOf_zero_price.
Qed.

(** The demo computes the percentage without the guard; it is the guarded
    value whenever the cost basis is positive. *)
Lemma createTableRow_guarded (h : Demo.Holding) :
  (0 <? Demo.shares h * Demo.purchasePrice h)%float = true →
  Demo.gainLossPercent (Demo.createTableRow h) =
    JS.percentOf (Demo.gainLoss (Demo.createTableRow h))
                 (Demo.shares h * Demo.purchasePrice h)%float.
Proof. intros H. unfold JS.percentOf. by rewrite H. Qed.

(** C1: for every holding, [calculateHoldingMetrics] returns
    marketValue = shares * currentPrice, gainLoss = marketValue - shares *
    purchasePrice, and gainLossPercent = gainLoss / totalCost * 100 when
    totalCost > 0 and exactly 0 when totalCost = 0; a holding whose
    purchasePrice is 0 has gainLossPercent 0 whatever its currentPrice.
    Both front ends that have the function are covered; the table row of the
    demo shows the same three numbers whenever the cost basis is positive. *)
Theorem calculateHoldingMetrics_correct :
  (∀ h : ApiStore.Holding,
     let m := ApiStore.calculateHoldingMetrics h in
     holdingMetrics_spec (ApiStore.shares h) (ApiStore.purchasePrice h)
       (ApiStore.currentPrice h)
       (ApiStore.marketValue m) (ApiStore.gainLoss m) (ApiStore.gainLossPercent m))
  ∧ (∀ h : LocalStore.Holding,
     let m := LocalStore.calculateHoldingMetrics h in
     holdingMetrics_spec (LocalStore.shares h) (LocalStore.purchasePrice h)
       (LocalStore.currentPrice h)
       (LocalStore.marketValue m) (LocalStore.gainLoss m)
       (LocalStore.gainLossPercent m))
  ∧ (∀ h : Demo.Holding,
     (0 <? Demo.shares h * Demo.purchasePrice h)%float = true →
     let m := Demo.createTableRow h in
     holdingMetrics_spec (Demo.shares h) (Demo.purchasePrice h)
       (Demo.currentPrice h)
       (Demo.marketValue m) (Demo.gainLoss m) (Demo.gainLossPercent m)).
Proof.
  split; [|split].
  - intros h. apply holdingMetrics_spec_intro.
  - intros h. apply holdingMetrics_spec_intro.
  - intros h Hpos m. subst m. rewrite createTableRow_guarded by done.
    apply holdingMetrics_spec_intro.
Qed.

(** Ten shares received for nothing and quoted at 42.5 report 0 percent;
    the holding of the scenario of the specification is worth 8765 and has
    gained 1252.5. *)
Lemma calculateHoldingMetrics_correct_witness :
  (ApiStore.purchasePrice Sample.gift =? 0)%float = true
  ∧ ApiStore.gainLossPercent (ApiStore.calculateHoldingMetrics Sample.gift) = 0%float
  ∧ (0 <? Demo.shares Sample.aapl * Demo.purchasePrice Sample.aapl)%float = true
  ∧ Demo.marketValue (Demo.createTableRow Sample.aapl) = 8765%float
  ∧ Demo.gainLoss (Demo.createTableRow Sample.aapl) = 1252.5%float.
Proof.
  destruct calculateHoldingMetrics_correct as (Hapi & _ & Hdemo).
  destruct (Hapi Sample.gift) as (_ & _ & _ & _ & Hzero).
  destruct (Hdemo Sample.aapl eq_refl) as (Hmv & Hgl & _).
  split; [reflexivity|]. split; [exact (Hzero eq_refl)|].
  split; [reflexivity|]. split; [rewrite Hmv|rewrite Hgl, Hmv]; reflexivity.
Defined.

(* ------------------------------------------------------------------ *)
(** ** Objects and sets *)

Section ObjectFacts.
Context {A : Type} (key : A → string).

Lemma get_Some k o a : JS.get key k o = Some a → a ∈ o ∧ key a = k.
Proof.
  induction o as [|b o IH]; simpl; [done|].
  destruct (decide (key b = k)) as [Hk|Hk].
  - intros [= <-]. split; [left|done].
  - intros H. destruct (IH H). split; [by right|done].
Qed.

Lemma get_None k o : JS.get key k o = None ↔ k ∉ JS.keys key o.
Proof.
  unfold JS.keys. induction o as [|b o IH]; simpl.
  - split; [intros _; apply not_elem_of_nil|done].
  - rewrite not_elem_of_cons. destruct (decide (key b = k)) as [Hk|Hk].
    + split; [done|]. intros [Hne _]. by destruct Hne.
    + rewrite IH. naive_solver.
Qed.

Lemma get_delete k o : JS.get key k (JS.delete key k o) = None.
Proof.
  apply get_None. unfold JS.keys, JS.delete. intros Hin.
  apply (list_elem_of_fmap key) in Hin as (a & -> & Ha).
  apply list_elem_of_filter in Ha as [Hne _]. by apply Hne.
Qed.

Lemma get_delete_ne k k' o :
  k ≠ k' → JS.get key k' (JS.delete key k o) = JS.get key k' o.
Proof.
  intros Hne. unfold JS.delete. induction o as [|b o IH]; [done|].
  destruct (decide (key b = k)) as [Hk|Hk].
  - rewrite filter_cons_False by (intros H; by apply H).
    simpl. rewrite decide_False by congruence. done.
  - rewrite filter_cons_True by done. simpl. by rewrite IH.
Qed.

(** Deleting a list of keys one after the other. *)
Lemma get_delete_all ks k o :
  JS.get key k (fold_left (λ o id, JS.delete key id o) ks o) =
    if decide (k ∈ ks) then None else JS.get key k o.
Proof.
  revert o. induction ks as [|id ks IH]; intros o; simpl; [done|].
  rewrite IH. destruct (decide (k ∈ ks)) as [Hin|Hout].
  - rewrite decide_True by (by right). done.
  - destruct (decide (id = k)) as [->|Hne].
    + rewrite decide_True by (by left). apply get_delete.
    + rewrite decide_False by (rewrite elem_of_cons; naive_solver).
      by apply get_delete_ne.
Qed.

End ObjectFacts.

Section SetFacts.

Lemma Set_add_elem s x y : y ∈ JS.Set_add s x ↔ y ∈ s ∨ y = x.
Proof.
  unfold JS.Set_add. destruct (decide (x ∈ s)).
  - naive_solver.
  - rewrite elem_of_app, list_elem_of_singleton. done.
Qed.


Context {A : Type} (f : A → string).

(** Adding the [f] of every element of a list, as the loops of
    [fetchRealTimePrices] do. *)
Lemma fold_Set_add_elem l s y :
  y ∈ fold_left (λ s a, JS.Set_add s (f a)) l s ↔ y ∈ s ∨ ∃ a, a ∈ l ∧ f a = y.
Proof.
  revert s. induction l as [|a l IH]; intros s; simpl.
  - split; [by left|]. intros [H|(a & Ha & _)]; [done|].
    by apply elem_of_nil in Ha.
  - rewrite IH, Set_add_elem. split.
    + intros [[H| ->]|(b & Hb & Hfb)].
      * by left.
      * right. exists a. split; [left|done].
      * right. exists b. split; [by right|done].
    + intros [H|(b & Hb & Hfb)]; [by left; left|].
      apply elem_of_cons in Hb as [->|Hb].
      * left. by right.
      * right. by exists b.
Qed.


Lemma Set_from_map l :
  JS.Set_from (map f l) = fold_left (λ s a, JS.Set_add s (f a)) l [].
Proof.
  unfold JS.Set_from. generalize (@nil string).
  induction l as [|a l IH]; intros s; simpl; [done|]. apply IH.
Qed.

End SetFacts.

(* ------------------------------------------------------------------ *)
(** ** Portfolio totals *)

Section Totals.

Context {H : Type} (value cost : H → float).

(** A loop that accumulates two totals side by side computes the two sums. *)
Lemma fold_totals (hs : list H) (a b : float) :
  fold_left (λ acc h, ((acc.1 + value h)%float, (acc.2 + cost h)%float)) hs (a, b)
  = (fold_left (λ total x, (total + x)%float) (map value hs) a,
     fold_left (λ total x, (total + x)%float) (map cost hs) b).
Proof.
  revert a b. induction hs as [|h hs IH]; intros a b; simpl; [done|].
  by rewrite IH.
Qed.

End Totals.

Lemma api_fold_totals (hs : list ApiStore.Holding) ids a b :
  fold_left (ApiStore.addHoldingTotals hs) ids (a, b)
  = fold_left
      (λ acc h, ((acc.1 + ApiStore.shares h * ApiStore.currentPrice h)%float,
                 (acc.2 + ApiStore.shares h * ApiStore.purchasePrice h)%float))
      (omap (λ id, JS.get ApiStore.holding_id id hs) ids) (a, b).
Proof.
  revert a b. induction ids as [|id ids IH]; intros a b; simpl; [done|].
  unfold ApiStore.addHoldingTotals at 2.
  destruct (JS.get ApiStore.holding_id id hs) as [h|]; simpl; apply IH.
Qed.

(** C6: for every portfolio, [calculatePortfolioTotals] returns totalValue
    equal to the sum of shares * currentPrice over its holdings,
    totalGainLoss equal to totalValue minus the sum of shares *
    purchasePrice over its holdings, and totalGainLossPercent by the
    zero-guarded percentage rule with the summed cost as denominator.  The
    sums run in the order of the holdings; the three front ends agree. *)
Theorem calculatePortfolioTotals_correct :
  (∀ (st : ApiStore.State) (p : ApiStore.Portfolio),
     let t := ApiStore.calculatePortfolioTotals st p in
     portfolioTotals_spec
       (map (λ h, ApiStore.marketValue (ApiStore.calculateHoldingMetrics h))
            (holdingsOf st p))
       (map (λ h, (ApiStore.shares h * ApiStore.purchasePrice h)%float)
            (holdingsOf st p))
       (ApiStore.totalValue t) (ApiStore.totalGainLoss t)
       (ApiStore.totalGainLossPercent t))
  ∧ (∀ p : LocalStore.Portfolio,
     let t := LocalStore.calculatePortfolioTotals p in
     portfolioTotals_spec
       (map (λ h, LocalStore.marketValue (LocalStore.calculateHoldingMetrics h))
            (LocalStore.holdings p))
       (map (λ h, (LocalStore.shares h * LocalStore.purchasePrice h)%float)
            (LocalStore.holdings p))
       (LocalStore.totalValue t) (LocalStore.totalGainLoss t)
       (LocalStore.totalGainLossPercent t))
  ∧ (∀ p : Demo.Portfolio,
     let t := Demo.calculatePortfolioTotals p in
     portfolioTotals_spec
       (map (λ h, Demo.marketValue (Demo.createTableRow h)) (Demo.holdings p))
       (map (λ h, (Demo.shares h * Demo.purchasePrice h)%float) (Demo.holdings p))
       (Demo.totalValue t) (Demo.totalGainLoss t) (Demo.totalGainLossPercent t)).
Proof.
  split; [|split].
  - intros st p. unfold ApiStore.calculatePortfolioTotals.
    rewrite api_fold_totals.
    rewrite (fold_totals
               (λ h, (ApiStore.shares h * ApiStore.currentPrice h)%float)
               (λ h, (ApiStore.shares h * ApiStore.purchasePrice h)%float)).
    by repeat split.
  - intros p. unfold LocalStore.calculatePortfolioTotals.
    unfold LocalStore.addHoldingTotals.
    rewrite (fold_totals
               (λ h, (LocalStore.shares h * LocalStore.currentPrice h)%float)
               (λ h, (LocalStore.shares h * LocalStore.purchasePrice h)%float)).
    by repeat split.
  - intros p. unfold Demo.calculatePortfolioTotals.
    unfold Demo.addHoldingTotals.
    rewrite (fold_totals
               (λ h, (Demo.shares h * Demo.currentPrice h)%float)
               (λ h, (Demo.shares h * Demo.purchasePrice h)%float)).
    by repeat split.
Qed.

(* ------------------------------------------------------------------ *)
(** ** The symbols of a quote request *)


Lemma api_allSymbols_elem st s :
  s ∈ ApiStore.allSymbols st ↔
  ∃ h, h ∈ ApiStore.holdings st ∧ ApiStore.symbol h = s.
Proof.
  unfold ApiStore.allSymbols. rewrite Set_from_map, fold_Set_add_elem.
  split; [|by right]. intros [H|H]; [|done]. by apply elem_of_nil in H.
Qed.

Lemma local_allSymbols_fold ps s0 y :
  y ∈ fold_left
        (λ allSymbols p,
           fold_left (λ allSymbols h, JS.Set_add allSymbols (LocalStore.symbol h))
                     (LocalStore.holdings p) allSymbols) ps s0
  ↔ y ∈ s0 ∨ ∃ p h, p ∈ ps ∧ h ∈ LocalStore.holdings p ∧ LocalStore.symbol h = y.
Proof.
  revert s0. induction ps as [|p ps IH]; intros s0; simpl.
  - split; [by left|]. intros [H|(p & h & Hp & _)]; [done|].
    by apply elem_of_nil in Hp.
  - rewrite IH, fold_Set_add_elem. split.
    + intros [[H|(h & Hh & Hs)]|(q & h & Hq & Hh & Hs)].
      * by left.
      * right. exists p, h. split; [left|done].
      * right. exists q, h. split; [by right|done].
    + intros [H|(q & h & Hq & Hh & Hs)]; [by left; left|].
      apply elem_of_cons in Hq as [->|Hq].
      * left. right. by exists h.
      * right. by exists q, h.
Qed.


Lemma local_allSymbols_elem st s :
  s ∈ LocalStore.allSymbols st ↔
  ∃ p h, p ∈ LocalStore.portfolios st ∧ h ∈ LocalStore.holdings p
         ∧ LocalStore.symbol h = s.
Proof.
  unfold LocalStore.allSymbols. rewrite local_allSymbols_fold.
  split; [|by right]. intros [H|H]; [|done]. by apply elem_of_nil in H.
Qed.

Lemma length_zero_no_elem (l : list string) :
  length l = 0 ↔ ∀ y, y ∉ l.
Proof.
  split.
  - intros ->%length_zero_iff_nil y. apply not_elem_of_nil.
  - intros H. by rewrite (elem_of_nil_inv l H).
Qed.

Lemma api_request_some st :
  (∃ h, h ∈ ApiStore.holdings st) →
  ApiStore.fetchRealTimePrices_request st =
    Some ("/api/quotes?symbols=" +:+ JS.join (ApiStore.allSymbols st)).
Proof.
  intros [h Hh]. unfold ApiStore.fetchRealTimePrices_request.
  destruct (decide _) as [Hlen|]; [|done].
  apply length_zero_no_elem with (y := ApiStore.symbol h) in Hlen.
  destruct Hlen. apply api_allSymbols_elem. by exists h.
Qed.


Lemma local_request_some st :
  (∃ p h, p ∈ LocalStore.portfolios st ∧ h ∈ LocalStore.holdings p) →
  LocalStore.fetchRealTimePrices_request st =
    Some ("/api/quotes?symbols=" +:+ JS.join (LocalStore.allSymbols st)).
Proof.
  intros (p & h & Hp & Hh). unfold LocalStore.fetchRealTimePrices_request.
  destruct (decide _) as [Hlen|]; [|done].
  apply length_zero_no_elem with (y := LocalStore.symbol h) in Hlen.
  destruct Hlen. apply local_allSymbols_elem. by exists p, h.
Qed.


(** *** From the query back to the symbols *)














(* ------------------------------------------------------------------ *)
(** ** Reconciliation of a price table *)

Lemma api_updatePrice_reconciled prices (h : ApiStore.Holding) :
  api_reconciled prices h (ApiStore.updatePrice prices h).
Proof.
  unfold api_reconciled, reconciled, ApiStore.updatePrice.
  by destruct (prices !! ApiStore.symbol h) as [price|].
Qed.

Lemma local_updatePrice_reconciled prices (h : LocalStore.Holding) :
  local_reconciled prices h (LocalStore.updatePrice prices h).
Proof.
  unfold local_reconciled, reconciled, LocalStore.updatePrice.
  by destruct (prices !! LocalStore.symbol h) as [price|].
Qed.

Lemma Forall2_map_r {A} (P : A → A → Prop) (f : A → A) (l : list A) :
  (∀ x, P x (f x)) → Forall2 P l (map f l).
Proof. intros HP. induction l; simpl; by constructor. Qed.

Lemma api_resume_reconciled st prices :
  api_store_reconciled prices st
    (ApiStore.fetchRealTimePrices_resume st (Prices prices)).1.
Proof.
  repeat split. simpl.
  apply Forall2_map_r, api_updatePrice_reconciled.
Qed.

Lemma local_resume_reconciled st prices :
  local_store_reconciled prices st
    (LocalStore.fetchRealTimePrices_resume st (Prices prices)).1.
Proof.
  split; [done|]. simpl. apply Forall2_map_r. intros p.
  split; [done|]. split; [done|]. simpl.
  apply Forall2_map_r, local_updatePrice_reconciled.
Qed.

(** A pass that does not fetch found no holding. *)
Lemma api_request_None_inv st :
  ApiStore.fetchRealTimePrices_request st = None → ApiStore.holdings st = [].
Proof.
  intros Hreq. destruct (ApiStore.holdings st) as [|h hs] eqn:E; [done|].
  rewrite api_request_some in Hreq; [done|].
  exists h. rewrite E. left.
Qed.

Lemma local_request_None_inv st p :
  LocalStore.fetchRealTimePrices_request st = None →
  p ∈ LocalStore.portfolios st → LocalStore.holdings p = [].
Proof.
  intros Hreq Hp. destruct (LocalStore.holdings p) as [|h hs] eqn:E; [done|].
  rewrite local_request_some in Hreq; [done|].
  exists p, h. split; [done|]. rewrite E. left.
Qed.

(** C4: in a reconciliation pass whose quote request is answered by a price
    table, every holding whose symbol is a key of the table gets the mapped
    value as its currentPrice, every holding whose symbol is absent keeps
    its currentPrice, and symbol, shares, purchasePrice and purchaseDate of
    every holding, its place and its portfolio stay as they were; an
    absent symbol puts nothing on the error console.  This holds for the
    pass run on its own and for the answer arriving in the event loop. *)
Theorem fetchRealTimePrices_reconcile :
  (∀ (st : ApiStore.State) (prices : gmap string float) respond,
     (∀ url, respond url = Prices prices) →
     api_store_reconciled prices st (ApiStore.fetchRealTimePrices st respond).1
     ∧ ∀ message,
         ConsoleError message ∉ (ApiStore.fetchRealTimePrices st respond).2)
  ∧ (∀ (r : ApiLoop.Runtime) (prices : gmap string float) i url,
     Scheduler.pending r !! i = Some url →
     api_store_reconciled prices (Scheduler.app r)
       (Scheduler.app (ApiLoop.step r (Scheduler.Answer i (Prices prices)))))
  ∧ (∀ (st : LocalStore.State) (prices : gmap string float) respond,
     (∀ url, respond url = Prices prices) →
     local_store_reconciled prices st
       (LocalStore.fetchRealTimePrices st respond).1
     ∧ ∀ message,
         ConsoleError message ∉ (LocalStore.fetchRealTimePrices st respond).2)
  ∧ (∀ (r : LocalLoop.Runtime) (prices : gmap string float) i url,
     Scheduler.pending r !! i = Some url →
     local_store_reconciled prices (Scheduler.app r)
       (Scheduler.app (LocalLoop.step r (Scheduler.Answer i (Prices prices))))).
Proof.
  split; [|split; [|split]].
  - intros st prices respond Hres. unfold ApiStore.fetchRealTimePrices.
    destruct (ApiStore.fetchRealTimePrices_request st) as [url|] eqn:Hreq.
    + rewrite Hres. split; [apply api_resume_reconciled|].
      intros message. simpl. rewrite list_elem_of_singleton. done.
    + apply api_request_None_inv in Hreq. split.
      * repeat split. simpl. rewrite Hreq. constructor.
      * intros message. apply not_elem_of_nil.
  - intros r prices i url Hp. unfold ApiLoop.step. simpl. rewrite Hp.
    apply api_resume_reconciled.
  - intros st prices respond Hres. unfold LocalStore.fetchRealTimePrices.
    destruct (LocalStore.fetchRealTimePrices_request st) as [url|] eqn:Hreq.
    + rewrite Hres. split; [apply local_resume_reconciled|].
      intros message. simpl. rewrite !elem_of_cons, elem_of_nil. naive_solver.
    + split.
      * split; [done|]. simpl. apply Forall_Forall2_diag, Forall_forall.
        intros p Hp. split; [done|]. split; [done|].
        rewrite (local_request_None_inv st p Hreq Hp). constructor.
      * intros message. apply not_elem_of_nil.
  - intros r prices i url Hp. unfold LocalLoop.step. simpl. rewrite Hp.
    apply local_resume_reconciled.
Qed.

(** The sample table quotes AAPL at 180.5 and omits MSFT: both AAPL holdings
    of the sample store move to 180.5, the MSFT holding stays at 295.5. *)
Lemma fetchRealTimePrices_reconcile_witness :
  api_store_reconciled Sample.quotes Sample.api
    (ApiStore.fetchRealTimePrices Sample.api (λ _, Prices Sample.quotes)).1
  ∧ ApiStore.currentPrice <$>
      ApiStore.holdings
        (ApiStore.fetchRealTimePrices Sample.api (λ _, Prices Sample.quotes)).1
    = [180.5%float; 295.5%float; 180.5%float].
Proof.
  destruct fetchRealTimePrices_reconcile as [Hapi _].
  split; [|reflexivity].
  apply (Hapi Sample.api Sample.quotes (λ _, Prices Sample.quotes)).
  intros url. reflexivity.
Defined.

(* ------------------------------------------------------------------ *)
(** ** A quote request that fails *)

Lemma api_resume_failed st out :
  failed out = true →
  ApiStore.fetchRealTimePrices_resume st out
    = (st, [ConsoleError "Failed to fetch real-time prices:"]).
Proof. by destruct out. Qed.

Lemma local_resume_failed st out :
  failed out = true →
  LocalStore.fetchRealTimePrices_resume st out
    = (st, [ConsoleError "Failed to fetch real-time prices:"]).
Proof. by destruct out. Qed.

(* ------------------------------------------------------------------ *)
(** ** The event loop of either front end *)

Section SchedulerFacts.

Context {State : Type}.
Variable request : State → option string.
Variable resume : State → FetchOutcome → State * list Effect.
Variable priceUpdateInterval : State → option nat.
Variable set_priceUpdateInterval : option nat → State → State.

Hypothesis request_set :
  ∀ h st, request (set_priceUpdateInterval h st) = request st.
Hypothesis resume_failed :
  ∀ st out, failed out = true →
    resume st out = (st, [ConsoleError "Failed to fetch real-time prices:"]).

Lemma callFetch_pending r url :
  request (Scheduler.app r) = Some url →
  Scheduler.pending (Scheduler.callFetch request r) = Scheduler.pending r ++ [url].
Proof. intros H. unfold Scheduler.callFetch. by rewrite H. Qed.

Lemma callFetch_frame r :
  Scheduler.app (Scheduler.callFetch request r) = Scheduler.app r
  ∧ Scheduler.timers (Scheduler.callFetch request r) = Scheduler.timers r
  ∧ Scheduler.nextHandle (Scheduler.callFetch request r) = Scheduler.nextHandle r
  ∧ Scheduler.console (Scheduler.callFetch request r) = Scheduler.console r.
Proof. unfold Scheduler.callFetch. by destruct (request (Scheduler.app r)). Qed.

Lemma tick_pending r h url :
  h ∈ Scheduler.timers r → request (Scheduler.app r) = Some url →
  Scheduler.pending (Scheduler.step request resume r (Scheduler.Tick h))
    = Scheduler.pending r ++ [url].
Proof.
  intros Hh Hreq. simpl. rewrite decide_True by done.
  by apply callFetch_pending.
Qed.

Lemma tick_frame r h :
  Scheduler.app (Scheduler.step request resume r (Scheduler.Tick h))
    = Scheduler.app r
  ∧ Scheduler.timers (Scheduler.step request resume r (Scheduler.Tick h))
    = Scheduler.timers r.
Proof.
  simpl. destruct (decide (h ∈ Scheduler.timers r)); [|done].
  pose proof (callFetch_frame r) as (? & ? & _). done.
Qed.

(** [n] firings of the interval with no answer in between leave [n] more
    requests in flight. *)
Lemma ticks_pending r h url n :
  h ∈ Scheduler.timers r → request (Scheduler.app r) = Some url →
  Scheduler.pending
    (Scheduler.run request resume r (replicate n (Scheduler.Tick h)))
    = Scheduler.pending r ++ replicate n url.
Proof.
  revert r. induction n as [|n IH]; intros r Hh Hreq.
  - simpl. by rewrite app_nil_r.
  - destruct (tick_frame r h) as [Happ Htim].
    change (Scheduler.run request resume r (replicate (S n) (Scheduler.Tick h)))
      with (Scheduler.run request resume
              (Scheduler.step request resume r (Scheduler.Tick h))
              (replicate n (Scheduler.Tick h))).
    rewrite IH.
    + rewrite (tick_pending r h url) by done. by rewrite <- app_assoc.
    + by rewrite Htim.
    + by rewrite Happ.
Qed.

(** [startPriceUpdates] fetches once and leaves its new interval armed. *)
Lemma startPriceUpdates_spec r url :
  request (Scheduler.app r) = Some url →
  let r' := Scheduler.startPriceUpdates request priceUpdateInterval
              set_priceUpdateInterval r in
  Scheduler.pending r' = Scheduler.pending r ++ [url]
  ∧ Scheduler.nextHandle r ∈ Scheduler.timers r'
  ∧ request (Scheduler.app r') = Some url.
Proof.
  intros Hreq. unfold Scheduler.startPriceUpdates.
  destruct (callFetch_frame r) as (Happ & Htim & Hnext & _).
  simpl. rewrite Hnext, request_set, Happ.
  split; [by apply callFetch_pending|]. split; [|done].
  apply elem_of_app. right. by left.
Qed.

(** An answer that is a failure changes nothing but the console and the
    list of pending requests, and the interval goes on firing. *)
Lemma answer_failed r i out url :
  failed out = true → Scheduler.pending r !! i = Some url →
  let r' := Scheduler.step request resume r (Scheduler.Answer i out) in
  Scheduler.app r' = Scheduler.app r
  ∧ Scheduler.timers r' = Scheduler.timers r
  ∧ Scheduler.pending r' = delete i (Scheduler.pending r)
  ∧ Scheduler.console r'
    = Scheduler.console r ++ [ConsoleError "Failed to fetch real-time prices:"]
  ∧ ∀ h url', h ∈ Scheduler.timers r → request (Scheduler.app r) = Some url' →
      Scheduler.pending (Scheduler.step request resume r' (Scheduler.Tick h))
        = Scheduler.pending r' ++ [url'].
Proof.
  intros Hf Hp. simpl. rewrite Hp, (resume_failed _ _ Hf). simpl.
  repeat split. intros h url' Hh Hreq.
  rewrite decide_True by done. by apply callFetch_pending.
Qed.

End SchedulerFacts.

(** C5: when the quote request fails (the fetch rejects, the response is
    not ok, or its body does not parse) the whole state, and so the
    currentPrice of every holding, is left as it was; the failure is written
    to the console; and the interval stays armed, so that its next firing
    sends a request again. *)
Theorem fetchRealTimePrices_failure :
  (∀ (r : ApiLoop.Runtime) i out url,
     failed out = true → Scheduler.pending r !! i = Some url →
     let r' := ApiLoop.step r (Scheduler.Answer i out) in
     Scheduler.app r' = Scheduler.app r
     ∧ Scheduler.timers r' = Scheduler.timers r
     ∧ Scheduler.pending r' = delete i (Scheduler.pending r)
     ∧ Scheduler.console r'
       = Scheduler.console r ++ [ConsoleError "Failed to fetch real-time prices:"]
     ∧ ∀ h url', h ∈ Scheduler.timers r →
         ApiStore.fetchRealTimePrices_request (Scheduler.app r) = Some url' →
         Scheduler.pending (ApiLoop.step r' (Scheduler.Tick h))
           = Scheduler.pending r' ++ [url'])
  ∧ (∀ (r : LocalLoop.Runtime) i out url,
     failed out = true → Scheduler.pending r !! i = Some url →
     let r' := LocalLoop.step r (Scheduler.Answer i out) in
     Scheduler.app r' = Scheduler.app r
     ∧ Scheduler.timers r' = Scheduler.timers r
     ∧ Scheduler.pending r' = delete i (Scheduler.pending r)
     ∧ Scheduler.console r'
       = Scheduler.console r ++ [ConsoleError "Failed to fetch real-time prices:"]
     ∧ ∀ h url', h ∈ Scheduler.timers r →
         LocalStore.fetchRealTimePrices_request (Scheduler.app r) = Some url' →
         Scheduler.pending (LocalLoop.step r' (Scheduler.Tick h))
           = Scheduler.pending r' ++ [url'])
  ∧ (∀ (st : ApiStore.State) respond url,
     ApiStore.fetchRealTimePrices_request st = Some url →
     failed (respond url) = true →
     ApiStore.fetchRealTimePrices st respond
       = (st, [ConsoleError "Failed to fetch real-time prices:"]))
  ∧ (∀ (st : LocalStore.State) respond url,
     LocalStore.fetchRealTimePrices_request st = Some url →
     failed (respond url) = true →
     LocalStore.fetchRealTimePrices st respond
       = (st, [ConsoleError "Failed to fetch real-time prices:"])).
Proof.
  split; [|split; [|split]].
  - intros r i out url Hf Hp.
    apply (answer_failed _ _ api_resume_failed r i out url Hf Hp).
  - intros r i out url Hf Hp.
    apply (answer_failed _ _ local_resume_failed r i out url Hf Hp).
  - intros st respond url Hreq Hf. unfold ApiStore.fetchRealTimePrices.
    rewrite Hreq. by apply api_resume_failed.
  - intros st respond url Hreq Hf. unfold LocalStore.fetchRealTimePrices.
    rewrite Hreq. by apply local_resume_failed.
Qed.

(** The interval of the sample store fires, the request meets a network
    error: the store is the one before, the error is on the console, and the
    interval is still armed. *)
Lemma fetchRealTimePrices_failure_witness :
  Scheduler.app
    (ApiLoop.run Sample.api_runtime
       [Scheduler.Tick 1; Scheduler.Answer 0 NetworkError]) = Sample.api
  ∧ Scheduler.timers
      (ApiLoop.run Sample.api_runtime
         [Scheduler.Tick 1; Scheduler.Answer 0 NetworkError]) = [1]
  ∧ Scheduler.console
      (ApiLoop.run Sample.api_runtime
         [Scheduler.Tick 1; Scheduler.Answer 0 NetworkError])
    = [ConsoleError "Failed to fetch real-time prices:"].
Proof.
  destruct fetchRealTimePrices_failure as (Hapi & _).
  destruct (Hapi (ApiLoop.step Sample.api_runtime (Scheduler.Tick 1)) 0
              NetworkError "/api/quotes?symbols=AAPL,MSFT" eq_refl eq_refl)
    as (Happ & Htim & _ & Hcon & _).
  split; [exact Happ|]. split; [exact Htim|exact Hcon].
Defined.

(* ------------------------------------------------------------------ *)
(** ** Firings of the interval while a request is in flight *)

Lemma api_request_set h st :
  ApiStore.fetchRealTimePrices_request (ApiLoop.set_priceUpdateInterval h st)
    = ApiStore.fetchRealTimePrices_request st.
Proof. reflexivity. Qed.

Lemma local_request_set h st :
  LocalStore.fetchRealTimePrices_request (LocalLoop.set_priceUpdateInterval h st)
    = LocalStore.fetchRealTimePrices_request st.
Proof. reflexivity. Qed.

(** The claim of C9 fails on the source: [startPriceUpdates] on the sample
    store sends a request at once, and the first firing of the interval it
    arms sends a second one while the first is unanswered. *)
Lemma tick_not_reentrant_counterexample :
  ¬ (∀ events : list Scheduler.Event,
       atMostOneInFlight
         (ApiLoop.run (ApiLoop.startPriceUpdates Sample.api_runtime) events))
  ∧ Scheduler.pending
      (ApiLoop.run (ApiLoop.startPriceUpdates Sample.api_runtime)
         [Scheduler.Tick 2])
    = ["/api/quotes?symbols=AAPL,MSFT"; "/api/quotes?symbols=AAPL,MSFT"]
  ∧ Scheduler.pending
      (LocalLoop.run (LocalLoop.startPriceUpdates Sample.local_runtime)
         [Scheduler.Tick 2])
    = ["/api/quotes?symbols=AAPL,MSFT"; "/api/quotes?symbols=AAPL,MSFT"].
Proof.
  split; [|split; reflexivity].
  intros H. specialize (H [Scheduler.Tick 2]).
  unfold atMostOneInFlight in H. vm_compute in H. lia.
Qed.

(** C9, as the source has it: the interval has no guard.  Whenever some
    holding exists, [startPriceUpdates] sends one request and every firing
    of the interval it arms sends one more, whether or not earlier requests
    are unanswered: after [n] firings with no answer in between, [n + 1]
    requests more than before are in flight. *)
Theorem tick_sends_regardless :
  (∀ (r : ApiLoop.Runtime) (n : nat),
     (∃ h, h ∈ ApiStore.holdings (Scheduler.app r)) →
     length (Scheduler.pending
               (ApiLoop.run (ApiLoop.startPriceUpdates r)
                  (replicate n (Scheduler.Tick (Scheduler.nextHandle r)))))
       = length (Scheduler.pending r) + 1 + n)
  ∧ (∀ (r : LocalLoop.Runtime) (n : nat),
     (∃ p h, p ∈ LocalStore.portfolios (Scheduler.app r)
             ∧ h ∈ LocalStore.holdings p) →
     length (Scheduler.pending
               (LocalLoop.run (LocalLoop.startPriceUpdates r)
                  (replicate n (Scheduler.Tick (Scheduler.nextHandle r)))))
       = length (Scheduler.pending r) + 1 + n).
Proof.
  split.
  - intros r n Hh. pose proof (api_request_some _ Hh) as Hreq.
    destruct (startPriceUpdates_spec _ ApiStore.priceUpdateInterval _
                api_request_set r _ Hreq) as (Hp & Ht & Hr).
    unfold ApiLoop.run, ApiLoop.startPriceUpdates.
    rewrite (ticks_pending _ _ _ _ _ n Ht Hr), Hp.
    rewrite !length_app, length_replicate. simpl. lia.
  - intros r n Hh. pose proof (local_request_some _ Hh) as Hreq.
    destruct (startPriceUpdates_spec _ LocalStore.priceUpdateInterval _
                local_request_set r _ Hreq) as (Hp & Ht & Hr).
    unfold LocalLoop.run, LocalLoop.startPriceUpdates.
    rewrite (ticks_pending _ _ _ _ _ n Ht Hr), Hp.
    rewrite !length_app, length_replicate. simpl. lia.
Qed.

(** Three firings after the start of the sample store: four requests. *)
Lemma tick_sends_regardless_witness :
  length (Scheduler.pending
            (ApiLoop.run (ApiLoop.startPriceUpdates Sample.api_runtime)
               (replicate 3 (Scheduler.Tick 2)))) = 4.
Proof.
  destruct tick_sends_regardless as [Hapi _].
  apply (Hapi Sample.api_runtime 3).
  exists (ApiStore.mkHolding "h1" "AAPL" 50 150.25 "2024-01-15" 175.30). left.
Defined.

(* ------------------------------------------------------------------ *)
(** ** Deleting a portfolio *)

Section DeleteFacts.
Context {A : Type} (key : A → string).

Lemma delete_absent k o : k ∉ JS.keys key o → JS.delete key k o = o.
Proof.
  unfold JS.keys, JS.delete. induction o as [|b o IH]; [done|].
  simpl. rewrite not_elem_of_cons. intros [Hne Hout].
  rewrite filter_cons_True by done. by rewrite IH.
Qed.

(** The keys of an object are distinct, so deleting a key that is present
    removes one property. *)
Lemma delete_length a o :
  NoDup (JS.keys key o) → a ∈ o →
  S (length (JS.delete key (key a) o)) = length o.
Proof.
  unfold JS.keys. induction o as [|b o IH]; intros Hnd Ha.
  - by apply elem_of_nil in Ha.
  - simpl in Hnd. apply NoDup_cons in Hnd as [Hb Hnd].
    destruct (decide (key b = key a)) as [Hk|Hk].
    + unfold JS.delete. rewrite filter_cons_False by (intros H; by apply H).
      fold (JS.delete key (key a) o). rewrite delete_absent; [done|].
      by rewrite <- Hk.
    + unfold JS.delete. rewrite filter_cons_True by done.
      fold (JS.delete key (key a) o). simpl. f_equal. apply IH; [done|].
      apply elem_of_cons in Ha as [->|Ha]; [done|done].
Qed.

End DeleteFacts.

Lemma api_deletePortfolio_last st confirm deleted :
  length (ApiStore.portfolios st) ≤ 1 →
  (ApiStore.deletePortfolio st confirm deleted).1 = st
  ∧ ∀ p, ApiStore.getCurrentPortfolio st = Some p →
      ApiStore.deletePortfolio st confirm deleted
        = (st, [ShowConfirmation "Cannot Delete" true]).
Proof.
  intros Hlen. unfold ApiStore.deletePortfolio, JS.keys. rewrite length_map.
  destruct (ApiStore.getCurrentPortfolio st) as [p|]; [|by split].
  rewrite decide_True by done. by split.
Qed.

Lemma local_deletePortfolio_last st confirm :
  length (LocalStore.portfolios st) ≤ 1 →
  (LocalStore.deletePortfolio st confirm).1 = st
  ∧ ∀ p, LocalStore.getCurrentPortfolio st = Some p →
      LocalStore.deletePortfolio st confirm
        = (st, [ShowConfirmation "Cannot Delete" true]).
Proof.
  intros Hlen. unfold LocalStore.deletePortfolio, JS.keys. rewrite length_map.
  destruct (LocalStore.getCurrentPortfolio st) as [p|]; [|by split].
  rewrite decide_True by done. by split.
Qed.

Lemma api_deletePortfolio_other st p :
  ApiStore.getCurrentPortfolio st = Some p →
  2 ≤ length (ApiStore.portfolios st) →
  NoDup (JS.keys ApiStore.portfolio_id (ApiStore.portfolios st)) →
  let st' := (ApiStore.deletePortfolio st true true).1 in
  ApiStore.portfolios st'
    = filter (λ q, ApiStore.portfolio_id q ≠ ApiStore.portfolio_id p)
             (ApiStore.portfolios st)
  ∧ S (length (ApiStore.portfolios st')) = length (ApiStore.portfolios st)
  ∧ JS.get ApiStore.portfolio_id (ApiStore.portfolio_id p)
           (ApiStore.portfolios st') = None
  ∧ (∀ id, id ∈ ApiStore.holdingIds p →
           JS.get ApiStore.holding_id id (ApiStore.holdings st') = None)
  ∧ (∀ id, id ∉ ApiStore.holdingIds p →
           JS.get ApiStore.holding_id id (ApiStore.holdings st')
           = JS.get ApiStore.holding_id id (ApiStore.holdings st))
  ∧ ∃ q, head (ApiStore.portfolios st') = Some q
         ∧ ApiStore.currentPortfolioId st' = Some (ApiStore.portfolio_id q)
         ∧ ApiStore.getCurrentPortfolio st' = Some q.
Proof.
  intros Hcur Hlen Hnd. unfold ApiStore.deletePortfolio. rewrite Hcur.
  cbv beta iota. unfold JS.keys. rewrite length_map.
  rewrite decide_False by lia. simpl.
  assert (p ∈ ApiStore.portfolios st) as Hp.
  { unfold ApiStore.getCurrentPortfolio in Hcur.
    destruct (ApiStore.currentPortfolioId st); [|done].
    by apply get_Some in Hcur as [? _]. }
  pose proof (delete_length ApiStore.portfolio_id p _ Hnd Hp) as Hdel.
  split; [done|]. split; [done|]. split; [apply get_delete|].
  split; [|split].
  - intros id Hid. rewrite get_delete_all. by rewrite decide_True.
  - intros id Hid. rewrite get_delete_all. by rewrite decide_False.
  - destruct (JS.delete ApiStore.portfolio_id (ApiStore.portfolio_id p)
                (ApiStore.portfolios st)) as [|q rest] eqn:E.
    + simpl in Hdel. lia.
    + exists q. split; [done|]. split; [done|].
      unfold ApiStore.getCurrentPortfolio. simpl. by rewrite decide_True.
Qed.

Lemma local_deletePortfolio_other st p :
  LocalStore.getCurrentPortfolio st = Some p →
  2 ≤ length (LocalStore.portfolios st) →
  NoDup (JS.keys LocalStore.portfolio_id (LocalStore.portfolios st)) →
  let st' := (LocalStore.deletePortfolio st true).1 in
  LocalStore.portfolios st'
    = filter (λ q, LocalStore.portfolio_id q ≠ LocalStore.portfolio_id p)
             (LocalStore.portfolios st)
  ∧ S (length (LocalStore.portfolios st')) = length (LocalStore.portfolios st)
  ∧ JS.get LocalStore.portfolio_id (LocalStore.portfolio_id p)
           (LocalStore.portfolios st') = None
  ∧ (p ∉ LocalStore.portfolios st')
  ∧ ∃ q, head (LocalStore.portfolios st') = Some q
         ∧ LocalStore.currentPortfolioId st' = Some (LocalStore.portfolio_id q)
         ∧ LocalStore.getCurrentPortfolio st' = Some q.
Proof.
  intros Hcur Hlen Hnd. unfold LocalStore.deletePortfolio. rewrite Hcur.
  cbv beta iota. unfold JS.keys. rewrite length_map.
  rewrite decide_False by lia. simpl.
  unfold LocalStore.getCurrentPortfolio in Hcur.
  destruct (LocalStore.currentPortfolioId st) as [cur|]; [|done].
  apply get_Some in Hcur as [Hp <-].
  pose proof (delete_length LocalStore.portfolio_id p _ Hnd Hp) as Hdel.
  split; [done|]. split; [done|]. split; [apply get_delete|].
  split.
  - unfold JS.delete. rewrite list_elem_of_filter. by intros [Hne _].
  - destruct (JS.delete LocalStore.portfolio_id (LocalStore.portfolio_id p)
                (LocalStore.portfolios st)) as [|q rest] eqn:E.
    + simpl in Hdel. lia.
    + exists q. split; [done|]. split; [done|].
      unfold LocalStore.getCurrentPortfolio. simpl. by rewrite decide_True.
Qed.

(** C8: deleting the only portfolio fails with the "Cannot Delete" alert and
    changes no state.  With two portfolios or more, once the user confirms
    (and, in [ApiStore], the server has deleted it), the current portfolio is
    gone together with its holdings, every other portfolio and holding is
    kept, and the first remaining portfolio in creation order becomes the
    current one. *)
Theorem deletePortfolio_correct :
  (∀ (st : ApiStore.State) confirm deleted,
     length (ApiStore.portfolios st) ≤ 1 →
     (ApiStore.deletePortfolio st confirm deleted).1 = st
     ∧ ∀ p, ApiStore.getCurrentPortfolio st = Some p →
         ApiStore.deletePortfolio st confirm deleted
           = (st, [ShowConfirmation "Cannot Delete" true]))
  ∧ (∀ (st : ApiStore.State) p,
     ApiStore.getCurrentPortfolio st = Some p →
     2 ≤ length (ApiStore.portfolios st) →
     NoDup (JS.keys ApiStore.portfolio_id (ApiStore.portfolios st)) →
     let st' := (ApiStore.deletePortfolio st true true).1 in
     ApiStore.portfolios st'
       = filter (λ q, ApiStore.portfolio_id q ≠ ApiStore.portfolio_id p)
                (ApiStore.portfolios st)
     ∧ S (length (ApiStore.portfolios st')) = length (ApiStore.portfolios st)
     ∧ JS.get ApiStore.portfolio_id (ApiStore.portfolio_id p)
              (ApiStore.portfolios st') = None
     ∧ (∀ id, id ∈ ApiStore.holdingIds p →
              JS.get ApiStore.holding_id id (ApiStore.holdings st') = None)
     ∧ (∀ id, id ∉ ApiStore.holdingIds p →
              JS.get ApiStore.holding_id id (ApiStore.holdings st')
              = JS.get ApiStore.holding_id id (ApiStore.holdings st))
     ∧ ∃ q, head (ApiStore.portfolios st') = Some q
            ∧ ApiStore.currentPortfolioId st' = Some (ApiStore.portfolio_id q)
            ∧ ApiStore.getCurrentPortfolio st' = Some q)
  ∧ (∀ (st : LocalStore.State) confirm,
     length (LocalStore.portfolios st) ≤ 1 →
     (LocalStore.deletePortfolio st confirm).1 = st
     ∧ ∀ p, LocalStore.getCurrentPortfolio st = Some p →
         LocalStore.deletePortfolio st confirm
           = (st, [ShowConfirmation "Cannot Delete" true]))
  ∧ (∀ (st : LocalStore.State) p,
     LocalStore.getCurrentPortfolio st = Some p →
     2 ≤ length (LocalStore.portfolios st) →
     NoDup (JS.keys LocalStore.portfolio_id (LocalStore.portfolios st)) →
     let st' := (LocalStore.deletePortfolio st true).1 in
     LocalStore.portfolios st'
       = filter (λ q, LocalStore.portfolio_id q ≠ LocalStore.portfolio_id p)
                (LocalStore.portfolios st)
     ∧ S (length (LocalStore.portfolios st')) = length (LocalStore.portfolios st)
     ∧ JS.get LocalStore.portfolio_id (LocalStore.portfolio_id p)
              (LocalStore.portfolios st') = None
     ∧ (p ∉ LocalStore.portfolios st')
     ∧ ∃ q, head (LocalStore.portfolios st') = Some q
            ∧ LocalStore.currentPortfolioId st' = Some (LocalStore.portfolio_id q)
            ∧ LocalStore.getCurrentPortfolio st' = Some q).
Proof.
  split; [|split; [|split]].
  - apply api_deletePortfolio_last.
  - apply api_deletePortfolio_other.
  - apply local_deletePortfolio_last.
  - apply local_deletePortfolio_other.
Qed.

(** The store with one portfolio refuses; the sample store with two deletes
    "p1" with its holdings "h1" and "h2", keeps "h3" and selects "p2". *)
Lemma deletePortfolio_correct_witness :
  ApiStore.deletePortfolio Sample.api_empty true true
    = (Sample.api_empty, [ShowConfirmation "Cannot Delete" true])
  ∧ ApiStore.currentPortfolioId (ApiStore.deletePortfolio Sample.api true true).1
    = Some "p2"
  ∧ JS.get ApiStore.holding_id "h1"
      (ApiStore.holdings (ApiStore.deletePortfolio Sample.api true true).1) = None
  ∧ is_Some (JS.get ApiStore.holding_id "h3"
      (ApiStore.holdings (ApiStore.deletePortfolio Sample.api true true).1)).
Proof.
  destruct deletePortfolio_correct as (Hlast & Hother & _).
  destruct (Hlast Sample.api_empty true true) as [_ Halert]; [simpl; lia|].
  assert (NoDup (JS.keys ApiStore.portfolio_id (ApiStore.portfolios Sample.api)))
    as Hnd by (apply (bool_decide_unpack _); vm_compute; exact I).
  destruct (Hother Sample.api (ApiStore.mkPortfolio "p1" "Growth" ["h1"; "h2"])
              eq_refl ltac:(simpl; lia) Hnd)
    as (_ & _ & _ & Hgone & Hkept & q & Hhead & Hcur & _).
  split; [exact (Halert _ eq_refl)|]. split.
  - rewrite Hcur. injection Hhead as <-. reflexivity.
  - split.
    + apply Hgone. left.
    + rewrite Hkept; [by eexists|].
      apply (bool_decide_unpack _). vm_compute. exact I.
Defined.

(* ------------------------------------------------------------------ *)
(** ** Adding a holding *)

Section UpdateFacts.
Context {A : Type} (key : A → string).

Lemma get_set a o : JS.get key (key a) (JS.set key a o) = Some a.
Proof.
  induction o as [|b o IH]; simpl.
  - by rewrite decide_True.
  - destruct (decide (key b = key a)) as [Hk|Hk]; simpl.
    + by rewrite decide_True.
    + by rewrite decide_False.
Qed.

Lemma get_set_ne a k o :
  k ≠ key a → JS.get key k (JS.set key a o) = JS.get key k o.
Proof.
  intros Hne. induction o as [|b o IH]; simpl.
  - by rewrite decide_False.
  - destruct (decide (key b = key a)) as [Hk|Hk]; simpl.
    + rewrite !decide_False by congruence. done.
    + by rewrite IH.
Qed.

(** Updating the values of an object without touching their keys. *)
Lemma get_map (f : A → A) k o :
  (∀ a, key (f a) = key a) →
  JS.get key k (map f o) = f <$> JS.get key k o.
Proof.
  intros Hf. induction o as [|b o IH]; simpl; [done|].
  rewrite Hf. by destruct (decide (key b = k)).
Qed.

End UpdateFacts.

Lemma falsy_str_spec s : JS.falsy_str s = false ↔ s ≠ "".
Proof.
  unfold JS.falsy_str. destruct (decide (s = "")) as [->|Hne].
  - by rewrite bool_decide_eq_true_2.
  - by rewrite bool_decide_eq_false_2.
Qed.

(** The guard of [addStock] in the two front ends that talk to the server
    is false exactly on the valid inputs. *)
Lemma guard_valid symbol shares purchasePrice purchaseDate :
  JS.falsy_str symbol || JS.falsy shares || JS.falsy purchasePrice
  || JS.falsy_str purchaseDate || (shares <=? 0)%float
  || (purchasePrice <? 0)%float = false
  ↔ validInput symbol shares purchasePrice purchaseDate.
Proof.
  unfold validInput. rewrite <- !falsy_str_spec.
  pose proof (truthy_not_nonpos shares) as Hs.
  pose proof (truthy_not_neg purchasePrice) as Hp.
  destruct (JS.falsy_str symbol), (JS.falsy shares), (JS.falsy purchasePrice),
    (JS.falsy_str purchaseDate), (shares <=? 0)%float,
    (purchasePrice <? 0)%float, (0 <? shares)%float,
    (0 <? purchasePrice)%float; simpl in *; naive_solver.
Qed.

(** The two guards of the demo together. *)
Lemma demo_guard_valid symbol shares purchasePrice purchaseDate :
  (JS.falsy_str symbol || JS.isNaN shares || JS.isNaN purchasePrice
   || JS.falsy_str purchaseDate)
  || ((shares <=? 0)%float || (purchasePrice <=? 0)%float) = false
  ↔ validInput symbol shares purchasePrice purchaseDate.
Proof.
  unfold validInput. rewrite <- !falsy_str_spec.
  pose proof (number_not_nonpos shares) as Hs.
  pose proof (number_not_nonpos purchasePrice) as Hp.
  destruct (JS.falsy_str symbol), (JS.isNaN shares), (JS.isNaN purchasePrice),
    (JS.falsy_str purchaseDate), (shares <=? 0)%float,
    (purchasePrice <=? 0)%float, (0 <? shares)%float,
    (0 <? purchasePrice)%float; simpl in *; naive_solver.
Qed.

Lemma nonpos_not_pos x : (x <=? 0)%float = true → (0 <? x)%float = false.
Proof.
  rewrite nonpos_spec, pos_spec.
  by destruct (Prim2SF x) as [s|s| |s m e]; try destruct s.
Qed.

Lemma someSymbol_false hs sym ids :
  (∀ id, id ∈ ids →
     ∃ h, JS.get ApiStore.holding_id id hs = Some h ∧ ApiStore.symbol h ≠ sym) →
  ApiStore.someSymbol hs sym ids = Some false.
Proof.
  induction ids as [|id ids IH]; intros Hall; simpl; [done|].
  destruct (Hall id) as (h & -> & Hne); [left|].
  rewrite decide_False by done. apply IH. intros id' Hid'.
  apply Hall. by right.
Qed.

Lemma someSymbol_true hs sym ids :
  (∀ id, id ∈ ids → is_Some (JS.get ApiStore.holding_id id hs)) →
  (∃ id h, id ∈ ids ∧ JS.get ApiStore.holding_id id hs = Some h
           ∧ ApiStore.symbol h = sym) →
  ApiStore.someSymbol hs sym ids = Some true.
Proof.
  induction ids as [|id ids IH]; intros Hall (id' & h & Hin & Hget & Hsym).
  - by apply elem_of_nil in Hin.
  - simpl. destruct (Hall id) as [h0 Hh0]; [left|]. rewrite Hh0.
    destruct (decide (ApiStore.symbol h0 = sym)) as [|Hne]; [done|].
    apply IH.
    + intros id'' Hid''. apply Hall. by right.
    + apply elem_of_cons in Hin as [->|Hin].
      * rewrite Hget in Hh0. injection Hh0 as ->. done.
      * by exists id', h.
Qed.

Lemma api_addStock_invalid rest st symbol shares purchasePrice purchaseDate post :
  ¬ validInput symbol shares purchasePrice purchaseDate →
  (ApiStore.addStock_then rest st symbol shares purchasePrice purchaseDate post).1
  = st
  ∧ ∀ p, ApiStore.getCurrentPortfolio st = Some p →
      ApiStore.addStock_then rest st symbol shares purchasePrice purchaseDate post
        = (st, [ShowConfirmation "Invalid Input" true]).
Proof.
  intros Hinv. unfold ApiStore.addStock_then.
  destruct (ApiStore.getCurrentPortfolio st) as [p|]; [|by split].
  destruct (_ || _) eqn:Hguard; [by split|].
  by apply guard_valid in Hguard.
Qed.

Lemma api_addStock_duplicate rest st p symbol shares purchasePrice purchaseDate
    post :
  ApiStore.getCurrentPortfolio st = Some p →
  validInput symbol shares purchasePrice purchaseDate →
  (∀ id, id ∈ ApiStore.holdingIds p →
         is_Some (JS.get ApiStore.holding_id id (ApiStore.holdings st))) →
  (∃ id h, id ∈ ApiStore.holdingIds p
           ∧ JS.get ApiStore.holding_id id (ApiStore.holdings st) = Some h
           ∧ ApiStore.symbol h = symbol) →
  ApiStore.addStock_then rest st symbol shares purchasePrice purchaseDate post
    = (st, [ShowConfirmation "Duplicate Stock" true]).
Proof.
  intros Hcur Hvalid%guard_valid Hall Hdup. unfold ApiStore.addStock_then.
  rewrite Hcur, Hvalid. by rewrite someSymbol_true.
Qed.

Lemma api_pushHoldingId_id id hid p :
  ApiStore.portfolio_id (ApiStore.pushHoldingId id hid p) = ApiStore.portfolio_id p.
Proof. unfold ApiStore.pushHoldingId. by destruct (decide _). Qed.

(** On a valid input with a new symbol that the server stores, [addStock]
    goes on from the state with the new holding. *)
Lemma api_addStock_pushed rest st p symbol shares purchasePrice purchaseDate row :
  ApiStore.getCurrentPortfolio st = Some p →
  validInput symbol shares purchasePrice purchaseDate →
  (∀ id, id ∈ ApiStore.holdingIds p →
     ∃ h, JS.get ApiStore.holding_id id (ApiStore.holdings st) = Some h
          ∧ ApiStore.symbol h ≠ symbol) →
  ApiStore.addStock_then rest st symbol shares purchasePrice purchaseDate
    (ApiStore.Created row)
  = rest (ApiStore.mkState
            (map (ApiStore.pushHoldingId (ApiStore.portfolio_id p)
                    (ApiStore.row_id row)) (ApiStore.portfolios st))
            (JS.set ApiStore.holding_id (ApiStore.loadHolding row)
               (ApiStore.holdings st))
            (ApiStore.currentPortfolioId st) (ApiStore.priceUpdateInterval st)).
Proof.
  intros Hcur Hvalid%guard_valid Hnew. unfold ApiStore.addStock_then.
  rewrite Hcur, Hvalid. by rewrite someSymbol_false.
Qed.

Lemma api_addStock_valid st p symbol shares purchasePrice purchaseDate row :
  ApiStore.getCurrentPortfolio st = Some p →
  validInput symbol shares purchasePrice purchaseDate →
  (∀ id, id ∈ ApiStore.holdingIds p →
     ∃ h, JS.get ApiStore.holding_id id (ApiStore.holdings st) = Some h
          ∧ ApiStore.symbol h ≠ symbol) →
  let result :=
    ApiStore.addStock_push st symbol shares purchasePrice purchaseDate
      (ApiStore.Created row) in
  result.2 = []
  ∧ (∃ h, JS.get ApiStore.holding_id (ApiStore.row_id row)
                 (ApiStore.holdings result.1) = Some h
          ∧ ApiStore.symbol h = ApiStore.row_symbol row
          ∧ ApiStore.shares h = ApiStore.row_shares row
          ∧ ApiStore.purchasePrice h = ApiStore.row_purchasePrice row
          ∧ ApiStore.currentPrice h = ApiStore.purchasePrice h)
  ∧ (∀ id, id ≠ ApiStore.row_id row →
       JS.get ApiStore.holding_id id (ApiStore.holdings result.1)
       = JS.get ApiStore.holding_id id (ApiStore.holdings st))
  ∧ ∃ p', ApiStore.getCurrentPortfolio result.1 = Some p'
          ∧ ApiStore.holdingIds p' = ApiStore.holdingIds p ++ [ApiStore.row_id row].
Proof.
  intros Hcur Hvalid Hnew. unfold ApiStore.addStock_push.
  rewrite (api_addStock_pushed _ st p) by done. cbn [fst snd].
  split; [done|]. split; [|split].
  - exists (ApiStore.loadHolding row). split; [|done].
    apply (get_set ApiStore.holding_id (ApiStore.loadHolding row)).
  - intros id Hne.
    by apply (get_set_ne ApiStore.holding_id (ApiStore.loadHolding row)).
  - unfold ApiStore.getCurrentPortfolio in *. simpl.
    destruct (ApiStore.currentPortfolioId st) as [cur|]; [|done].
    rewrite get_map by apply api_pushHoldingId_id. rewrite Hcur. simpl.
    eexists. split; [done|]. unfold ApiStore.pushHoldingId.
    by rewrite decide_True.
Qed.

(** The state after the push holds a symbol, so the request goes out. *)
Lemma api_set_request h hs ps cur interval :
  ApiStore.fetchRealTimePrices_request
    (ApiStore.mkState ps (JS.set ApiStore.holding_id h hs) cur interval)
  = Some ("/api/quotes?symbols=" +:+
          JS.join (ApiStore.allSymbols
                     (ApiStore.mkState ps (JS.set ApiStore.holding_id h hs)
                        cur interval))).
Proof.
  apply api_request_some. exists h. simpl.
  assert (JS.get ApiStore.holding_id (ApiStore.holding_id h)
            (JS.set ApiStore.holding_id h hs) = Some h) as Hget
    by apply get_set.
  by apply get_Some in Hget as [Hin _].
Qed.

(** The whole [addStock] on such an input: the push, then the quote request
    of the state with the new holding, and what its answer does. *)
Lemma api_addStock_whole st p symbol shares purchasePrice purchaseDate row respond :
  ApiStore.getCurrentPortfolio st = Some p →
  validInput symbol shares purchasePrice purchaseDate →
  (∀ id, id ∈ ApiStore.holdingIds p →
     ∃ h, JS.get ApiStore.holding_id id (ApiStore.holdings st) = Some h
          ∧ ApiStore.symbol h ≠ symbol) →
  let pushed :=
    (ApiStore.addStock_push st symbol shares purchasePrice purchaseDate
       (ApiStore.Created row)).1 in
  ∃ url,
    ApiStore.fetchRealTimePrices_request pushed = Some url
    ∧ ApiStore.addStock st symbol shares purchasePrice purchaseDate
        (ApiStore.Created row) respond
      = ApiStore.fetchRealTimePrices_resume pushed (respond url).
Proof.
  intros Hcur Hvalid Hnew. unfold ApiStore.addStock_push, ApiStore.addStock.
  rewrite !(api_addStock_pushed _ st p) by done. cbn [fst].
  eexists. split; [apply api_set_request|].
  unfold ApiStore.fetchRealTimePrices. by rewrite api_set_request.
Qed.

Lemma local_addStock_invalid rest st symbol shares purchasePrice purchaseDate :
  ¬ validInput symbol shares purchasePrice purchaseDate →
  (LocalStore.addStock_then rest st symbol shares purchasePrice purchaseDate).1
  = st
  ∧ ∀ p, LocalStore.getCurrentPortfolio st = Some p →
      LocalStore.addStock_then rest st symbol shares purchasePrice purchaseDate
        = (st, [ShowConfirmation "Invalid Input" true]).
Proof.
  intros Hinv. unfold LocalStore.addStock_then.
  destruct (LocalStore.getCurrentPortfolio st) as [p|]; [|by split].
  destruct (_ || _) eqn:Hguard; [by split|].
  by apply guard_valid in Hguard.
Qed.

Lemma local_some_symbol symbol (hs : list LocalStore.Holding) :
  existsb (λ h, bool_decide (LocalStore.symbol h = symbol)) hs = true
  ↔ ∃ h, h ∈ hs ∧ LocalStore.symbol h = symbol.
Proof.
  rewrite existsb_exists. split.
  - intros (h & Hin%list_elem_of_In & Hs%bool_decide_eq_true). by exists h.
  - intros (h & Hin & Hs). exists h.
    split; [by apply list_elem_of_In|by apply bool_decide_eq_true].
Qed.

Lemma local_addStock_duplicate rest st p symbol shares purchasePrice purchaseDate :
  LocalStore.getCurrentPortfolio st = Some p →
  validInput symbol shares purchasePrice purchaseDate →
  (∃ h, h ∈ LocalStore.holdings p ∧ LocalStore.symbol h = symbol) →
  LocalStore.addStock_then rest st symbol shares purchasePrice purchaseDate
    = (st, [ShowConfirmation "Duplicate Stock" true]).
Proof.
  intros Hcur Hvalid%guard_valid Hdup%local_some_symbol.
  unfold LocalStore.addStock_then. by rewrite Hcur, Hvalid, Hdup.
Qed.

Lemma local_pushHolding_id id h p :
  LocalStore.portfolio_id (LocalStore.pushHolding id h p) = LocalStore.portfolio_id p.
Proof. unfold LocalStore.pushHolding. by destruct (decide _). Qed.

(** On a valid input with a new symbol, [addStock] goes on from the saved
    state with the new holding. *)
Lemma local_addStock_pushed rest st p symbol shares purchasePrice purchaseDate :
  LocalStore.getCurrentPortfolio st = Some p →
  validInput symbol shares purchasePrice purchaseDate →
  (∀ h, h ∈ LocalStore.holdings p → LocalStore.symbol h ≠ symbol) →
  LocalStore.addStock_then rest st symbol shares purchasePrice purchaseDate
  = ((rest (LocalStore.saveDataToLocalStorage
              (LocalStore.mkState
                 (map (LocalStore.pushHolding (LocalStore.portfolio_id p)
                         (LocalStore.mkHolding symbol shares purchasePrice
                            purchaseDate purchasePrice))
                      (LocalStore.portfolios st))
                 (LocalStore.currentPortfolioId st)
                 (LocalStore.priceUpdateInterval st)
                 (LocalStore.localStorage st)))).1,
     SaveToLocalStorage ::
     (rest (LocalStore.saveDataToLocalStorage
              (LocalStore.mkState
                 (map (LocalStore.pushHolding (LocalStore.portfolio_id p)
                         (LocalStore.mkHolding symbol shares purchasePrice
                            purchaseDate purchasePrice))
                      (LocalStore.portfolios st))
                 (LocalStore.currentPortfolioId st)
                 (LocalStore.priceUpdateInterval st)
                 (LocalStore.localStorage st)))).2).
Proof.
  intros Hcur Hvalid%guard_valid Hnew. unfold LocalStore.addStock_then.
  rewrite Hcur, Hvalid.
  destruct (existsb _ _) eqn:Hdup.
  { apply local_some_symbol in Hdup as (h & Hin & Hs). by destruct (Hnew h). }
  by destruct (rest _).
Qed.

Lemma local_addStock_valid st p symbol shares purchasePrice purchaseDate :
  LocalStore.getCurrentPortfolio st = Some p →
  validInput symbol shares purchasePrice purchaseDate →
  (∀ h, h ∈ LocalStore.holdings p → LocalStore.symbol h ≠ symbol) →
  let result :=
    LocalStore.addStock_push st symbol shares purchasePrice purchaseDate in
  let h := LocalStore.mkHolding symbol shares purchasePrice purchaseDate
             purchasePrice in
  result.2 = [SaveToLocalStorage]
  ∧ LocalStore.currentPrice h = LocalStore.purchasePrice h
  ∧ LocalStore.localStorage result.1 = Some (LocalStore.portfolios result.1)
  ∧ ∃ p', LocalStore.getCurrentPortfolio result.1 = Some p'
          ∧ LocalStore.holdings p' = LocalStore.holdings p ++ [h].
Proof.
  intros Hcur Hvalid Hnew. unfold LocalStore.addStock_push.
  rewrite (local_addStock_pushed _ st p) by done. cbn [fst snd].
  split; [done|]. split; [done|]. split; [done|].
  unfold LocalStore.getCurrentPortfolio in *. simpl.
  destruct (LocalStore.currentPortfolioId st) as [cur|]; [|done].
  rewrite get_map by apply local_pushHolding_id. rewrite Hcur. simpl.
  eexists. split; [done|]. unfold LocalStore.pushHolding.
  by rewrite decide_True.
Qed.

(** The whole [addStock] on such an input: the push and the save, then the
    quote request of the state with the new holding, what its answer does,
    and a last render. *)
Lemma local_addStock_whole st p symbol shares purchasePrice purchaseDate respond :
  LocalStore.getCurrentPortfolio st = Some p →
  validInput symbol shares purchasePrice purchaseDate →
  (∀ h, h ∈ LocalStore.holdings p → LocalStore.symbol h ≠ symbol) →
  let pushed :=
    (LocalStore.addStock_push st symbol shares purchasePrice purchaseDate).1 in
  ∃ url,
    LocalStore.fetchRealTimePrices_request pushed = Some url
    ∧ LocalStore.addStock st symbol shares purchasePrice purchaseDate respond
      = ((LocalStore.fetchRealTimePrices_resume pushed (respond url)).1,
         SaveToLocalStorage ::
         (LocalStore.fetchRealTimePrices_resume pushed (respond url)).2
         ++ [Render]).
Proof.
  intros Hcur Hvalid Hnew.
  destruct (local_addStock_valid st p symbol shares purchasePrice purchaseDate
              Hcur Hvalid Hnew) as (_ & _ & _ & p' & Hp' & Hholdings).
  unfold LocalStore.addStock_push, LocalStore.addStock in *.
  rewrite !(local_addStock_pushed _ st p) in * by done. cbn [fst snd] in *.
  set (pushed := LocalStore.saveDataToLocalStorage _) in *.
  assert (∃ url, LocalStore.fetchRealTimePrices_request pushed = Some url)
    as [url Hurl].
  { eexists. apply local_request_some.
    assert (p' ∈ LocalStore.portfolios pushed) as Hin.
    { unfold LocalStore.getCurrentPortfolio in Hp'.
      destruct (LocalStore.currentPortfolioId pushed); [|done].
      by apply get_Some in Hp' as [Hin _]. }
    exists p', (LocalStore.mkHolding symbol shares purchasePrice purchaseDate
                  purchasePrice).
    split; [done|]. rewrite Hholdings. apply elem_of_app. right. left. }
  exists url. split; [done|].
  unfold LocalStore.fetchRealTimePrices. rewrite Hurl.
  by destruct (LocalStore.fetchRealTimePrices_resume pushed (respond url)).
Qed.

Lemma demo_addStock_invalid st stockSymbol sharesValue purchasePrice purchaseDate :
  Demo.symbolRegex_test stockSymbol = false
  ∨ ¬ validInput stockSymbol (JS.parseInt sharesValue) purchasePrice purchaseDate →
  ∃ message,
    Demo.addStock st stockSymbol sharesValue purchasePrice purchaseDate
      = (st, [Alert message]).
Proof.
  intros Hinv. unfold Demo.addStock.
  destruct (Demo.symbolRegex_test stockSymbol); simpl; [|by eexists].
  destruct Hinv as [|Hinv]; [done|].
  destruct (_ || _ || _ || _) eqn:Hg1; [by eexists|].
  destruct ((JS.parseInt sharesValue <=? 0)%float || _) eqn:Hg2; [by eexists|].
  destruct Hinv. apply demo_guard_valid. by rewrite Hg1, Hg2.
Qed.

Lemma demo_pushHolding_id id h p :
  Demo.portfolio_id (Demo.pushHolding id h p) = Demo.portfolio_id p.
Proof. unfold Demo.pushHolding. by destruct (decide _). Qed.

Lemma demo_addStock_valid st p stockSymbol sharesValue purchasePrice purchaseDate :
  Demo.getCurrentPortfolio st = Some p →
  Demo.symbolRegex_test stockSymbol = true →
  validInput stockSymbol (JS.parseInt sharesValue) purchasePrice purchaseDate →
  let result :=
    Demo.addStock st stockSymbol sharesValue purchasePrice purchaseDate in
  let h := Demo.mkHolding stockSymbol (JS.parseInt sharesValue) purchasePrice
             purchaseDate purchasePrice in
  result.2 = [Render]
  ∧ Demo.currentPrice h = Demo.purchasePrice h
  ∧ ∃ p', Demo.getCurrentPortfolio result.1 = Some p'
          ∧ Demo.holdings p' = Demo.holdings p ++ [h].
Proof.
  intros Hcur Hre Hvalid%demo_guard_valid. unfold Demo.addStock.
  rewrite Hre. simpl negb. cbv iota zeta.
  apply orb_false_iff in Hvalid as [-> ->]. rewrite Hcur. simpl.
  split; [done|]. split; [done|].
  unfold Demo.getCurrentPortfolio in *. simpl.
  rewrite get_map by apply demo_pushHolding_id. rewrite Hcur. simpl.
  eexists. split; [done|]. unfold Demo.pushHolding.
  rewrite decide_True; [done|].
  by apply get_Some in Hcur as [_ ->].
Qed.

Lemma neg_not_pos x : (x <? 0)%float = true → (0 <? x)%float = false.
Proof.
  rewrite neg_spec, pos_spec.
  by destruct (Prim2SF x) as [s|s| |s m e]; try destruct s.
Qed.

(** A symbol that matches the symbol-format rule is not empty. *)
Lemma symbolRegex_nonempty s : Demo.symbolRegex_test s = true → s ≠ "".
Proof. by intros H ->. Qed.

(** What the claim of C2 names as rejected, and a price of zero, are all
    outside the valid inputs. *)
Lemma rejected_inputs symbol shares purchasePrice purchaseDate :
  (shares <=? 0)%float = true ∨ (purchasePrice <? 0)%float = true
  ∨ (purchasePrice =? 0)%float = true ∨ purchaseDate = "" →
  ¬ validInput symbol shares purchasePrice purchaseDate.
Proof.
  intros [H|[H|[H|H]]] (_ & Hs & Hp & Hd).
  - apply nonpos_not_pos in H. congruence.
  - apply neg_not_pos in H. congruence.
  - apply zero_not_pos in H. congruence.
  - done.
Qed.

(** *** What [parseInt] makes of the shares field of the demo *)

Lemma digits_fraction whole fraction acc :
  decimal whole = true →
  JS.digits 10 (whole +:+ "." +:+ fraction) acc = JS.digits 10 whole acc.
Proof.
  unfold decimal. revert acc. induction whole as [|c whole IH]; intros acc; simpl.
  - done.
  - intros [Hc Hwhole]%andb_true_iff.
    destruct (JS.digit 10 c) as [d|]; [by apply IH|done].
Qed.

Local Ltac N_cases :=
  repeat match goal with
         | |- context [(?a <=? ?b)%N] => destruct (N.leb_spec a b)
         | |- context [(?a =? ?b)%N] => destruct (N.eqb_spec a b)
         end;
  simpl; try done; try lia.

Lemma trimStart_digit c s :
  (48 <= Ascii.N_of_ascii c <= 57)%N → JS.trimStart (String c s) = String c s.
Proof.
  intros Hc. simpl.
  assert (JS.whitespace1 (Ascii.N_of_ascii c) = false) as ->
    by (unfold JS.whitespace1; N_cases).
  destruct s as [|c2 s]; [done|].
  assert (JS.whitespace2 (Ascii.N_of_ascii c) (Ascii.N_of_ascii c2) = false) as ->
    by (unfold JS.whitespace2; N_cases).
  destruct s as [|c3 s]; [done|].
  assert (JS.whitespace3 (Ascii.N_of_ascii c) (Ascii.N_of_ascii c2)
            (Ascii.N_of_ascii c3) = false) as ->; [|done].
  unfold JS.whitespace3.
  assert ((Ascii.N_of_ascii c =? 225)%N = false) as -> by (apply N.eqb_neq; lia).
  assert ((Ascii.N_of_ascii c =? 226)%N = false) as -> by (apply N.eqb_neq; lia).
  assert ((Ascii.N_of_ascii c =? 227)%N = false) as -> by (apply N.eqb_neq; lia).
  assert ((Ascii.N_of_ascii c =? 239)%N = false) as -> by (apply N.eqb_neq; lia).
  done.
Qed.

(** A text that starts with a decimal digit and does not go on with [x] or
    [X] is read in radix 10 from its first character. *)
Lemma parseInt_decimal c s :
  (48 <=? Ascii.N_of_ascii c)%N && (Ascii.N_of_ascii c <=? 57)%N = true →
  match s with
  | String c2 _ => (Ascii.N_of_ascii c2 =? 120)%N || (Ascii.N_of_ascii c2 =? 88)%N
  | EmptyString => false
  end = false →
  JS.parseInt (String c s)
  = match JS.digits 10 (String c s) None with
    | Some n => JS.toNumber false n
    | None => nan
    end.
Proof.
  intros [Hlo%N.leb_le Hhi%N.leb_le]%andb_true_iff Hx. unfold JS.parseInt.
  rewrite trimStart_digit by done.
  assert ((Ascii.N_of_ascii c =? 45)%N = false) as -> by (apply N.eqb_neq; lia).
  assert ((Ascii.N_of_ascii c =? 43)%N = false) as -> by (apply N.eqb_neq; lia).
  destruct s as [|c2 s]; [done|]. by rewrite Hx, andb_false_r.
Qed.

(** [parseInt] reads the whole number of a decimal fraction and drops the
    rest. *)
Lemma parseInt_fraction whole fraction :
  decimal whole = true → whole ≠ "" →
  JS.parseInt (whole +:+ "." +:+ fraction) = JS.parseInt whole.
Proof.
  intros Hdec Hne. destruct whole as [|c whole]; [done|].
  pose proof Hdec as [Hc Hwhole]%andb_true_iff.
  change (String c whole +:+ "." +:+ fraction)
    with (String c (whole +:+ "." +:+ fraction)).
  rewrite !parseInt_decimal; try done.
  - change (String c (whole +:+ "." +:+ fraction))
      with (String c whole +:+ "." +:+ fraction).
    by rewrite digits_fraction.
  - destruct whole as [|c2 whole]; [done|]. simpl in Hwhole.
    apply andb_true_iff in Hwhole as [[Hlo%N.leb_le Hhi%N.leb_le]%andb_true_iff _].
    apply orb_false_iff. split; apply N.eqb_neq; lia.
  - destruct whole as [|c2 whole]; [done|]. simpl in Hwhole.
    apply andb_true_iff in Hwhole as [[Hlo%N.leb_le Hhi%N.leb_le]%andb_true_iff _].
    simpl. apply orb_false_iff. split; apply N.eqb_neq; lia.
Qed.

(** *** The state in which [addStock] returns *)

Lemma api_updatePrice_id prices h :
  ApiStore.holding_id (ApiStore.updatePrice prices h) = ApiStore.holding_id h.
Proof. unfold ApiStore.updatePrice. by destruct (prices !! _). Qed.

(** What the answer to a quote request leaves of a holding. *)
Lemma api_resume_holding st out id h :
  JS.get ApiStore.holding_id id (ApiStore.holdings st) = Some h →
  ∃ h', JS.get ApiStore.holding_id id
          (ApiStore.holdings (ApiStore.fetchRealTimePrices_resume st out).1)
        = Some h'
        ∧ ApiStore.symbol h' = ApiStore.symbol h
        ∧ ApiStore.shares h' = ApiStore.shares h
        ∧ ApiStore.purchasePrice h' = ApiStore.purchasePrice h
        ∧ ApiStore.currentPrice h'
          = quoted out (ApiStore.symbol h) (ApiStore.currentPrice h).
Proof.
  intros Hget. destruct out as [| | |prices]; simpl; try by exists h.
  rewrite get_map by apply api_updatePrice_id. rewrite Hget. simpl.
  eexists. split; [done|]. unfold ApiStore.updatePrice.
  by destruct (prices !! ApiStore.symbol h).
Qed.

Lemma api_resume_current st out :
  ApiStore.getCurrentPortfolio (ApiStore.fetchRealTimePrices_resume st out).1
  = ApiStore.getCurrentPortfolio st.
Proof. by destruct out. Qed.

(** [addStock] of [ApiStore] on a valid input with a new symbol that the
    server stores: the state at the push, the request that goes out of it
    and the state in which the call returns. *)
Lemma api_addStock_accepted st p symbol shares purchasePrice purchaseDate row
    respond :
  ApiStore.getCurrentPortfolio st = Some p →
  validInput symbol shares purchasePrice purchaseDate →
  (∀ id, id ∈ ApiStore.holdingIds p →
     ∃ h, JS.get ApiStore.holding_id id (ApiStore.holdings st) = Some h
          ∧ ApiStore.symbol h ≠ symbol) →
  let pushed :=
    ApiStore.addStock_push st symbol shares purchasePrice purchaseDate
      (ApiStore.Created row) in
  let result :=
    ApiStore.addStock st symbol shares purchasePrice purchaseDate
      (ApiStore.Created row) respond in
  pushed.2 = []
  ∧ (∃ h, JS.get ApiStore.holding_id (ApiStore.row_id row)
                 (ApiStore.holdings pushed.1) = Some h
          ∧ ApiStore.symbol h = ApiStore.row_symbol row
          ∧ ApiStore.shares h = ApiStore.row_shares row
          ∧ ApiStore.purchasePrice h = ApiStore.row_purchasePrice row
          ∧ ApiStore.currentPrice h = ApiStore.purchasePrice h)
  ∧ (∀ id, id ≠ ApiStore.row_id row →
       JS.get ApiStore.holding_id id (ApiStore.holdings pushed.1)
       = JS.get ApiStore.holding_id id (ApiStore.holdings st))
  ∧ (∃ p', ApiStore.getCurrentPortfolio pushed.1 = Some p'
           ∧ ApiStore.holdingIds p'
             = ApiStore.holdingIds p ++ [ApiStore.row_id row])
  ∧ ∃ url,
      ApiStore.fetchRealTimePrices_request pushed.1 = Some url
      ∧ result = ApiStore.fetchRealTimePrices_resume pushed.1 (respond url)
      ∧ (∃ h, JS.get ApiStore.holding_id (ApiStore.row_id row)
                     (ApiStore.holdings result.1) = Some h
              ∧ ApiStore.symbol h = ApiStore.row_symbol row
              ∧ ApiStore.shares h = ApiStore.row_shares row
              ∧ ApiStore.purchasePrice h = ApiStore.row_purchasePrice row
              ∧ ApiStore.currentPrice h
                = quoted (respond url) (ApiStore.row_symbol row)
                    (ApiStore.row_purchasePrice row))
      ∧ ∃ p', ApiStore.getCurrentPortfolio result.1 = Some p'
              ∧ ApiStore.holdingIds p'
                = ApiStore.holdingIds p ++ [ApiStore.row_id row].
Proof.
  intros Hcur Hvalid Hnew pushed result.
  destruct (api_addStock_valid st p symbol shares purchasePrice purchaseDate row
              Hcur Hvalid Hnew) as (Heff & Hh & Hothers & Hp').
  destruct (api_addStock_whole st p symbol shares purchasePrice purchaseDate row
              respond Hcur Hvalid Hnew) as (url & Hurl & Hwhole).
  fold pushed in Heff, Hh, Hothers, Hp', Hurl, Hwhole.
  fold result in Hwhole.
  split; [done|]. split; [done|]. split; [done|]. split; [done|].
  exists url. split; [done|]. split; [done|]. rewrite Hwhole. split.
  - destruct Hh as (h & Hget & Hs & Hn & Hp & Hc).
    destruct (api_resume_holding pushed.1 (respond url) _ h Hget)
      as (h' & Hget' & Hs' & Hn' & Hp'' & Hc').
    exists h'. split; [done|].
    rewrite Hs', Hn', Hp'', Hc', Hs, Hn, Hc, Hp. done.
  - by rewrite api_resume_current.
Qed.

Lemma local_resume_current st out p :
  LocalStore.getCurrentPortfolio st = Some p →
  LocalStore.localStorage st = Some (LocalStore.portfolios st) →
  let st' := (LocalStore.fetchRealTimePrices_resume st out).1 in
  LocalStore.localStorage st' = Some (LocalStore.portfolios st')
  ∧ ∃ p', LocalStore.getCurrentPortfolio st' = Some p'
          ∧ LocalStore.holdings p'
            = match out with
              | Prices prices =>
                  map (LocalStore.updatePrice prices) (LocalStore.holdings p)
              | _ => LocalStore.holdings p
              end.
Proof.
  intros Hcur Hsaved.
  destruct out as [| | |prices]; simpl; try (split; [done|by exists p]).
  split; [done|]. exists (LocalStore.updatePrices prices p). split; [|done].
  unfold LocalStore.getCurrentPortfolio in *. simpl.
  destruct (LocalStore.currentPortfolioId st) as [cur|]; [|done].
  rewrite get_map by done. by rewrite Hcur.
Qed.

(** [addStock] of [LocalStore] on a valid input with a new symbol: the
    state at the push, the request that goes out of it and the state in
    which the call returns. *)
Lemma local_addStock_accepted st p symbol shares purchasePrice purchaseDate
    respond :
  LocalStore.getCurrentPortfolio st = Some p →
  validInput symbol shares purchasePrice purchaseDate →
  (∀ h, h ∈ LocalStore.holdings p → LocalStore.symbol h ≠ symbol) →
  let pushed :=
    LocalStore.addStock_push st symbol shares purchasePrice purchaseDate in
  let result :=
    LocalStore.addStock st symbol shares purchasePrice purchaseDate respond in
  let h := LocalStore.mkHolding symbol shares purchasePrice purchaseDate
             purchasePrice in
  pushed.2 = [SaveToLocalStorage]
  ∧ LocalStore.currentPrice h = LocalStore.purchasePrice h
  ∧ LocalStore.localStorage pushed.1 = Some (LocalStore.portfolios pushed.1)
  ∧ (∃ p', LocalStore.getCurrentPortfolio pushed.1 = Some p'
           ∧ LocalStore.holdings p' = LocalStore.holdings p ++ [h])
  ∧ ∃ url,
      LocalStore.fetchRealTimePrices_request pushed.1 = Some url
      ∧ result
        = ((LocalStore.fetchRealTimePrices_resume pushed.1 (respond url)).1,
           SaveToLocalStorage ::
           (LocalStore.fetchRealTimePrices_resume pushed.1 (respond url)).2
           ++ [Render])
      ∧ LocalStore.localStorage result.1 = Some (LocalStore.portfolios result.1)
      ∧ ∃ p', LocalStore.getCurrentPortfolio result.1 = Some p'
              ∧ LocalStore.holdings p'
                = match respond url with
                  | Prices prices =>
                      map (LocalStore.updatePrice prices)
                          (LocalStore.holdings p ++ [h])
                  | _ => LocalStore.holdings p ++ [h]
                  end.
Proof.
  intros Hcur Hvalid Hnew pushed result h.
  destruct (local_addStock_valid st p symbol shares purchasePrice purchaseDate
              Hcur Hvalid Hnew) as (Heff & Hprice & Hsaved & p' & Hp' & Hholdings).
  destruct (local_addStock_whole st p symbol shares purchasePrice purchaseDate
              respond Hcur Hvalid Hnew) as (url & Hurl & Hwhole).
  fold pushed in Heff, Hsaved, Hp', Hurl, Hwhole. fold h in Hholdings.
  fold result in Hwhole.
  split; [done|]. split; [done|]. split; [done|].
  split; [by exists p'|].
  exists url. split; [done|]. split; [done|]. rewrite Hwhole. cbn [fst].
  destruct (local_resume_current pushed.1 (respond url) p' Hp' Hsaved)
    as (Hsaved' & p'' & Hp'' & Hholdings').
  split; [done|]. exists p''. split; [done|]. by rewrite Hholdings', Hholdings.
Qed.

(** The claim of C2 fails on every front end: ten shares at a purchase
    price of 0, with a well-formed symbol and a date, are refused and the
    store stays as it was, whatever the price source would answer. *)
Lemma addStock_zero_price_counterexample :
  (0 <? 10)%float = true ∧ (0 <=? 0)%float = true
  ∧ Demo.symbolRegex_test "GIFT" = true
  ∧ JS.parseInt "10" = 10%float
  ∧ (∀ respond,
       ApiStore.addStock Sample.api "GIFT" 10 0 "2024-01-01"
         (ApiStore.Created (ApiStore.mkHoldingRow "h9" "GIFT" 10 0 "2024-01-01"))
         respond
       = (Sample.api, [ShowConfirmation "Invalid Input" true]))
  ∧ (∀ respond,
       LocalStore.addStock Sample.local "GIFT" 10 0 "2024-01-01" respond
       = (Sample.local, [ShowConfirmation "Invalid Input" true]))
  ∧ Demo.addStock Demo.constructor "GIFT" "10" 0 "2024-01-01"
    = (Demo.constructor,
       [Alert "Shares and purchase price must be positive numbers"]).
Proof. repeat split. Qed.

(** C2, as the source has it: [addStock] accepts exactly the inputs with a
    symbol and a date that are not empty and with shares and a purchase
    price above zero; a purchase price of 0 is refused like a negative one.
    The shares are the number that the front end reads from the field: the
    two front ends with a server read it with [parseFloat], the demo with
    [parseInt], which drops the fraction of a decimal number, so that the
    demo refuses 0.5 shares and stores 2.7 shares as 2.  On an accepted
    input whose symbol the current portfolio does not hold yet, [addStock]
    appends a holding whose currentPrice is its purchasePrice (in
    [ApiStore] once the server has stored the row; the demo asks for a
    well-formed symbol and does not look for the symbol in the portfolio).
    The two front ends with a server then send a quote request for the
    symbols of the store and return once it is answered: in the state they
    return the new holding is the last of the current portfolio, and its
    currentPrice is the price that the answer quotes for its symbol, or its
    purchasePrice when the request fails or quotes no price for it.  On
    every other input [addStock] shows the validation alert and leaves the
    state as it was. *)
Theorem addStock_validation :
  (∀ symbol shares purchasePrice purchaseDate,
     (shares <=? 0)%float = true ∨ (purchasePrice <? 0)%float = true
     ∨ (purchasePrice =? 0)%float = true ∨ purchaseDate = "" →
     ¬ validInput symbol shares purchasePrice purchaseDate)
  ∧ (∀ symbol, Demo.symbolRegex_test symbol = true → symbol ≠ "")
  ∧ (∀ whole fraction,
     decimal whole = true → whole ≠ "" →
     JS.parseInt (whole +:+ "." +:+ fraction) = JS.parseInt whole)
  ∧ (∀ st symbol shares purchasePrice purchaseDate post respond,
     ¬ validInput symbol shares purchasePrice purchaseDate →
     (ApiStore.addStock st symbol shares purchasePrice purchaseDate post
        respond).1 = st
     ∧ ∀ p, ApiStore.getCurrentPortfolio st = Some p →
         ApiStore.addStock st symbol shares purchasePrice purchaseDate post
           respond
           = (st, [ShowConfirmation "Invalid Input" true]))
  ∧ (∀ st p symbol shares purchasePrice purchaseDate row respond,
     ApiStore.getCurrentPortfolio st = Some p →
     validInput symbol shares purchasePrice purchaseDate →
     (∀ id, id ∈ ApiStore.holdingIds p →
        ∃ h, JS.get ApiStore.holding_id id (ApiStore.holdings st) = Some h
             ∧ ApiStore.symbol h ≠ symbol) →
     let pushed :=
       ApiStore.addStock_push st symbol shares purchasePrice purchaseDate
         (ApiStore.Created row) in
     let result :=
       ApiStore.addStock st symbol shares purchasePrice purchaseDate
         (ApiStore.Created row) respond in
     pushed.2 = []
     ∧ (∃ h, JS.get ApiStore.holding_id (ApiStore.row_id row)
                    (ApiStore.holdings pushed.1) = Some h
             ∧ ApiStore.symbol h = ApiStore.row_symbol row
             ∧ ApiStore.shares h = ApiStore.row_shares row
             ∧ ApiStore.purchasePrice h = ApiStore.row_purchasePrice row
             ∧ ApiStore.currentPrice h = ApiStore.purchasePrice h)
     ∧ (∀ id, id ≠ ApiStore.row_id row →
          JS.get ApiStore.holding_id id (ApiStore.holdings pushed.1)
          = JS.get ApiStore.holding_id id (ApiStore.holdings st))
     ∧ (∃ p', ApiStore.getCurrentPortfolio pushed.1 = Some p'
              ∧ ApiStore.holdingIds p'
                = ApiStore.holdingIds p ++ [ApiStore.row_id row])
     ∧ ∃ url,
         ApiStore.fetchRealTimePrices_request pushed.1 = Some url
         ∧ result = ApiStore.fetchRealTimePrices_resume pushed.1 (respond url)
         ∧ (∃ h, JS.get ApiStore.holding_id (ApiStore.row_id row)
                        (ApiStore.holdings result.1) = Some h
                 ∧ ApiStore.symbol h = ApiStore.row_symbol row
                 ∧ ApiStore.shares h = ApiStore.row_shares row
                 ∧ ApiStore.purchasePrice h = ApiStore.row_purchasePrice row
                 ∧ ApiStore.currentPrice h
                   = quoted (respond url) (ApiStore.row_symbol row)
                       (ApiStore.row_purchasePrice row))
         ∧ ∃ p', ApiStore.getCurrentPortfolio result.1 = Some p'
                 ∧ ApiStore.holdingIds p'
                   = ApiStore.holdingIds p ++ [ApiStore.row_id row])
  ∧ (∀ st symbol shares purchasePrice purchaseDate respond,
     ¬ validInput symbol shares purchasePrice purchaseDate →
     (LocalStore.addStock st symbol shares purchasePrice purchaseDate
        respond).1 = st
     ∧ ∀ p, LocalStore.getCurrentPortfolio st = Some p →
         LocalStore.addStock st symbol shares purchasePrice purchaseDate respond
           = (st, [ShowConfirmation "Invalid Input" true]))
  ∧ (∀ st p symbol shares purchasePrice purchaseDate respond,
     LocalStore.getCurrentPortfolio st = Some p →
     validInput symbol shares purchasePrice purchaseDate →
     (∀ h, h ∈ LocalStore.holdings p → LocalStore.symbol h ≠ symbol) →
     let pushed :=
       LocalStore.addStock_push st symbol shares purchasePrice purchaseDate in
     let result :=
       LocalStore.addStock st symbol shares purchasePrice purchaseDate respond in
     let h := LocalStore.mkHolding symbol shares purchasePrice purchaseDate
                purchasePrice in
     pushed.2 = [SaveToLocalStorage]
     ∧ LocalStore.currentPrice h = LocalStore.purchasePrice h
     ∧ LocalStore.localStorage pushed.1 = Some (LocalStore.portfolios pushed.1)
     ∧ (∃ p', LocalStore.getCurrentPortfolio pushed.1 = Some p'
              ∧ LocalStore.holdings p' = LocalStore.holdings p ++ [h])
     ∧ ∃ url,
         LocalStore.fetchRealTimePrices_request pushed.1 = Some url
         ∧ result
           = ((LocalStore.fetchRealTimePrices_resume pushed.1 (respond url)).1,
              SaveToLocalStorage ::
              (LocalStore.fetchRealTimePrices_resume pushed.1 (respond url)).2
              ++ [Render])
         ∧ LocalStore.localStorage result.1
           = Some (LocalStore.portfolios result.1)
         ∧ ∃ p', LocalStore.getCurrentPortfolio result.1 = Some p'
                 ∧ LocalStore.holdings p'
                   = match respond url with
                     | Prices prices =>
                         map (LocalStore.updatePrice prices)
                             (LocalStore.holdings p ++ [h])
                     | _ => LocalStore.holdings p ++ [h]
                     end)
  ∧ (∀ st stockSymbol sharesValue purchasePrice purchaseDate,
     Demo.symbolRegex_test stockSymbol = false
     ∨ ¬ validInput stockSymbol (JS.parseInt sharesValue) purchasePrice
           purchaseDate →
     ∃ message,
       Demo.addStock st stockSymbol sharesValue purchasePrice purchaseDate
         = (st, [Alert message]))
  ∧ (∀ st p stockSymbol sharesValue purchasePrice purchaseDate,
     Demo.getCurrentPortfolio st = Some p →
     Demo.symbolRegex_test stockSymbol = true →
     validInput stockSymbol (JS.parseInt sharesValue) purchasePrice
       purchaseDate →
     let result :=
       Demo.addStock st stockSymbol sharesValue purchasePrice purchaseDate in
     let h := Demo.mkHolding stockSymbol (JS.parseInt sharesValue) purchasePrice
                purchaseDate purchasePrice in
     result.2 = [Render]
     ∧ Demo.currentPrice h = Demo.purchasePrice h
     ∧ ∃ p', Demo.getCurrentPortfolio result.1 = Some p'
             ∧ Demo.holdings p' = Demo.holdings p ++ [h]).
Proof.
  split; [apply rejected_inputs|].
  split; [apply symbolRegex_nonempty|].
  split; [apply parseInt_fraction|].
  split; [intros; by apply api_addStock_invalid|].
  split; [apply api_addStock_accepted|].
  split; [intros; by apply local_addStock_invalid|].
  split; [apply local_addStock_accepted|].
  split; [apply demo_addStock_invalid|apply demo_addStock_valid].
Qed.

(** Twenty shares of NVDA at 120.5 are appended to the first portfolio of
    the sample store at that price, and stay there at that price when the
    quote request fails; zero shares are refused.  In the demo 0.5 shares
    are refused, and 2.7 shares are stored as 2. *)
Lemma addStock_validation_witness :
  validInput "NVDA" 20 120.5 "2024-04-01"
  ∧ (LocalStore.holdings <$>
       LocalStore.getCurrentPortfolio
         (LocalStore.addStock Sample.local "NVDA" 20 120.5 "2024-04-01"
            (λ _, NetworkError)).1)
    = Some [ LocalStore.mkHolding "AAPL" 50 150.25 "2024-01-15" 175.30;
             LocalStore.mkHolding "MSFT" 30 280 "2024-02-01" 295.50;
             LocalStore.mkHolding "NVDA" 20 120.5 "2024-04-01" 120.5 ]
  ∧ ¬ validInput "NVDA" 0 120.5 "2024-04-01"
  ∧ LocalStore.addStock Sample.local "NVDA" 0 120.5 "2024-04-01"
      (λ _, NetworkError)
    = (Sample.local, [ShowConfirmation "Invalid Input" true])
  ∧ JS.parseInt "0.5" = 0%float
  ∧ (∃ message,
       Demo.addStock Demo.constructor "NVDA" "0.5" 120.5 "2024-04-01"
       = (Demo.constructor, [Alert message]))
  ∧ JS.parseInt "2.7" = 2%float
  ∧ (∃ p, Demo.getCurrentPortfolio
            (Demo.addStock Demo.constructor "NVDA" "2.7" 120.5 "2024-04-01").1
          = Some p
          ∧ last (Demo.holdings p)
            = Some (Demo.mkHolding "NVDA" 2 120.5 "2024-04-01" 120.5)).
Proof.
  destruct addStock_validation
    as (Hrej & _ & Hfraction & _ & _ & Hinv & Hok & Hdemo_inv & Hdemo_ok).
  assert (validInput "NVDA" 20 120.5 "2024-04-01") as Hvalid by done.
  assert (¬ validInput "NVDA" 0 120.5 "2024-04-01") as Hbad.
  { apply Hrej. by left. }
  assert (JS.parseInt "0.5" = 0%float) as Hhalf.
  { change (JS.parseInt ("0" +:+ "." +:+ "5") = 0%float).
    by rewrite Hfraction. }
  assert (JS.parseInt "2.7" = 2%float) as Htwo.
  { change (JS.parseInt ("2" +:+ "." +:+ "7") = 2%float).
    by rewrite Hfraction. }
  split; [exact Hvalid|]. split.
  { destruct (Hok Sample.local
                (LocalStore.mkPortfolio "portfolio-1" "Growth"
                   [ LocalStore.mkHolding "AAPL" 50 150.25 "2024-01-15" 175.30;
                     LocalStore.mkHolding "MSFT" 30 280 "2024-02-01" 295.50 ])
                "NVDA" 20%float 120.5%float "2024-04-01" (λ _, NetworkError)
                eq_refl Hvalid)
      as (_ & _ & _ & _ & url & _ & _ & _ & p' & -> & Hp').
    - intros h Hh. apply elem_of_cons in Hh as [->|Hh]; [done|].
      apply list_elem_of_singleton in Hh as ->. done.
    - simpl. by rewrite Hp'. }
  split; [exact Hbad|]. split.
  { destruct (Hinv Sample.local "NVDA" 0%float 120.5%float "2024-04-01"
                (λ _, NetworkError) Hbad) as [_ Halert].
    exact (Halert _ eq_refl). }
  split; [exact Hhalf|]. split.
  { apply Hdemo_inv. right. rewrite Hhalf. apply Hrej. by left. }
  split; [exact Htwo|].
  destruct (Hdemo_ok Demo.constructor
              (default (Demo.mkPortfolio "" "" [])
                 (Demo.getCurrentPortfolio Demo.constructor))
              "NVDA" "2.7" 120.5%float "2024-04-01" eq_refl eq_refl)
    as (_ & _ & p' & Hp' & Hholdings).
  { by rewrite Htwo. }
  exists p'. split; [exact Hp'|]. rewrite Hholdings, Htwo.
  by rewrite last_snoc.
Defined.

(* ------------------------------------------------------------------ *)
(** ** A symbol that the portfolio already holds *)

(** C3 holds in the two front ends that talk to the server: see
    [api_addStock_duplicate] and [local_addStock_duplicate].  The demo has
    no such check: adding AAPL to its first portfolio, which holds AAPL,
    goes through and leaves two AAPL holdings. *)
Theorem demo_addStock_accepts_duplicate :
  ((λ p, Demo.symbol <$> Demo.holdings p) <$>
     Demo.getCurrentPortfolio Demo.constructor)
    = Some ["AAPL"; "GOOGL"; "MSFT"]
  ∧ (Demo.addStock Demo.constructor "AAPL" "5" 180 "2024-03-01").2 = [Render]
  ∧ ((λ p, Demo.symbol <$> Demo.holdings p) <$>
       Demo.getCurrentPortfolio
         (Demo.addStock Demo.constructor "AAPL" "5" 180 "2024-03-01").1)
    = Some ["AAPL"; "GOOGL"; "MSFT"; "AAPL"].
Proof. repeat split. Qed.

(* ------------------------------------------------------------------ *)
(** ** The price table of the quotes endpoint *)

Lemma addQuote_kept prices quote :
  Server.addQuote prices quote =
    if keptQuote quote
    then match Server.instrument_symbol quote with
         | Some sym => JS.assign sym (Server.last quote) prices
         | None => prices
         end
    else prices.
Proof.
  unfold Server.addQuote, keptQuote.
  destruct (Server.instrument_symbol quote) as [sym|]; [|done].
  by destruct (negb _ && negb _).
Qed.

(** Every entry of the table was in it before the loop or comes from a
    quote that the loop kept. *)
Lemma addQuote_fold quotes prices sym price :
  fold_left Server.addQuote quotes prices !! sym = Some price →
  prices !! sym = Some price
  ∨ ∃ quote, quote ∈ quotes ∧ keptQuote quote = true
             ∧ Server.instrument_symbol quote = Some sym
             ∧ Server.last quote = price.
Proof.
  revert prices. induction quotes as [|q quotes IH]; intros prices; simpl.
  - by left.
  - intros [Hin|(quote & Hq & Hrest)]%IH.
    + rewrite addQuote_kept in Hin. destruct (keptQuote q) eqn:Hk; [|by left].
      destruct (Server.instrument_symbol q) as [s|] eqn:Hs; [|by left].
      unfold JS.assign in Hin.
      destruct (decide (s = "__proto__")); [by left|].
      destruct (decide (s = sym)) as [->|Hne].
      * rewrite lookup_insert_eq in Hin. injection Hin as <-.
        right. exists q. split; [left|done].
      * rewrite lookup_insert_ne in Hin by done. by left.
    + right. exists quote. split; [by right|done].
Qed.

(** The quotes that the loop does not keep do not matter. *)
Lemma addQuote_filter quotes prices :
  fold_left Server.addQuote quotes prices
  = fold_left Server.addQuote (List.filter keptQuote quotes) prices.
Proof.
  revert prices. induction quotes as [|q quotes IH]; intros prices; simpl; [done|].
  rewrite IH. rewrite (addQuote_kept prices q).
  destruct (keptQuote q) eqn:Hk; [|done]. simpl.
  by rewrite (addQuote_kept prices q), Hk.
Qed.

Lemma keptQuote_spec quote :
  keptQuote quote = true →
  ∃ sym, Server.instrument_symbol quote = Some sym ∧ sym ≠ ""
         ∧ is_nan (Server.last quote) = false.
Proof.
  unfold keptQuote. destruct (Server.instrument_symbol quote) as [sym|]; [|done].
  intros [Hs Hn]%andb_true_iff. exists sym. split; [done|].
  apply negb_true_iff in Hs, Hn. by apply falsy_str_spec in Hs.
Qed.

(** Every entry of the table comes from a quote of the answer that carries
    its symbol, which is not empty, and whose [last] parses to a number. *)
Lemma quotePrices_entry quotes sym price :
  Server.quotePrices quotes !! sym = Some price →
  is_nan price = false ∧ sym ≠ ""
  ∧ ∃ list quote, quotes = Some list ∧ quote ∈ list
      ∧ Server.instrument_symbol quote = Some sym
      ∧ Server.last quote = price.
Proof.
  destruct quotes as [list|]; simpl; [|by rewrite lookup_empty].
  intros [Hin|(quote & Hq & Hk & Hs & Hl)]%addQuote_fold.
  { by rewrite lookup_empty in Hin. }
  apply keptQuote_spec in Hk as (sym' & Hs' & Hne & Hnan).
  rewrite Hs in Hs'. injection Hs' as <-. subst price.
  split; [done|]. split; [done|]. by exists list, quote.
Qed.

(** What [JSON.stringify] writes for a number is a finite number, or
    [null] when the number is not finite. *)
Lemma JSON_number_finite x :
  match JS.JSON_number x with
  | Some y => is_finite x = true ∧ is_finite y = true
  | None => is_finite x = false
  end.
Proof.
  unfold JS.JSON_number. destruct (is_finite x) eqn:Hx; [|done].
  split; [done|]. by destruct (is_zero x).
Qed.

(** C10: the mapping that [/api/quotes] returns has an entry only for the
    symbol, not empty, of a quote whose [last] parses to a number, and the
    quotes without one or the other leave the mapping as it is; the entry
    is what the body carries of that number.  But the handler tests the
    parsed price with [isNaN] alone: a quote whose [last] parses to
    Infinity (the text "Infinity", or a number such as 1e999) passes the
    test, its price is in the table, and its entry in the returned mapping
    is [null], not a finite number. *)
Theorem quotesBody_infinite_price :
  (∀ quotes sym,
     match Server.quotesBody quotes !! sym with
     | Some entry =>
         sym ≠ ""
         ∧ ∃ list quote, quotes = Some list ∧ quote ∈ list
             ∧ Server.instrument_symbol quote = Some sym
             ∧ is_nan (Server.last quote) = false
             ∧ entry = JS.JSON_number (Server.last quote)
     | None => Server.quotePrices quotes !! sym = None
     end)
  ∧ (∀ x, match JS.JSON_number x with
          | Some y => is_finite x = true ∧ is_finite y = true
          | None => is_finite x = false
          end)
  ∧ (∀ list, Server.quotesBody (Some list)
             = Server.quotesBody (Some (List.filter keptQuote list)))
  ∧ keptQuote (Server.mkQuote (Some "ACME") infinity) = true
  ∧ is_finite infinity = false
  ∧ Server.quotePrices (Some [Server.mkQuote (Some "ACME") infinity])
    = {[ "ACME" := infinity ]}
  ∧ Server.quotesBody (Some [Server.mkQuote (Some "ACME") infinity])
    = {[ "ACME" := None ]}
  ∧ Server.quotesBody
      (Some [ Server.mkQuote None 10; Server.mkQuote (Some "MSFT") nan;
              Server.mkQuote (Some "AAPL") 175.3 ])
    = {[ "AAPL" := Some 175.3%float ]}.
Proof.
  split; [|split; [|split]].
  - intros quotes sym. unfold Server.quotesBody. rewrite lookup_fmap.
    destruct (Server.quotePrices quotes !! sym) as [price|] eqn:Hprice;
      simpl; [|done].
    apply quotePrices_entry in Hprice
      as (Hnan & Hne & list & quote & Hq & Hin & Hs & <-).
    split; [done|]. by exists list, quote.
  - apply JSON_number_finite.
  - intros list. unfold Server.quotesBody, Server.quotePrices.
    by rewrite addQuote_filter.
  - repeat split.
Qed.

(* ================================================================== *)
(** * Further properties of the front ends and the server *)

(* ------------------------------------------------------------------ *)
(** ** Keys of an object under updates *)

Section KeyFacts.
Context {A : Type} (key : A → string).

Lemma keys_map (f : A → A) o :
  (∀ a, key (f a) = key a) → JS.keys key (map f o) = JS.keys key o.
Proof.
  intros Hf. unfold JS.keys. induction o as [|a o IH]; simpl; [done|].
  by rewrite Hf, IH.
Qed.

Lemma keys_set_old a o :
  key a ∈ JS.keys key o → JS.keys key (JS.set key a o) = JS.keys key o.
Proof.
  unfold JS.keys. induction o as [|b o IH]; simpl.
  - intros H. by apply elem_of_nil in H.
  - intros Hin. destruct (decide (key b = key a)) as [Hk|Hk]; simpl.
    + by rewrite Hk.
    + f_equal. apply IH. apply elem_of_cons in Hin as [Heq|Hin]; [|done].
      by destruct Hk.
Qed.

Lemma keys_set_new a o :
  key a ∉ JS.keys key o → JS.keys key (JS.set key a o) = JS.keys key o ++ [key a].
Proof.
  unfold JS.keys. induction o as [|b o IH]; simpl; [done|].
  rewrite not_elem_of_cons. intros [Hne Hout].
  rewrite decide_False by done. simpl. f_equal. by apply IH.
Qed.

Lemma set_new a o : key a ∉ JS.keys key o → JS.set key a o = o ++ [a].
Proof.
  unfold JS.keys. induction o as [|b o IH]; simpl; [done|].
  rewrite not_elem_of_cons. intros [Hne Hout].
  rewrite decide_False by done. f_equal. by apply IH.
Qed.

Lemma NoDup_keys_set a o :
  NoDup (JS.keys key o) → NoDup (JS.keys key (JS.set key a o)).
Proof.
  intros Hnd. destruct (decide (key a ∈ JS.keys key o)) as [Hin|Hout].
  - by rewrite keys_set_old.
  - rewrite keys_set_new by done. apply NoDup_app.
    split; [done|]. split; [|apply NoDup_singleton].
    intros k Hk ->%list_elem_of_singleton. done.
Qed.

Lemma NoDup_keys_delete k o :
  NoDup (JS.keys key o) → NoDup (JS.keys key (JS.delete key k o)).
Proof.
  unfold JS.keys, JS.delete. induction o as [|b o IH]; simpl; [done|].
  intros [Hb Hnd]%NoDup_cons.
  destruct (decide (key b ≠ k)) as [Hk|Hk].
  - rewrite filter_cons_True by done. simpl. apply NoDup_cons. split; [|by apply IH].
    intros (c & Hc & Hin)%(list_elem_of_fmap key).
    apply list_elem_of_filter in Hin as [_ Hin]. apply Hb.
    rewrite Hc. by apply list_elem_of_fmap_2.
  - rewrite filter_cons_False by done. by apply IH.
Qed.

Lemma get_elem a o :
  NoDup (JS.keys key o) → a ∈ o → JS.get key (key a) o = Some a.
Proof.
  unfold JS.keys. induction o as [|b o IH]; simpl.
  - intros _ H. by apply elem_of_nil in H.
  - intros [Hb Hnd]%NoDup_cons [->|Hin]%elem_of_cons.
    + by rewrite decide_True.
    + rewrite decide_False; [by apply IH|].
      intros Hk. apply Hb. rewrite Hk. by apply list_elem_of_fmap_2.
Qed.

End KeyFacts.

(* ------------------------------------------------------------------ *)
(** ** [LocalStore]: a portfolio is always selected *)

Lemma local_filterHoldings_id id s p :
  LocalStore.portfolio_id (LocalStore.filterHoldings id s p) = LocalStore.portfolio_id p.
Proof. unfold LocalStore.filterHoldings. by destruct (decide _). Qed.

Lemma local_rename_id id n p :
  LocalStore.portfolio_id (LocalStore.rename id n p) = LocalStore.portfolio_id p.
Proof. unfold LocalStore.rename. by destruct (decide _). Qed.

Lemma local_updatePrices_id prices p :
  LocalStore.portfolio_id (LocalStore.updatePrices prices p) = LocalStore.portfolio_id p.
Proof. done. Qed.

(** Rewriting the portfolios in place keeps a state well formed. *)
Lemma local_wf_map (f : LocalStore.Portfolio → LocalStore.Portfolio) st interval stored :
  (∀ p, LocalStore.portfolio_id (f p) = LocalStore.portfolio_id p) →
  local_wf st →
  local_wf (LocalStore.mkState (map f (LocalStore.portfolios st))
              (LocalStore.currentPortfolioId st) interval stored).
Proof.
  intros Hf [Hnd Hcur]. split; simpl.
  - by rewrite keys_map.
  - unfold LocalStore.getCurrentPortfolio in *. simpl.
    destruct (LocalStore.currentPortfolioId st) as [cur|]; [|done].
    rewrite get_map by done. by apply fmap_is_Some.
Qed.

Lemma local_wf_act st a : local_wf st → local_wf (local_act st a).
Proof.
  intros Hwf. pose proof Hwf as [Hnd [p Hp]]. destruct a; simpl.
  - destruct (JS.get _ portfolioId _) as [q|] eqn:Hq; [|done].
    unfold LocalStore.switchPortfolio. rewrite Hq.
    split; [done|]. unfold LocalStore.getCurrentPortfolio. simpl. by rewrite Hq.
  - unfold LocalStore.addStock_push, LocalStore.addStock_then. rewrite Hp.
    repeat case_match; simpl; try done.
    apply (local_wf_map (LocalStore.pushHolding _ _) st); [apply local_pushHolding_id|done].
  - unfold LocalStore.removeHolding. destruct confirm; [|done]. rewrite Hp.
    apply (local_wf_map (LocalStore.filterHoldings _ _) st); [apply local_filterHoldings_id|done].
  - unfold LocalStore.createPortfolio. destruct (JS.falsy_str newName); [done|].
    split; simpl.
    + by apply NoDup_keys_set.
    + unfold LocalStore.getCurrentPortfolio. simpl.
      rewrite (get_set LocalStore.portfolio_id
                 (LocalStore.mkPortfolio (LocalStore.newPortfolioId now) newName [])).
      done.
  - unfold LocalStore.savePortfolioName. rewrite Hp.
    destruct (JS.falsy_str newName); [done|].
    apply (local_wf_map (LocalStore.rename _ _) st); [apply local_rename_id|done].
  - destruct (decide (length (LocalStore.portfolios st) ≤ 1)) as [Hle|Hgt].
    { by rewrite (proj1 (local_deletePortfolio_last st confirm Hle)). }
    destruct confirm.
    + destruct (local_deletePortfolio_other st p Hp ltac:(lia) Hnd)
        as (Hps & _ & _ & _ & q & _ & _ & Hq).
      split; [|by rewrite Hq]. rewrite Hps. by apply NoDup_keys_delete.
    + unfold LocalStore.deletePortfolio. rewrite Hp.
      by destruct (decide _).
  - destruct out; try done. simpl.
    apply (local_wf_map (LocalStore.updatePrices _) st); [apply local_updatePrices_id|done].
Qed.

Lemma local_wf_nonempty st : local_wf st → 1 ≤ length (LocalStore.portfolios st).
Proof.
  intros [_ [p Hp]]. unfold LocalStore.getCurrentPortfolio in Hp.
  destruct (LocalStore.currentPortfolioId st); [|done].
  apply get_Some in Hp as [Hin _].
  destruct (LocalStore.portfolios st); [by apply elem_of_nil in Hin|simpl; lia].
Qed.

(** X1: started without stored data, the [LocalStore] front end has one
    portfolio, selected; and whatever the user then does (switching, adding
    and removing holdings, creating, renaming and deleting portfolios) and
    whatever the quote requests answer, the portfolio ids stay distinct and
    a portfolio stays selected, so the list of portfolios never becomes
    empty. *)
Theorem local_store_always_selected :
  (∀ now, local_wf (LocalStore.constructor None now))
  ∧ (∀ st actions,
       local_wf st →
       local_wf (fold_left local_act actions st)
       ∧ 1 ≤ length (LocalStore.portfolios (fold_left local_act actions st))).
Proof.
  split.
  - intros now. split; simpl; [apply NoDup_singleton|].
    unfold LocalStore.getCurrentPortfolio. simpl. by rewrite decide_True.
  - intros st actions. revert st.
    induction actions as [|a actions IH]; intros st Hwf; simpl.
    + split; [done|by apply local_wf_nonempty].
    + by apply IH, local_wf_act.
Qed.

(** From the default store: create a second portfolio, delete it, try to
    delete the last one, and switch to an id that does not exist. *)
Lemma local_store_always_selected_witness :
  LocalStore.currentPortfolioId
    (fold_left local_act
       [ LCreatePortfolio "Income" 1700000000999; LDeletePortfolio true;
         LDeletePortfolio true; LSwitch "portfolio-0" ]
       (LocalStore.constructor None 1700000000123))
  = Some "portfolio-1700000000123"
  ∧ 1 ≤ length
        (LocalStore.portfolios
           (fold_left local_act
              [ LCreatePortfolio "Income" 1700000000999; LDeletePortfolio true;
                LDeletePortfolio true; LSwitch "portfolio-0" ]
              (LocalStore.constructor None 1700000000123))).
Proof.
  destruct local_store_always_selected as [Hinit Hkeep].
  split; [vm_compute; reflexivity|].
  apply (Hkeep (LocalStore.constructor None 1700000000123)), Hinit.
Defined.

(* ------------------------------------------------------------------ *)
(** ** [LocalStore]: removing a holding *)

Section OneKey.
Context {A : Type} (key : A → string).

(** In an object, a key names one value. *)
Lemma key_inj o a b :
  NoDup (JS.keys key o) → a ∈ o → b ∈ o → key a = key b → a = b.
Proof.
  intros Hnd Ha Hb Hk.
  pose proof (get_elem key a o Hnd Ha) as Hga.
  pose proof (get_elem key b o Hnd Hb) as Hgb.
  rewrite Hk, Hgb in Hga. by injection Hga.
Qed.

Lemma map_fixed (f : A → A) (o : list A) :
  (∀ a, a ∈ o → f a = a) → map f o = o.
Proof.
  induction o as [|a o IH]; simpl; [done|]. intros Hf.
  rewrite Hf by left. f_equal. apply IH. intros b Hb. apply Hf. by right.
Qed.

End OneKey.

Lemma local_current_elem st p :
  LocalStore.getCurrentPortfolio st = Some p →
  p ∈ LocalStore.portfolios st
  ∧ LocalStore.currentPortfolioId st = Some (LocalStore.portfolio_id p).
Proof.
  unfold LocalStore.getCurrentPortfolio.
  destruct (LocalStore.currentPortfolioId st) as [cur|]; [|done].
  by intros [Hin <-]%get_Some.
Qed.

Lemma local_current_map (f : LocalStore.Portfolio → LocalStore.Portfolio) st p
    interval stored :
  (∀ q, LocalStore.portfolio_id (f q) = LocalStore.portfolio_id q) →
  LocalStore.getCurrentPortfolio st = Some p →
  LocalStore.getCurrentPortfolio
    (LocalStore.mkState (map f (LocalStore.portfolios st))
       (LocalStore.currentPortfolioId st) interval stored) = Some (f p).
Proof.
  intros Hf. unfold LocalStore.getCurrentPortfolio. simpl.
  destruct (LocalStore.currentPortfolioId st) as [cur|]; [|done].
  rewrite get_map by done. by intros ->.
Qed.

(** X2: in [LocalStore], [removeHolding] confirmed by the user leaves in
    the current portfolio exactly the holdings with another symbol, in
    their order, touches no other portfolio and saves the result; a symbol
    that the portfolio does not hold is removed without any error and
    without any change to the portfolios; and nothing happens when the user
    does not confirm. *)
Theorem local_removeHolding_correct :
  ∀ st p symbolToRemove,
    local_wf st →
    LocalStore.getCurrentPortfolio st = Some p →
    let st' := (LocalStore.removeHolding st symbolToRemove true).1 in
    (∃ p', LocalStore.getCurrentPortfolio st' = Some p'
           ∧ LocalStore.name p' = LocalStore.name p
           ∧ LocalStore.holdings p'
             = filter (λ h, LocalStore.symbol h ≠ symbolToRemove)
                      (LocalStore.holdings p)
           ∧ ∀ h, h ∈ LocalStore.holdings p' → LocalStore.symbol h ≠ symbolToRemove)
    ∧ (∀ q, q ∈ LocalStore.portfolios st →
            LocalStore.portfolio_id q ≠ LocalStore.portfolio_id p →
            q ∈ LocalStore.portfolios st')
    ∧ LocalStore.localStorage st' = Some (LocalStore.portfolios st')
    ∧ ((∀ h, h ∈ LocalStore.holdings p → LocalStore.symbol h ≠ symbolToRemove) →
       LocalStore.portfolios st' = LocalStore.portfolios st
       ∧ ∀ message, ConsoleError message ∉
           (LocalStore.removeHolding st symbolToRemove true).2)
    ∧ LocalStore.removeHolding st symbolToRemove false
      = (st, [ShowConfirmation "Confirm Deletion" false]).
Proof.
  intros st p s [Hnd _] Hp. destruct (local_current_elem st p Hp) as [Hin Hcur].
  unfold LocalStore.removeHolding. rewrite Hp. cbn [negb fst snd].
  split; [|split; [|split; [|split]]].
  - exists (LocalStore.filterHoldings (LocalStore.portfolio_id p) s p).
    split.
    { apply (local_current_map (LocalStore.filterHoldings _ _) st p);
        [apply local_filterHoldings_id|done]. }
    unfold LocalStore.filterHoldings. rewrite decide_True by done. simpl.
    split; [done|]. split; [done|].
    by intros h [Hh _]%list_elem_of_filter.
  - intros q Hq Hne. simpl.
    apply (list_elem_of_fmap
             (LocalStore.filterHoldings (LocalStore.portfolio_id p) s)).
    exists q. split; [|done]. unfold LocalStore.filterHoldings.
    by rewrite decide_False.
  - done.
  - intros Hfresh. split.
    + simpl. apply map_fixed. intros q Hq. unfold LocalStore.filterHoldings.
      destruct (decide _) as [Hk|]; [|done].
      rewrite (key_inj LocalStore.portfolio_id _ q p Hnd Hq Hin Hk).
      destruct p as [pid pname phs]. simpl in *. f_equal.
      clear -Hfresh. induction phs as [|h phs IH]; [done|].
      rewrite filter_cons_True by (apply Hfresh; left).
      f_equal. apply IH. intros h' Hh'. apply Hfresh. by right.
    + intros message. simpl. rewrite !elem_of_cons, elem_of_nil. naive_solver.
  - done.
Qed.

(** Removing AAPL from the first portfolio of the sample store leaves MSFT
    there. *)
Lemma local_removeHolding_correct_witness :
  LocalStore.holdings <$>
    LocalStore.getCurrentPortfolio
      (LocalStore.removeHolding Sample.local "AAPL" true).1
  = Some [LocalStore.mkHolding "MSFT" 30 280 "2024-02-01" 295.50].
Proof.
  assert (local_wf Sample.local) as Hwf.
  { split; [|by eexists]. apply (bool_decide_unpack _). vm_compute. exact I. }
  destruct (local_removeHolding_correct Sample.local
              (LocalStore.mkPortfolio "portfolio-1" "Growth"
                 [ LocalStore.mkHolding "AAPL" 50 150.25 "2024-01-15" 175.30;
                   LocalStore.mkHolding "MSFT" 30 280 "2024-02-01" 295.50 ])
              "AAPL" Hwf eq_refl) as ((p' & Hp' & _ & Hh & _) & _).
  rewrite Hp'. simpl. rewrite Hh. reflexivity.
Defined.

(** Filtering out a symbol that no holding has keeps the holdings. *)
Lemma local_filter_fresh symbol (hs : list LocalStore.Holding) :
  (∀ h, h ∈ hs → LocalStore.symbol h ≠ symbol) →
  filter (λ h, LocalStore.symbol h ≠ symbol) hs = hs.
Proof.
  induction hs as [|h hs IH]; [done|]. intros Hfresh.
  rewrite filter_cons_True by (apply Hfresh; left).
  f_equal. apply IH. intros h' Hh'. apply Hfresh. by right.
Qed.

Lemma local_updatePrice_symbol prices h :
  LocalStore.symbol (LocalStore.updatePrice prices h) = LocalStore.symbol h.
Proof. unfold LocalStore.updatePrice. by destruct (prices !! _). Qed.

(** Pushing a holding with a new symbol on a portfolio and filtering the
    symbol out again gives back the portfolios. *)
Lemma local_push_filter ps p h :
  NoDup (JS.keys LocalStore.portfolio_id ps) → p ∈ ps →
  (∀ h', h' ∈ LocalStore.holdings p →
         LocalStore.symbol h' ≠ LocalStore.symbol h) →
  map (LocalStore.filterHoldings (LocalStore.portfolio_id p) (LocalStore.symbol h))
      (map (LocalStore.pushHolding (LocalStore.portfolio_id p) h) ps)
  = ps.
Proof.
  intros Hnd Hin Hfresh. rewrite map_map. apply map_fixed. intros q Hq.
  unfold LocalStore.filterHoldings, LocalStore.pushHolding.
  destruct (decide (LocalStore.portfolio_id q = LocalStore.portfolio_id p))
    as [Hk|Hk].
  - simpl. rewrite decide_True by done. simpl.
    rewrite (key_inj LocalStore.portfolio_id _ q p Hnd Hq Hin Hk).
    destruct p as [pid pname phs]. simpl in *. f_equal.
    rewrite filter_app, filter_cons_False, filter_nil, app_nil_r
      by (simpl; naive_solver).
    by apply local_filter_fresh.
  - by rewrite decide_False.
Qed.

(** The same when the prices have been reconciled in between: what is left
    are the reconciled portfolios. *)
Lemma local_push_update_filter prices ps p h :
  map (LocalStore.filterHoldings (LocalStore.portfolio_id p) (LocalStore.symbol h))
      (map (LocalStore.updatePrices prices) ps)
  = map (LocalStore.updatePrices prices)
        (map (LocalStore.filterHoldings (LocalStore.portfolio_id p)
                (LocalStore.symbol h)) ps).
Proof.
  rewrite !map_map. apply map_ext. intros q.
  unfold LocalStore.filterHoldings, LocalStore.updatePrices. simpl.
  destruct (decide _); [|done]. simpl. f_equal.
  induction (LocalStore.holdings q) as [|h' hs IH]; [done|]. simpl.
  destruct (decide (LocalStore.symbol h' ≠ LocalStore.symbol h)) as [Hs|Hs].
  - rewrite !filter_cons_True by (by rewrite ?local_updatePrice_symbol).
    simpl. by rewrite IH.
  - rewrite !filter_cons_False by (by rewrite ?local_updatePrice_symbol).
    done.
Qed.

(** A portfolio with one more holding is not the portfolio. *)
Lemma local_pushed_differs (f : LocalStore.Portfolio → LocalStore.Portfolio)
    ps p h :
  NoDup (JS.keys LocalStore.portfolio_id ps) → p ∈ ps →
  (∀ q, LocalStore.portfolio_id (f q) = LocalStore.portfolio_id q) →
  (∀ q, length (LocalStore.holdings (f q)) = length (LocalStore.holdings q)) →
  map f (map (LocalStore.pushHolding (LocalStore.portfolio_id p) h) ps) ≠ ps.
Proof.
  intros Hnd Hin Hid Hlen Heq.
  assert (f (LocalStore.pushHolding (LocalStore.portfolio_id p) h p)
          ∈ map f (map (LocalStore.pushHolding (LocalStore.portfolio_id p) h) ps))
    as Hp'.
  { apply (list_elem_of_fmap_2 f).
    by apply (list_elem_of_fmap_2 (LocalStore.pushHolding _ _)). }
  rewrite Heq in Hp'.
  apply (key_inj LocalStore.portfolio_id _ _ p Hnd) in Hp';
    [|done|by rewrite Hid, local_pushHolding_id].
  apply (f_equal (λ q, length (LocalStore.holdings q))) in Hp'.
  rewrite Hlen in Hp'. unfold LocalStore.pushHolding in Hp'.
  rewrite decide_True in Hp' by done. simpl in Hp'.
  rewrite length_app in Hp'. simpl in Hp'. lia.
Qed.

(** X3: in [LocalStore], adding a holding with a symbol that is new to the
    current portfolio and then removing that symbol gives back the
    selection, and the portfolios up to the prices that [addStock] has
    fetched on its way.  [addStock] ends with a quote request for the
    symbols of the store with the new holding; the portfolios after the
    removal are those that the answer to this request makes of the
    portfolios before the add, so they are the portfolios before the add
    when the request fails, and otherwise differ from them in the current
    prices that the answer quotes.  A removal that comes before the answer
    to the request ends in the same portfolios. *)
Theorem local_add_remove_roundtrip :
  ∀ st p symbol shares purchasePrice purchaseDate respond,
    local_wf st →
    LocalStore.getCurrentPortfolio st = Some p →
    validInput symbol shares purchasePrice purchaseDate →
    (∀ h, h ∈ LocalStore.holdings p → LocalStore.symbol h ≠ symbol) →
    let added :=
      (LocalStore.addStock st symbol shares purchasePrice purchaseDate
         respond).1 in
    let removed := (LocalStore.removeHolding added symbol true).1 in
    ∃ url,
      LocalStore.fetchRealTimePrices_request
        (LocalStore.addStock_push st symbol shares purchasePrice purchaseDate).1
      = Some url
      ∧ LocalStore.portfolios added ≠ LocalStore.portfolios st
      ∧ LocalStore.portfolios removed
        = LocalStore.portfolios
            (LocalStore.fetchRealTimePrices_resume st (respond url)).1
      ∧ LocalStore.portfolios removed
        = match respond url with
          | Prices prices =>
              map (LocalStore.updatePrices prices) (LocalStore.portfolios st)
          | _ => LocalStore.portfolios st
          end
      ∧ LocalStore.currentPortfolioId removed = LocalStore.currentPortfolioId st
      ∧ LocalStore.portfolios
          (LocalStore.fetchRealTimePrices_resume
             (LocalStore.removeHolding
                (LocalStore.addStock_push st symbol shares purchasePrice
                   purchaseDate).1
                symbol true).1
             (respond url)).1
        = LocalStore.portfolios removed.
Proof.
  intros st p s sh pp d respond [Hnd _] Hp Hvalid Hfresh.
  destruct (local_current_elem st p Hp) as [Hin Hcur].
  destruct (local_addStock_whole st p s sh pp d respond Hp Hvalid Hfresh)
    as (url & Hurl & Hwhole).
  exists url. split; [done|]. cbv zeta. rewrite Hwhole. cbn [fst].
  clear Hurl Hwhole. unfold LocalStore.addStock_push.
  rewrite (local_addStock_pushed _ st p) by done. cbn [fst].
  set (h := LocalStore.mkHolding s sh pp d pp).
  set (pushed := LocalStore.saveDataToLocalStorage _).
  assert (∀ h', h' ∈ LocalStore.holdings p →
                LocalStore.symbol h' ≠ LocalStore.symbol h) as Hfresh' by done.
  assert (LocalStore.getCurrentPortfolio pushed
          = Some (LocalStore.pushHolding (LocalStore.portfolio_id p) h p))
    as Hpushed.
  { apply (local_current_map (LocalStore.pushHolding _ _) st p);
      [apply local_pushHolding_id|done]. }
  assert (∀ st' q,
            LocalStore.getCurrentPortfolio st' = Some q →
            LocalStore.portfolio_id q = LocalStore.portfolio_id p →
            LocalStore.portfolios (LocalStore.removeHolding st' s true).1
            = map (LocalStore.filterHoldings (LocalStore.portfolio_id p)
                     (LocalStore.symbol h)) (LocalStore.portfolios st')
            ∧ LocalStore.currentPortfolioId
                (LocalStore.removeHolding st' s true).1
              = LocalStore.currentPortfolioId st') as Hremove.
  { intros st' q Hq Hid. unfold LocalStore.removeHolding. cbn [negb].
    rewrite Hq. cbn [fst]. by rewrite Hid. }
  destruct (Hremove pushed _ Hpushed (local_pushHolding_id _ _ _))
    as [Hearly _].
  change (LocalStore.portfolios pushed)
    with (map (LocalStore.pushHolding (LocalStore.portfolio_id p) h)
              (LocalStore.portfolios st)) in Hearly.
  rewrite local_push_filter in Hearly by done.
  destruct (respond url) as [| | |prices];
    cbn [LocalStore.fetchRealTimePrices_resume fst].
  1-3: destruct (Hremove pushed _ Hpushed (local_pushHolding_id _ _ _))
         as [-> ->];
    change (LocalStore.portfolios pushed)
      with (map (LocalStore.pushHolding (LocalStore.portfolio_id p) h)
                (LocalStore.portfolios st));
    rewrite local_push_filter by done;
    split; [|by repeat split];
    rewrite <- (map_id (map _ _)); by apply (local_pushed_differs id).
  set (priced := LocalStore.saveDataToLocalStorage _).
  assert (LocalStore.getCurrentPortfolio priced
          = Some (LocalStore.updatePrices prices
                    (LocalStore.pushHolding (LocalStore.portfolio_id p) h p)))
    as Hpriced.
  { apply (local_current_map (LocalStore.updatePrices prices) pushed);
      [apply local_updatePrices_id|done]. }
  destruct (Hremove priced _ Hpriced) as [-> ->].
  { by rewrite local_updatePrices_id, local_pushHolding_id. }
  change (LocalStore.portfolios priced)
    with (map (LocalStore.updatePrices prices)
              (map (LocalStore.pushHolding (LocalStore.portfolio_id p) h)
                   (LocalStore.portfolios st))).
  rewrite local_push_update_filter, local_push_filter by done.
  split.
  { apply (local_pushed_differs (LocalStore.updatePrices prices)); try done.
    intros q. simpl. by rewrite length_map. }
  split; [done|]. split; [done|]. split; [done|].
  simpl. by rewrite Hearly.
Qed.

(** NVDA is added to the sample store and removed again: when the quote
    request fails the portfolios are as before; when it is answered with
    180.5 for AAPL, the AAPL holding is left at 180.5. *)
Lemma local_add_remove_roundtrip_witness :
  LocalStore.portfolios
    (LocalStore.removeHolding
       (LocalStore.addStock Sample.local "NVDA" 20 120.5 "2024-04-01"
          (λ _, NetworkError)).1
       "NVDA" true).1
  = LocalStore.portfolios Sample.local
  ∧ (LocalStore.holdings <$>
       LocalStore.getCurrentPortfolio
         (LocalStore.removeHolding
            (LocalStore.addStock Sample.local "NVDA" 20 120.5 "2024-04-01"
               (λ _, Prices {[ "AAPL" := 180.5%float ]})).1
            "NVDA" true).1)
    = Some [ LocalStore.mkHolding "AAPL" 50 150.25 "2024-01-15" 180.5;
             LocalStore.mkHolding "MSFT" 30 280 "2024-02-01" 295.50 ].
Proof.
  assert (local_wf Sample.local) as Hwf.
  { split; [|by eexists]. apply (bool_decide_unpack _). vm_compute. exact I. }
  assert (validInput "NVDA" 20 120.5 "2024-04-01") as Hvalid by done.
  assert (∀ h, h ∈ [ LocalStore.mkHolding "AAPL" 50 150.25 "2024-01-15" 175.30;
                     LocalStore.mkHolding "MSFT" 30 280 "2024-02-01" 295.50 ] →
               LocalStore.symbol h ≠ "NVDA") as Hfresh.
  { intros h Hh. apply elem_of_cons in Hh as [->|Hh]; [done|].
    apply list_elem_of_singleton in Hh as ->. done. }
  split.
  - destruct (local_add_remove_roundtrip Sample.local
                (LocalStore.mkPortfolio "portfolio-1" "Growth"
                   [ LocalStore.mkHolding "AAPL" 50 150.25 "2024-01-15" 175.30;
                     LocalStore.mkHolding "MSFT" 30 280 "2024-02-01" 295.50 ])
                "NVDA" 20%float 120.5%float "2024-04-01" (λ _, NetworkError)
                Hwf eq_refl Hvalid Hfresh) as (url & _ & _ & _ & Hsame & _).
    exact Hsame.
  - destruct (local_add_remove_roundtrip Sample.local
                (LocalStore.mkPortfolio "portfolio-1" "Growth"
                   [ LocalStore.mkHolding "AAPL" 50 150.25 "2024-01-15" 175.30;
                     LocalStore.mkHolding "MSFT" 30 280 "2024-02-01" 295.50 ])
                "NVDA" 20%float 120.5%float "2024-04-01"
                (λ _, Prices {[ "AAPL" := 180.5%float ]})
                Hwf eq_refl Hvalid Hfresh)
      as (url & _ & _ & _ & Hprices & Hcur & _).
    unfold LocalStore.getCurrentPortfolio. rewrite Hcur, Hprices.
    reflexivity.
Defined.

(* ------------------------------------------------------------------ *)
(** ** A holding that is still at its purchase price *)

Lemma is_finite_spec x :
  is_finite x = match Prim2SF x with
                | S754_zero _ | S754_finite _ _ _ => true
                | _ => false
                end.
Proof.
  unfold is_finite, is_infinity. rewrite is_nan_spec, FloatAxioms.eqb_spec, abs_spec.
  change (Prim2SF infinity) with (S754_infinity false).
  by destruct (Prim2SF x) as [s|s| |s m e].
Qed.

(** A finite number minus itself is [+0]. *)
Lemma sub_diag_finite x : is_finite x = true → (x - x)%float = 0%float.
Proof.
  rewrite is_finite_spec. intros Hx. apply Prim2SF_inj.
  rewrite FloatAxioms.sub_spec, Prim2SF_zero. unfold SF64sub, SFsub.
  destruct (Prim2SF x) as [s|s| |s m e]; try done.
  - by destruct s.
  - simpl. by rewrite Z.sub_diag.
Qed.

(** Zero over a positive number, in percent, is [+0]. *)
Lemma zero_percent c : (0 <? c)%float = true → (0 / c * 100)%float = 0%float.
Proof.
  rewrite pos_spec. intros Hc.
  assert ((0 / c)%float = 0%float) as ->; [|reflexivity].
  apply Prim2SF_inj. rewrite FloatAxioms.div_spec, Prim2SF_zero.
  by destruct (Prim2SF c) as [s|s| |s m e]; try destruct s.
Qed.

Lemma percentOf_zero_gain c : JS.percentOf 0 c = 0%float.
Proof.
  unfold JS.percentOf. destruct (0 <? c)%float eqn:Hc; [|done].
  by apply zero_percent.
Qed.

(** X4: a holding whose current price is its purchase price, as every
    holding is when [addStock] has appended it or [loadDataFromApi] has
    loaded it, has a market value equal to its cost; when that cost is a
    finite number, its gain is exactly 0 and so is its percentage. *)
Theorem new_holding_has_no_gain :
  (∀ symbol shares purchasePrice purchaseDate,
     let h := LocalStore.mkHolding symbol shares purchasePrice purchaseDate
                purchasePrice in
     let m := LocalStore.calculateHoldingMetrics h in
     LocalStore.marketValue m = (shares * purchasePrice)%float
     ∧ (is_finite (shares * purchasePrice) = true →
        LocalStore.gainLoss m = 0%float ∧ LocalStore.gainLossPercent m = 0%float))
  ∧ (∀ row,
     let h := ApiStore.loadHolding row in
     let m := ApiStore.calculateHoldingMetrics h in
     ApiStore.currentPrice h = ApiStore.purchasePrice h
     ∧ ApiStore.marketValue m
       = (ApiStore.row_shares row * ApiStore.row_purchasePrice row)%float
     ∧ (is_finite (ApiStore.row_shares row * ApiStore.row_purchasePrice row) = true →
        ApiStore.gainLoss m = 0%float ∧ ApiStore.gainLossPercent m = 0%float)).
Proof.
  split.
  - intros s sh pp d h m. split; [done|]. intros Hfin. subst m h.
    unfold LocalStore.calculateHoldingMetrics. simpl.
    rewrite (sub_diag_finite _ Hfin). split; [done|]. apply percentOf_zero_gain.
  - intros row h m. split; [done|]. split; [done|]. intros Hfin. subst m h.
    unfold ApiStore.calculateHoldingMetrics. simpl.
    rewrite (sub_diag_finite _ Hfin). split; [done|]. apply percentOf_zero_gain.
Qed.

(** Twenty shares bought at 120.5 show a value of 2410 and no gain. *)
Lemma new_holding_has_no_gain_witness :
  is_finite (20 * 120.5) = true
  ∧ LocalStore.calculateHoldingMetrics
      (LocalStore.mkHolding "NVDA" 20 120.5 "2024-04-01" 120.5)
    = LocalStore.mkHoldingMetrics 2410 0 0.
Proof.
  destruct new_holding_has_no_gain as [Hlocal _].
  destruct (Hlocal "NVDA" 20%float 120.5%float "2024-04-01") as [Hmv Hgain].
  destruct (Hgain eq_refl) as [Hg Hp].
  split; [reflexivity|].
  destruct (LocalStore.calculateHoldingMetrics _) as [mv g pc]. simpl in *.
  rewrite Hmv, Hg, Hp. reflexivity.
Defined.

(* ------------------------------------------------------------------ *)
(** ** [LocalStore]: the totals after adding a holding *)

Lemma sum_snoc l x : JS.sum (l ++ [x]) = (JS.sum l + x)%float.
Proof. unfold JS.sum. by rewrite fold_left_app. Qed.

Lemma local_totalValue_snoc name id hs h :
  LocalStore.totalValue
    (LocalStore.calculatePortfolioTotals (LocalStore.mkPortfolio id name (hs ++ [h])))
  = (LocalStore.totalValue
       (LocalStore.calculatePortfolioTotals (LocalStore.mkPortfolio id name hs))
     + LocalStore.shares h * LocalStore.currentPrice h)%float
  ∧ LocalStore.totalGainLoss
      (LocalStore.calculatePortfolioTotals (LocalStore.mkPortfolio id name (hs ++ [h])))
    = (LocalStore.totalValue
         (LocalStore.calculatePortfolioTotals (LocalStore.mkPortfolio id name hs))
       + LocalStore.shares h * LocalStore.currentPrice h
       - (JS.sum (map (λ h, (LocalStore.shares h * LocalStore.purchasePrice h)%float)
                      hs)
          + LocalStore.shares h * LocalStore.purchasePrice h))%float.
Proof.
  unfold LocalStore.calculatePortfolioTotals, LocalStore.addHoldingTotals.
  rewrite !(fold_totals
              (λ h, (LocalStore.shares h * LocalStore.currentPrice h)%float)
              (λ h, (LocalStore.shares h * LocalStore.purchasePrice h)%float)).
  cbn [LocalStore.holdings]. rewrite !map_app. simpl.
  fold (JS.sum (map (λ h, (LocalStore.shares h * LocalStore.currentPrice h)%float)
                    hs ++ [(LocalStore.shares h * LocalStore.currentPrice h)%float])).
  fold (JS.sum (map (λ h, (LocalStore.shares h * LocalStore.purchasePrice h)%float)
                    hs ++ [(LocalStore.shares h * LocalStore.purchasePrice h)%float])).
  rewrite !sum_snoc. done.
Qed.

Lemma local_updatePrice_cost prices (hs : list LocalStore.Holding) :
  map (λ h, (LocalStore.shares h * LocalStore.purchasePrice h)%float)
      (map (LocalStore.updatePrice prices) hs)
  = map (λ h, (LocalStore.shares h * LocalStore.purchasePrice h)%float) hs.
Proof.
  rewrite map_map. apply map_ext. intros h. unfold LocalStore.updatePrice.
  by destruct (prices !! _).
Qed.

(** X5: in [LocalStore], a successful [addStock] returns with the total
    value of the current portfolio at the value of its holdings as the
    answer to the quote request of [addStock] has reconciled them, plus the
    shares of the new holding times the price the answer quotes for its
    symbol (one more addition at the end of the running sum); the total
    cost is raised by shares * purchasePrice, and the new total gain is the
    difference of the two sums.  When the request fails, or quotes none of
    the symbols of the portfolio, the total value is raised by exactly
    shares * purchasePrice. *)
Theorem local_addStock_totals :
  ∀ st p symbol shares purchasePrice purchaseDate respond,
    LocalStore.getCurrentPortfolio st = Some p →
    validInput symbol shares purchasePrice purchaseDate →
    (∀ h, h ∈ LocalStore.holdings p → LocalStore.symbol h ≠ symbol) →
    ∃ url p',
      LocalStore.fetchRealTimePrices_request
        (LocalStore.addStock_push st symbol shares purchasePrice purchaseDate).1
      = Some url
      ∧ LocalStore.getCurrentPortfolio
          (LocalStore.addStock st symbol shares purchasePrice purchaseDate
             respond).1
        = Some p'
      ∧ let reconciled :=
          match respond url with
          | Prices prices => LocalStore.updatePrices prices p
          | _ => p
          end in
        let price := quoted (respond url) symbol purchasePrice in
        LocalStore.totalValue (LocalStore.calculatePortfolioTotals p')
        = (LocalStore.totalValue (LocalStore.calculatePortfolioTotals reconciled)
           + shares * price)%float
        ∧ LocalStore.totalGainLoss (LocalStore.calculatePortfolioTotals p')
          = (LocalStore.totalValue (LocalStore.calculatePortfolioTotals reconciled)
             + shares * price
             - (JS.sum (map (λ h, (LocalStore.shares h
                                   * LocalStore.purchasePrice h)%float)
                            (LocalStore.holdings p))
                + shares * purchasePrice))%float.
Proof.
  intros st p s sh pp d respond Hp Hvalid Hfresh.
  destruct (local_addStock_accepted st p s sh pp d respond Hp Hvalid Hfresh)
    as (_ & _ & _ & _ & url & Hurl & _ & _ & p' & Hp' & Hh).
  exists url, p'. split; [done|]. split; [done|]. cbv zeta.
  destruct p' as [id' name' hs']. simpl in Hh. subst hs'.
  destruct (respond url) as [| | |prices]; unfold quoted.
  1-3: destruct p as [id name hs]; cbn [LocalStore.holdings];
    destruct (local_totalValue_snoc name' id' hs
                (LocalStore.mkHolding s sh pp d pp)) as [-> ->];
    unfold LocalStore.calculatePortfolioTotals; done.
  rewrite map_app. cbn [map].
  destruct (local_totalValue_snoc name' id'
              (map (LocalStore.updatePrice prices) (LocalStore.holdings p))
              (LocalStore.updatePrice prices (LocalStore.mkHolding s sh pp d pp)))
    as [-> ->].
  rewrite local_updatePrice_cost.
  assert (LocalStore.updatePrice prices (LocalStore.mkHolding s sh pp d pp)
          = LocalStore.mkHolding s sh pp d (default pp (prices !! s))) as ->.
  { unfold LocalStore.updatePrice. simpl. by destruct (prices !! s). }
  unfold LocalStore.calculatePortfolioTotals. done.
Qed.

(** The first portfolio of the sample store is worth 17630.  With twenty
    shares of NVDA at 120.5 it is worth 20040 when the quote request of
    [addStock] fails, and 20300 when the answer quotes AAPL at 180.5. *)
Lemma local_addStock_totals_witness :
  (LocalStore.totalValue ∘ LocalStore.calculatePortfolioTotals) <$>
    LocalStore.getCurrentPortfolio Sample.local = Some 17630%float
  ∧ (LocalStore.totalValue ∘ LocalStore.calculatePortfolioTotals) <$>
      LocalStore.getCurrentPortfolio
        (LocalStore.addStock Sample.local "NVDA" 20 120.5 "2024-04-01"
           (λ _, NetworkError)).1
    = Some 20040%float
  ∧ (LocalStore.totalValue ∘ LocalStore.calculatePortfolioTotals) <$>
      LocalStore.getCurrentPortfolio
        (LocalStore.addStock Sample.local "NVDA" 20 120.5 "2024-04-01"
           (λ _, Prices {[ "AAPL" := 180.5%float ]})).1
    = Some 20300%float.
Proof.
  assert (validInput "NVDA" 20 120.5 "2024-04-01") as Hvalid by done.
  assert (∀ h, h ∈ [ LocalStore.mkHolding "AAPL" 50 150.25 "2024-01-15" 175.30;
                     LocalStore.mkHolding "MSFT" 30 280 "2024-02-01" 295.50 ] →
               LocalStore.symbol h ≠ "NVDA") as Hfresh.
  { intros h Hh. apply elem_of_cons in Hh as [->|Hh]; [done|].
    apply list_elem_of_singleton in Hh as ->. done. }
  split; [reflexivity|]. split.
  - destruct (local_addStock_totals Sample.local
                (LocalStore.mkPortfolio "portfolio-1" "Growth"
                   [ LocalStore.mkHolding "AAPL" 50 150.25 "2024-01-15" 175.30;
                     LocalStore.mkHolding "MSFT" 30 280 "2024-02-01" 295.50 ])
                "NVDA" 20%float 120.5%float "2024-04-01" (λ _, NetworkError)
                eq_refl Hvalid Hfresh)
      as (url & p' & _ & -> & Hv & _).
    simpl. unfold compose. rewrite Hv. reflexivity.
  - destruct (local_addStock_totals Sample.local
                (LocalStore.mkPortfolio "portfolio-1" "Growth"
                   [ LocalStore.mkHolding "AAPL" 50 150.25 "2024-01-15" 175.30;
                     LocalStore.mkHolding "MSFT" 30 280 "2024-02-01" 295.50 ])
                "NVDA" 20%float 120.5%float "2024-04-01"
                (λ _, Prices {[ "AAPL" := 180.5%float ]})
                eq_refl Hvalid Hfresh)
      as (url & p' & _ & -> & Hv & _).
    simpl. unfold compose. rewrite Hv. reflexivity.
Defined.

(* ------------------------------------------------------------------ *)
(** ** Reconciling twice, and the request after a reconciliation *)

Lemma api_updatePrice_idem prices h :
  ApiStore.updatePrice prices (ApiStore.updatePrice prices h)
  = ApiStore.updatePrice prices h.
Proof.
  unfold ApiStore.updatePrice.
  destruct (prices !! ApiStore.symbol h) as [price|] eqn:E; simpl; by rewrite E.
Qed.

Lemma local_updatePrice_idem prices h :
  LocalStore.updatePrice prices (LocalStore.updatePrice prices h)
  = LocalStore.updatePrice prices h.
Proof.
  unfold LocalStore.updatePrice.
  destruct (prices !! LocalStore.symbol h) as [price|] eqn:E; simpl; by rewrite E.
Qed.

Lemma map_idem {A} (f : A → A) (l : list A) :
  (∀ a, f (f a) = f a) → map f (map f l) = map f l.
Proof. intros Hf. rewrite map_map. apply map_ext. intros a. apply Hf. Qed.

Lemma local_updatePrices_idem prices p :
  LocalStore.updatePrices prices (LocalStore.updatePrices prices p)
  = LocalStore.updatePrices prices p.
Proof.
  unfold LocalStore.updatePrices. simpl. f_equal.
  apply map_idem, local_updatePrice_idem.
Qed.

(** X6: a price table that arrives a second time changes nothing: the
    store after the second reconciliation is the store after the first,
    in both front ends, and the second pass renders like the first. *)
Theorem fetchRealTimePrices_idempotent :
  (∀ (st : ApiStore.State) prices,
     ApiStore.fetchRealTimePrices_resume
       (ApiStore.fetchRealTimePrices_resume st (Prices prices)).1 (Prices prices)
     = ApiStore.fetchRealTimePrices_resume st (Prices prices))
  ∧ (∀ (st : LocalStore.State) prices,
     LocalStore.fetchRealTimePrices_resume
       (LocalStore.fetchRealTimePrices_resume st (Prices prices)).1 (Prices prices)
     = LocalStore.fetchRealTimePrices_resume st (Prices prices)).
Proof.
  split.
  - intros st prices. simpl. by rewrite (map_idem _ _ (api_updatePrice_idem prices)).
  - intros st prices. simpl. unfold LocalStore.saveDataToLocalStorage. simpl.
    by rewrite (map_idem _ _ (local_updatePrices_idem prices)).
Qed.

Lemma local_allSymbols_updatePrices prices ps s0 :
  fold_left
    (λ allSymbols p,
       fold_left (λ allSymbols h, JS.Set_add allSymbols (LocalStore.symbol h))
                 (LocalStore.holdings p) allSymbols)
    (map (LocalStore.updatePrices prices) ps) s0
  = fold_left
      (λ allSymbols p,
         fold_left (λ allSymbols h, JS.Set_add allSymbols (LocalStore.symbol h))
                   (LocalStore.holdings p) allSymbols)
      ps s0.
Proof.
  revert s0. induction ps as [|p ps IH]; intros s0; simpl; [done|].
  rewrite IH. f_equal. generalize (LocalStore.holdings p). intros hs. revert s0.
  induction hs as [|h hs IHh]; intros s0; simpl; [done|].
  rewrite IHh. f_equal. f_equal. unfold LocalStore.updatePrice.
  by destruct (prices !! LocalStore.symbol h).
Qed.

(** X7: however a quote request ends, the next request asks for the same
    symbols in the same order: reconciliation changes prices only. *)
Theorem fetchRealTimePrices_request_stable :
  (∀ (st : ApiStore.State) out,
     ApiStore.fetchRealTimePrices_request
       (ApiStore.fetchRealTimePrices_resume st out).1
     = ApiStore.fetchRealTimePrices_request st)
  ∧ (∀ (st : LocalStore.State) out,
     LocalStore.fetchRealTimePrices_request
       (LocalStore.fetchRealTimePrices_resume st out).1
     = LocalStore.fetchRealTimePrices_request st).
Proof.
  split.
  - intros st [| | |prices]; try done.
    unfold ApiStore.fetchRealTimePrices_request, ApiStore.allSymbols. simpl.
    rewrite map_map.
    rewrite (map_ext (λ x, ApiStore.symbol (ApiStore.updatePrice prices x))
                     ApiStore.symbol); [done|].
    intros h. unfold ApiStore.updatePrice. by destruct (prices !! _).
  - intros st [| | |prices]; try done.
    unfold LocalStore.fetchRealTimePrices_request, LocalStore.allSymbols. simpl.
    by rewrite local_allSymbols_updatePrices.
Qed.

(* ------------------------------------------------------------------ *)
(** ** One interval at a time *)

Section OneTimer.

Context {State : Type}.
Variable request : State → option string.
Variable resume : State → FetchOutcome → State * list Effect.
Variable priceUpdateInterval : State → option nat.
Variable set_priceUpdateInterval : option nat → State → State.

Hypothesis get_set_interval :
  ∀ h st, priceUpdateInterval (set_priceUpdateInterval h st) = h.
Hypothesis resume_interval :
  ∀ st out, priceUpdateInterval (resume st out).1 = priceUpdateInterval st.

Lemma clearInterval_one h : Scheduler.clearInterval h [h] = [].
Proof. unfold Scheduler.clearInterval. by rewrite filter_cons_False by naive_solver. Qed.

Lemma startPriceUpdates_one r :
  Scheduler.timers r = option_list (priceUpdateInterval (Scheduler.app r)) →
  let r' := Scheduler.startPriceUpdates request priceUpdateInterval
              set_priceUpdateInterval r in
  Scheduler.timers r' = [Scheduler.nextHandle r]
  ∧ priceUpdateInterval (Scheduler.app r') = Some (Scheduler.nextHandle r)
  ∧ Scheduler.nextHandle r' = S (Scheduler.nextHandle r).
Proof.
  intros Hone. unfold Scheduler.startPriceUpdates.
  destruct (callFetch_frame request r) as (Happ & Htim & Hnext & _).
  simpl. rewrite get_set_interval, Hnext, Happ, Htim, Hone.
  split; [|done].
  destruct (priceUpdateInterval (Scheduler.app r)) as [h|]; simpl; [|done].
  by rewrite clearInterval_one.
Qed.

Lemma step_one r e :
  Scheduler.timers r = option_list (priceUpdateInterval (Scheduler.app r)) →
  Scheduler.timers (Scheduler.step request resume r e)
  = option_list (priceUpdateInterval (Scheduler.app (Scheduler.step request resume r e))).
Proof.
  intros Hone. destruct e as [h|i out].
  - destruct (tick_frame request resume r h) as [-> ->]. done.
  - simpl. destruct (Scheduler.pending r !! i); [|done].
    pose proof (resume_interval (Scheduler.app r) out) as Hres.
    destruct (resume (Scheduler.app r) out) as [st effects]. simpl in *.
    by rewrite Hres.
Qed.

End OneTimer.

Lemma api_resume_interval st out :
  ApiStore.priceUpdateInterval (ApiStore.fetchRealTimePrices_resume st out).1
  = ApiStore.priceUpdateInterval st.
Proof. by destruct out. Qed.

Lemma local_resume_interval st out :
  LocalStore.priceUpdateInterval (LocalStore.fetchRealTimePrices_resume st out).1
  = LocalStore.priceUpdateInterval st.
Proof. by destruct out. Qed.

(** X8: [startPriceUpdates] never leaves two intervals armed.  When the
    armed intervals are the one the front end remembers (or none), a call
    of [startPriceUpdates] leaves exactly one interval armed, a new one,
    and remembers it; firings and answers of quote requests, failed or not,
    keep it that way. *)
Theorem startPriceUpdates_single_timer :
  (∀ r : ApiLoop.Runtime,
     api_one_timer r →
     Scheduler.timers (ApiLoop.startPriceUpdates r) = [Scheduler.nextHandle r]
     ∧ api_one_timer (ApiLoop.startPriceUpdates r)
     ∧ ∀ events, api_one_timer (ApiLoop.run r events))
  ∧ (∀ r : LocalLoop.Runtime,
     local_one_timer r →
     Scheduler.timers (LocalLoop.startPriceUpdates r) = [Scheduler.nextHandle r]
     ∧ local_one_timer (LocalLoop.startPriceUpdates r)
     ∧ ∀ events, local_one_timer (LocalLoop.run r events)).
Proof.
  split.
  - intros r Hone.
    destruct (startPriceUpdates_one ApiStore.fetchRealTimePrices_request
                ApiStore.priceUpdateInterval ApiLoop.set_priceUpdateInterval
                (λ _ _, eq_refl) r Hone) as (Ht & Hi & _).
    split; [done|]. split.
    { unfold api_one_timer, ApiLoop.startPriceUpdates. by rewrite Ht, Hi. }
    intros events. clear Ht Hi. revert r Hone.
    induction events as [|e events IH]; intros r Hone; [done|].
    apply IH.
    apply (step_one ApiStore.fetchRealTimePrices_request
             ApiStore.fetchRealTimePrices_resume ApiStore.priceUpdateInterval
             api_resume_interval r e Hone).
  - intros r Hone.
    destruct (startPriceUpdates_one LocalStore.fetchRealTimePrices_request
                LocalStore.priceUpdateInterval LocalLoop.set_priceUpdateInterval
                (λ _ _, eq_refl) r Hone) as (Ht & Hi & _).
    split; [done|]. split.
    { unfold local_one_timer, LocalLoop.startPriceUpdates. by rewrite Ht, Hi. }
    intros events. clear Ht Hi. revert r Hone.
    induction events as [|e events IH]; intros r Hone; [done|].
    apply IH.
    apply (step_one LocalStore.fetchRealTimePrices_request
             LocalStore.fetchRealTimePrices_resume LocalStore.priceUpdateInterval
             local_resume_interval r e Hone).
Qed.

(** Restarting the sample browser twice, with a firing and a failed answer
    in between, leaves interval 3 armed and nothing else. *)
Lemma startPriceUpdates_single_timer_witness :
  api_one_timer Sample.api_runtime
  ∧ Scheduler.timers
      (ApiLoop.startPriceUpdates
         (ApiLoop.run (ApiLoop.startPriceUpdates Sample.api_runtime)
            [Scheduler.Tick 2; Scheduler.Answer 0 NetworkError]))
    = [3].
Proof.
  destruct startPriceUpdates_single_timer as [Hapi _].
  assert (api_one_timer Sample.api_runtime) as H0 by reflexivity.
  split; [done|].
  destruct (Hapi Sample.api_runtime H0) as (_ & H1 & _).
  destruct (Hapi (ApiLoop.startPriceUpdates Sample.api_runtime) H1) as (_ & _ & H2).
  destruct (Hapi _ (H2 [Scheduler.Tick 2; Scheduler.Answer 0 NetworkError]))
    as (H3 & _).
  rewrite H3. reflexivity.
Defined.

(* ------------------------------------------------------------------ *)
(** ** The simulated price feed of the demo *)

Lemma SFcompare_antisym x y : SFcompare y x = CompOpp <$> SFcompare x y.
Proof.
  destruct x as [s|s| |s m e], y as [s'|s'| |s' m' e']; simpl;
    try done; try (by destruct s); try (by destruct s'); try (by destruct s, s').
  rewrite (Z.compare_antisym e e').
  destruct s, s'; simpl; try done;
    destruct (e ?= e')%Z; simpl; try done;
    by rewrite (Pos.compare_cont_antisym m m' Eq), ?CompOpp_involutive.
Qed.

Lemma leb_refl x : is_nan x = false → (x <=? x)%float = true.
Proof.
  rewrite is_nan_spec, FloatAxioms.leb_spec. unfold SFleb.
  destruct (Prim2SF x) as [s|s| |s m e]; try done; try by destruct s.
  by rewrite SFcompare_finite_refl.
Qed.

Lemma ltb_leb x y : (x <? y)%float = true → (x <=? y)%float = true.
Proof.
  rewrite FloatAxioms.ltb_spec, FloatAxioms.leb_spec. unfold SFltb, SFleb.
  by destruct (SFcompare _ _) as [[]|].
Qed.

Lemma compare_not_nan x y :
  is_nan x = false → is_nan y = false →
  is_Some (SFcompare (Prim2SF x) (Prim2SF y)).
Proof.
  rewrite !is_nan_spec.
  destruct (Prim2SF x) as [s|s| |s m e], (Prim2SF y) as [s'|s'| |s' m' e'];
    by simpl.
Qed.

Lemma leb_of_not_ltb x y :
  is_nan x = false → is_nan y = false →
  (y <? x)%float = false → (x <=? y)%float = true.
Proof.
  intros Hx Hy. destruct (compare_not_nan x y Hx Hy) as [c Hc].
  rewrite FloatAxioms.ltb_spec, FloatAxioms.leb_spec. unfold SFltb, SFleb.
  rewrite (SFcompare_antisym (Prim2SF x) (Prim2SF y)), Hc. by destruct c.
Qed.

Lemma Math_min_le b x :
  is_nan (JS.Math_min b x) = false → (JS.Math_min b x <=? b)%float = true.
Proof.
  unfold JS.Math_min.
  destruct (is_nan b) eqn:Hb, (is_nan x) eqn:Hx; simpl; try done.
  destruct (b <? x)%float eqn:Hbx; [intros _; by apply leb_refl|].
  destruct (x <? b)%float eqn:Hxb; [intros _; by apply ltb_leb|].
  destruct (get_sign b); intros _; [by apply leb_refl|by apply leb_of_not_ltb].
Qed.

(** [Math.max(min, Math.min(max, x))] lies between [min] and [max], unless
    it is NaN. *)
Lemma clamp_band a b x :
  (a <=? b)%float = true →
  is_nan (JS.Math_max a (JS.Math_min b x)) = false →
  (a <=? JS.Math_max a (JS.Math_min b x))%float = true
  ∧ (JS.Math_max a (JS.Math_min b x) <=? b)%float = true.
Proof.
  intros Hab. pose proof (Math_min_le b x) as Hmin. revert Hmin.
  generalize (JS.Math_min b x). intros m Hmin. unfold JS.Math_max.
  destruct (is_nan a) eqn:Ha, (is_nan m) eqn:Hm; simpl; try done.
  specialize (Hmin eq_refl).
  destruct (a <? m)%float eqn:Ham; [intros _; split; [by apply ltb_leb|done]|].
  destruct (m <? a)%float eqn:Hma; [intros _; split; [by apply leb_refl|done]|].
  destruct (get_sign a); intros _; (split; [|done]).
  - by apply leb_of_not_ltb.
  - by apply leb_refl.
Qed.

Lemma sub_nan_l a b : is_nan a = true → is_nan (a - b) = true.
Proof.
  rewrite !is_nan_spec, FloatAxioms.sub_spec.
  by destruct (Prim2SF a) as [s|s| |s m e].
Qed.

Lemma ltb_abs_nan c x : is_nan x = true → (c <? abs x)%float = false.
Proof.
  rewrite is_nan_spec, FloatAxioms.ltb_spec, abs_spec. unfold SFltb.
  destruct (Prim2SF x) as [s|s| |s m e]; try done. intros _.
  by destruct (Prim2SF c) as [s|s| |s m e].
Qed.

Lemma sub_diag_small x : (0.01 <? abs (x - x))%float = false.
Proof.
  destruct (is_finite x) eqn:Hx.
  - by rewrite sub_diag_finite.
  - apply ltb_abs_nan. revert Hx.
    rewrite is_finite_spec, is_nan_spec, FloatAxioms.sub_spec.
    destruct (Prim2SF x) as [s|s| |s m e]; try done. by destruct s.
Qed.

Lemma simulateInRange_spec priceRanges range random holding :
  priceRanges !! Demo.symbol holding = Some range →
  (Demo.range_min range <=? Demo.range_max range)%float = true →
  simulated priceRanges holding (Demo.simulateInRange range random holding).1
  ∧ ((Demo.simulateInRange range random holding).2 = false ↔
     (Demo.simulateInRange range random holding).1 = holding).
Proof.
  intros Hrange Hle. unfold Demo.simulateInRange. cbv zeta.
  set (newPrice := JS.Math_max _ _).
  destruct (0.01 <? JS.Math_abs (newPrice - Demo.currentPrice holding))%float
    eqn:Hmoved; simpl.
  - assert (newPrice ≠ Demo.currentPrice holding) as Hne.
    { intros Heq. rewrite Heq in Hmoved. unfold JS.Math_abs in Hmoved.
      by rewrite sub_diag_small in Hmoved. }
    assert (is_nan newPrice = false) as Hnan.
    { destruct (is_nan newPrice) eqn:Hnan; [|done].
      unfold JS.Math_abs in Hmoved.
      by rewrite (ltb_abs_nan _ _ (sub_nan_l _ _ Hnan)) in Hmoved. }
    destruct (clamp_band _ _ _ Hle Hnan) as [Hlo Hhi]. split.
    + right. by exists range, newPrice.
    + split; [done|]. intros Heq. destruct Hne. by rewrite <- Heq.
  - split; [by left|done].
Qed.

Lemma simulateHoldings_spec priceRanges random n holdings :
  ranges_ordered priceRanges →
  Forall2 (simulated priceRanges) holdings
    (Demo.simulateHoldings priceRanges random n holdings).1.1
  ∧ ((Demo.simulateHoldings priceRanges random n holdings).2 = false ↔
     (Demo.simulateHoldings priceRanges random n holdings).1.1 = holdings).
Proof.
  intros Hord. revert n.
  induction holdings as [|holding rest IH]; intros n; simpl; [done|].
  destruct (priceRanges !! Demo.symbol holding) as [range|] eqn:Hrange.
  - destruct (simulateInRange_spec priceRanges range (random n) holding Hrange
                (Hord _ _ Hrange)) as [Hsim Hupd].
    destruct (Demo.simulateInRange range (random n) holding) as [holding' updated].
    destruct (IH (S n)) as [Hrest Hhas].
    destruct (Demo.simulateHoldings priceRanges random (S n) rest)
      as [[rest' n'] hasUpdates].
    simpl in *. split; [by constructor|].
    rewrite orb_false_iff, Hupd, Hhas. split; [by intros [-> ->]|].
    intros Heq. by inversion Heq.
  - destruct (IH n) as [Hrest Hhas].
    destruct (Demo.simulateHoldings priceRanges random n rest)
      as [[rest' n'] hasUpdates].
    simpl in *. split; [constructor; [by left|done]|].
    rewrite Hhas. split; [by intros ->|]. intros Heq. by inversion Heq.
Qed.

Lemma simulatePortfolios_spec priceRanges random n portfolios :
  ranges_ordered priceRanges →
  Forall2 (simulated_portfolio priceRanges) portfolios
    (Demo.simulatePortfolios priceRanges random n portfolios).1.1
  ∧ ((Demo.simulatePortfolios priceRanges random n portfolios).2 = false ↔
     (Demo.simulatePortfolios priceRanges random n portfolios).1.1 = portfolios).
Proof.
  intros Hord. revert n.
  induction portfolios as [|portfolio rest IH]; intros n; simpl; [done|].
  destruct (simulateHoldings_spec priceRanges random n
              (Demo.holdings portfolio) Hord) as [Hsim Hupd].
  destruct (Demo.simulateHoldings priceRanges random n (Demo.holdings portfolio))
    as [[holdings' n'] updated].
  destruct (IH n') as [Hrest Hhas].
  destruct (Demo.simulatePortfolios priceRanges random n' rest)
    as [[rest' n''] hasUpdates].
  simpl in *. split; [by constructor|].
  rewrite orb_false_iff, Hupd, Hhas. split.
  - intros [-> ->]. by destruct portfolio.
  - intros Heq. inversion Heq as [[Hp Hr]]. split; [|done].
    rewrite <- Hp at 2. done.
Qed.

(** X9: [simulatePriceUpdates] keeps every price it moves inside the range
    of the symbol.  When every price range has its minimum at or below its
    maximum, a simulation step keeps the portfolios, their names and the
    holdings in place; each holding is left as it is or gets a different
    price between the minimum and the maximum of its symbol's range, with
    shares, purchase price and date unchanged; a holding whose symbol has
    no range is never touched; and the portfolio is rendered again exactly
    when some price has changed. *)
Theorem simulatePriceUpdates_in_range st random :
  ranges_ordered (Demo.priceRanges st) →
  let st' := (Demo.simulatePriceUpdates st random).1 in
  Demo.priceRanges st' = Demo.priceRanges st
  ∧ Demo.currentPortfolioId st' = Demo.currentPortfolioId st
  ∧ Forall2 (simulated_portfolio (Demo.priceRanges st))
      (Demo.portfolios st) (Demo.portfolios st')
  ∧ ((Demo.simulatePriceUpdates st random).2 = [Render]
       ∧ Demo.portfolios st' ≠ Demo.portfolios st
     ∨ (Demo.simulatePriceUpdates st random).2 = []
       ∧ Demo.portfolios st' = Demo.portfolios st).
Proof.
  intros Hord. unfold Demo.simulatePriceUpdates.
  destruct (simulatePortfolios_spec (Demo.priceRanges st) random 0
              (Demo.portfolios st) Hord) as [Hsim Hhas].
  destruct (Demo.simulatePortfolios (Demo.priceRanges st) random 0
              (Demo.portfolios st)) as [[portfolios' n] hasUpdates].
  simpl in *. do 3 (split; [done|]).
  destruct hasUpdates.
  - left. split; [done|]. intros Heq. by apply Hhas in Heq.
  - right. split; [done|]. by apply Hhas.
Qed.

(** In the demo data every range is ordered; with [Math.random()] at 0.875
    the first step moves AAPL from 175.30 to a price between 170 and 180
    and renders. *)
Lemma simulatePriceUpdates_in_range_witness :
  ranges_ordered (Demo.priceRanges Demo.constructor)
  ∧ (Demo.simulatePriceUpdates Demo.constructor (λ _, 0.875%float)).2 = [Render]
  ∧ Forall2 (simulated_portfolio (Demo.priceRanges Demo.constructor))
      (Demo.portfolios Demo.constructor)
      (Demo.portfolios
         (Demo.simulatePriceUpdates Demo.constructor (λ _, 0.875%float)).1).
Proof.
  assert (ranges_ordered (Demo.priceRanges Demo.constructor)) as Hord.
  { apply (bool_decide_unpack _). vm_compute. reflexivity. }
  split; [done|].
  destruct (simulatePriceUpdates_in_range Demo.constructor (λ _, 0.875%float) Hord)
    as (_ & _ & Hsim & _).
  split; [|done]. vm_compute. reflexivity.
Defined.

(* ------------------------------------------------------------------ *)
(** ** Removing a row of the demo table *)

Lemma demo_spliceHolding_id id index p :
  Demo.portfolio_id (Demo.spliceHolding id index p) = Demo.portfolio_id p.
Proof. unfold Demo.spliceHolding. by destruct (decide _). Qed.

(** X10: the demo's [removeHolding] removes exactly the row it is given.
    When the removal is confirmed and the index is a row of the current
    portfolio, that portfolio keeps its id and name and loses that one
    holding: the rows before it stay, the rows after it move up by one,
    portfolios with another id are left as they are, and the table is
    rendered; an index past the last row, or a declined confirmation,
    changes nothing. *)
Theorem demo_removeHolding_correct st index portfolio :
  Demo.getCurrentPortfolio st = Some portfolio →
  (index < length (Demo.holdings portfolio) →
   ∃ portfolio',
     Demo.getCurrentPortfolio (Demo.removeHolding st index true).1 = Some portfolio'
     ∧ Demo.portfolio_id portfolio' = Demo.portfolio_id portfolio
     ∧ Demo.name portfolio' = Demo.name portfolio
     ∧ S (length (Demo.holdings portfolio')) = length (Demo.holdings portfolio)
     ∧ (∀ i, i < index →
          Demo.holdings portfolio' !! i = Demo.holdings portfolio !! i)
     ∧ (∀ i, index ≤ i →
          Demo.holdings portfolio' !! i = Demo.holdings portfolio !! S i)
     ∧ (∀ q, q ∈ Demo.portfolios st →
          Demo.portfolio_id q ≠ Demo.portfolio_id portfolio →
          q ∈ Demo.portfolios (Demo.removeHolding st index true).1)
     ∧ (Demo.removeHolding st index true).2 = [Render])
  ∧ (length (Demo.holdings portfolio) ≤ index →
     Demo.removeHolding st index true = (st, []))
  ∧ Demo.removeHolding st index false = (st, []).
Proof.
  intros Hcur. unfold Demo.removeHolding. rewrite Hcur. split; [|split; [|done]].
  - intros Hlt. destruct (lookup_lt_is_Some_2 _ _ Hlt) as [h Hh]. rewrite Hh.
    exists (Demo.spliceHolding (Demo.portfolio_id portfolio) index portfolio).
    simpl. split.
    { unfold Demo.getCurrentPortfolio in *. simpl.
      rewrite (get_map Demo.portfolio_id) by apply demo_spliceHolding_id.
      by rewrite Hcur. }
    unfold Demo.spliceHolding at 1 2 3 4 5. rewrite decide_True by done. simpl.
    split; [done|]. split; [done|]. split.
    { rewrite length_delete by done. lia. }
    split; [intros i Hi; by apply list_lookup_delete_lt|].
    split; [intros i Hi; by apply list_lookup_delete_ge|].
    split; [|done]. intros q Hq Hne.
    apply list_elem_of_fmap. exists q. split; [|done].
    unfold Demo.spliceHolding. by rewrite decide_False.
  - intros Hge. by rewrite (lookup_ge_None_2 _ _ Hge).
Qed.

(** Removing row 1 (GOOGL) of the demo's first portfolio leaves two rows,
    with MSFT moved up to row 1. *)
Lemma demo_removeHolding_correct_witness :
  ∃ portfolio',
    Demo.getCurrentPortfolio (Demo.removeHolding Demo.constructor 1 true).1
    = Some portfolio'
    ∧ length (Demo.holdings portfolio') = 2
    ∧ Demo.symbol <$> Demo.holdings portfolio' !! 1 = Some "MSFT".
Proof.
  eassert (Demo.getCurrentPortfolio Demo.constructor = Some _) as Hcur
    by reflexivity.
  destruct (demo_removeHolding_correct Demo.constructor 1 _ Hcur) as [Hin _].
  destruct Hin as (portfolio' & Hget & _ & _ & Hlen & _ & Hup & _);
    [simpl; lia|].
  exists portfolio'. split; [done|]. split.
  - simpl in Hlen. lia.
  - by rewrite Hup.
Defined.

(* ------------------------------------------------------------------ *)
(** ** The cached access token of the server *)

Lemma getValidAccessToken_cached PUBLIC_API_SECRET_KEY apiAccessToken now reply now' t :
  Server.token apiAccessToken = Some t →
  t ≠ "" →
  (now < Server.expiresAt apiAccessToken - 60000)%Z →
  Server.getValidAccessToken PUBLIC_API_SECRET_KEY apiAccessToken now reply now'
  = Server.mkTokenCall apiAccessToken (inl t) false.
Proof.
  intros Ht Hne Hnow. unfold Server.getValidAccessToken. rewrite Ht.
  apply falsy_str_spec in Hne. rewrite Hne. simpl.
  by rewrite bool_decide_eq_true_2.
Qed.

Lemma getValidAccessToken_outcome PUBLIC_API_SECRET_KEY apiAccessToken now reply now' :
  let call := Server.getValidAccessToken PUBLIC_API_SECRET_KEY apiAccessToken
                now reply now' in
  match Server.outcome call with
  | inr _ => Server.cache call = apiAccessToken
  | inl t =>
      Server.token (Server.cache call) = Some t ∧ t ≠ ""
      ∧ if Server.posted call
        then ∃ validity, validity ≠ 0%Z
             ∧ Server.expiresAt (Server.cache call)
               = (now' + validity * 60 * 1000)%Z
             ∧ (validity = 55%Z ∨ reply = Server.TokenData (Some t) (Some validity))
        else Server.cache call = apiAccessToken
             ∧ (now < Server.expiresAt apiAccessToken - 60000)%Z
  end.
Proof.
  unfold Server.getValidAccessToken. cbv zeta.
  destruct (Server.token apiAccessToken) as [t|] eqn:Ht.
  2: { destruct PUBLIC_API_SECRET_KEY as [key|]; [|done].
       destruct (JS.falsy_str key); [done|].
       destruct reply as [|[newAccessToken|] validity]; try done.
       destruct (JS.falsy_str newAccessToken) eqn:Hnew; [done|]. simpl.
       apply falsy_str_spec in Hnew. split; [done|]. split; [done|].
       exists (Server.validityOr55 validity). unfold Server.validityOr55.
       destruct validity as [v|]; [|naive_solver].
       destruct (decide (v = 0%Z)); naive_solver. }
  destruct (negb (JS.falsy_str t) && bool_decide (now < Server.expiresAt apiAccessToken - 60000)%Z)
    eqn:Hvalid.
  - apply andb_true_iff in Hvalid as [Hne Hnow]. simpl.
    apply negb_true_iff, falsy_str_spec in Hne.
    apply bool_decide_eq_true in Hnow. done.
  - destruct PUBLIC_API_SECRET_KEY as [key|]; [|done].
    destruct (JS.falsy_str key); [done|].
    destruct reply as [|[newAccessToken|] validity]; try done.
    destruct (JS.falsy_str newAccessToken) eqn:Hnew; [done|]. simpl.
    apply falsy_str_spec in Hnew. split; [done|]. split; [done|].
    exists (Server.validityOr55 validity). unfold Server.validityOr55.
    destruct validity as [v|]; [|naive_solver].
    destruct (decide (v = 0%Z)); naive_solver.
Qed.

(** X11: [getValidAccessToken] reuses the token it has until a minute
    before its expiry.  After a call that returned a token, every call
    made earlier than one minute before the stored expiry returns that same
    token without asking the token service and leaves the stored token as
    it is, whatever the service would have answered and whether or not the
    secret key is still configured; a token obtained from the service
    without a reported validity is stored as expiring 55 minutes after its
    arrival; and a call that fails leaves the stored token as it was. *)
Theorem getValidAccessToken_reuse :
  (∀ PUBLIC_API_SECRET_KEY apiAccessToken now reply now' t,
     let call := Server.getValidAccessToken PUBLIC_API_SECRET_KEY apiAccessToken
                   now reply now' in
     Server.outcome call = inl t →
     (∀ PUBLIC_API_SECRET_KEY2 now2 reply2 now2',
        (now2 < Server.expiresAt (Server.cache call) - 60000)%Z →
        Server.getValidAccessToken PUBLIC_API_SECRET_KEY2 (Server.cache call)
          now2 reply2 now2'
        = Server.mkTokenCall (Server.cache call) (inl t) false)
     ∧ (Server.posted call = true →
        reply = Server.TokenData (Some t) None →
        Server.expiresAt (Server.cache call) = (now' + 3300000)%Z))
  ∧ (∀ PUBLIC_API_SECRET_KEY apiAccessToken now reply now' message,
     let call := Server.getValidAccessToken PUBLIC_API_SECRET_KEY apiAccessToken
                   now reply now' in
     Server.outcome call = inr message →
     Server.cache call = apiAccessToken).
Proof.
  split.
  - intros key apiAccessToken now reply now' t call Hout.
    pose proof (getValidAccessToken_outcome key apiAccessToken now reply now')
      as Hcall.
    cbv zeta in Hcall. fold call in Hcall. rewrite Hout in Hcall.
    destruct Hcall as (Htoken & Hne & Hposted). split.
    + intros key2 now2 reply2 now2' Hnow2.
      by apply getValidAccessToken_cached.
    + intros Hp Hreply. rewrite Hp in Hposted.
      destruct Hposted as (validity & _ & -> & [->|Hv]); [lia|].
      rewrite Hreply in Hv. done.
  - intros key apiAccessToken now reply now' message call Hout.
    pose proof (getValidAccessToken_outcome key apiAccessToken now reply now')
      as Hcall.
    cbv zeta in Hcall. fold call in Hcall. by rewrite Hout in Hcall.
Qed.

(** A server without a token is given ["tok"] at time 1200; fifty minutes
    later it still answers with it, without asking, though the secret key
    is gone and the service would fail. *)
Lemma getValidAccessToken_reuse_witness :
  Server.outcome
    (Server.getValidAccessToken (Some "secret") (Server.mkApiAccessToken None 0)
       1000 (Server.TokenData (Some "tok") None) 1200) = inl "tok"
  ∧ Server.getValidAccessToken None
      (Server.cache
         (Server.getValidAccessToken (Some "secret")
            (Server.mkApiAccessToken None 0) 1000
            (Server.TokenData (Some "tok") None) 1200))
      3001200 Server.TokenFailed 3001300
    = Server.mkTokenCall (Server.mkApiAccessToken (Some "tok") 3301200)
        (inl "tok") false.
Proof.
  destruct getValidAccessToken_reuse as [Hreuse _].
  destruct (Hreuse (Some "secret") (Server.mkApiAccessToken None 0) 1000%Z
              (Server.TokenData (Some "tok") None) 1200%Z "tok" eq_refl)
    as [Hlater _].
  split; [reflexivity|].
  rewrite Hlater; [reflexivity|]. vm_compute. reflexivity.
Defined.

(* ------------------------------------------------------------------ *)
(** ** From the query string to the instruments *)








(* ------------------------------------------------------------------ *)
(** ** Which quote a price of the table comes from *)

Lemma addQuote_fold_other quotes prices sym :
  (∀ q, q ∈ quotes → keptQuote q = true →
        Server.instrument_symbol q ≠ Some sym) →
  fold_left Server.addQuote quotes prices !! sym = prices !! sym.
Proof.
  revert prices. induction quotes as [|q quotes IH]; intros prices Hother;
    simpl; [done|].
  rewrite IH by (intros q' Hq'; apply Hother; by right).
  rewrite addQuote_kept. destruct (keptQuote q) eqn:Hk; [|done].
  destruct (Server.instrument_symbol q) as [s|] eqn:Hs; [|done].
  unfold JS.assign. destruct (decide (s = "__proto__")); [done|].
  apply lookup_insert_ne. intros ->.
  by apply (Hother q (list_elem_of_here _ _) Hk).
Qed.

Lemma addQuote_fold_proto quotes prices :
  fold_left Server.addQuote quotes prices !! "__proto__" = prices !! "__proto__".
Proof.
  revert prices. induction quotes as [|q quotes IH]; intros prices; simpl; [done|].
  rewrite IH, addQuote_kept. destruct (keptQuote q); [|done].
  destruct (Server.instrument_symbol q) as [s|]; [|done].
  unfold JS.assign. destruct (decide (s = "__proto__")) as [|Hne]; [done|].
  by apply lookup_insert_ne.
Qed.

(** X13: in the table of [/api/quotes] the last quote of a symbol wins.
    When the upstream answer has several quotes that the handler keeps for
    one symbol, the table has the price of the last of them; a symbol none
    of whose quotes is kept has no entry; and the symbol [__proto__] never
    has one. *)
Theorem quotePrices_last_wins :
  (∀ before quote after sym,
     Server.instrument_symbol quote = Some sym →
     keptQuote quote = true →
     sym ≠ "__proto__" →
     (∀ q, q ∈ after → keptQuote q = true →
           Server.instrument_symbol q ≠ Some sym) →
     Server.quotePrices (Some (before ++ quote :: after)) !! sym
     = Some (Server.last quote))
  ∧ (∀ quotes sym,
     (∀ q, q ∈ quotes → keptQuote q = true →
           Server.instrument_symbol q ≠ Some sym) →
     Server.quotePrices (Some quotes) !! sym = None)
  ∧ (∀ quotes, Server.quotePrices quotes !! "__proto__" = None).
Proof.
  split; [|split].
  - intros before quote after sym Hs Hk Hne Hafter. simpl.
    rewrite fold_left_app. simpl.
    rewrite addQuote_fold_other by done.
    rewrite addQuote_kept, Hk, Hs. unfold JS.assign.
    rewrite decide_False by done. apply lookup_insert_eq.
  - intros quotes sym Hother. simpl. by rewrite addQuote_fold_other.
  - intros [quotes|]; simpl; [|done]. by rewrite addQuote_fold_proto.
Qed.

(** Two quotes for AAPL, then one without a price: the second one wins. *)
Lemma quotePrices_last_wins_witness :
  Server.quotePrices
    (Some [Server.mkQuote (Some "AAPL") 170; Server.mkQuote (Some "AAPL") 171;
           Server.mkQuote (Some "AAPL") nan]) !! "AAPL"
  = Some 171%float.
Proof.
  destruct quotePrices_last_wins as [Hlast _].
  apply (Hlast [Server.mkQuote (Some "AAPL") 170]
           (Server.mkQuote (Some "AAPL") 171)
           [Server.mkQuote (Some "AAPL") nan] "AAPL"); try done.
  intros q Hq Hk. apply list_elem_of_singleton in Hq as ->. done.
Defined.

(* ------------------------------------------------------------------ *)
(** ** [ApiStore]: the portfolios and the holdings hang together *)

Section MoreKeyFacts.
Context {A : Type} (key : A → string).

Lemma get_is_Some k o : is_Some (JS.get key k o) ↔ k ∈ JS.keys key o.
Proof.
  pose proof (get_None key k o) as Hnone.
  destruct (JS.get key k o) as [a|].
  - split; [|by eexists]. intros _.
    destruct (decide (k ∈ JS.keys key o)) as [|Hout]; [done|].
    by apply Hnone in Hout.
  - split; [by intros [? ?]|]. intros Hin. by apply Hnone in Hin.
Qed.

Lemma get_set_is_Some a k o :
  is_Some (JS.get key k o) → is_Some (JS.get key k (JS.set key a o)).
Proof.
  intros Hk. destruct (decide (k = key a)) as [->|Hne].
  - rewrite get_set. by eexists.
  - by rewrite get_set_ne.
Qed.

Lemma get_set_key a k o : key a = k → JS.get key k (JS.set key a o) = Some a.
Proof. intros <-. apply get_set. Qed.

Lemma map_other (f : A → A) k o :
  (∀ a, key a ≠ k → f a = a) → k ∉ JS.keys key o → map f o = o.
Proof.
  intros Hf. unfold JS.keys. induction o as [|a o IH]; simpl; [done|].
  rewrite not_elem_of_cons. intros [Hne Hout].
  rewrite Hf by done. by rewrite IH.
Qed.

End MoreKeyFacts.

Lemma elem_of_listedIds id ps :
  id ∈ listedIds ps ↔ ∃ p, p ∈ ps ∧ id ∈ ApiStore.holdingIds p.
Proof.
  unfold listedIds. induction ps as [|a ps IH]; simpl.
  - split; [by intros ?%elem_of_nil|]. by intros (p & ?%elem_of_nil & _).
  - rewrite elem_of_app, IH. split.
    + intros [Ha|(p & Hp & Hid)]; [exists a|exists p]; split; try done;
        [left|by right].
    + intros (p & [->|Hp]%elem_of_cons & Hid); [by left|]. right. by exists p.
Qed.

(** A holding id is listed by one portfolio. *)
Lemma listed_owner ps p q id :
  NoDup (listedIds ps) → p ∈ ps → q ∈ ps →
  id ∈ ApiStore.holdingIds p → id ∈ ApiStore.holdingIds q → p = q.
Proof.
  unfold listedIds. induction ps as [|a ps IH]; simpl.
  - by intros _ ?%elem_of_nil.
  - intros (Ha & Hdisj & Hps)%NoDup_app [->|Hp]%elem_of_cons [->|Hq]%elem_of_cons
      Hidp Hidq; try done.
    + destruct (Hdisj id Hidp). apply elem_of_listedIds. by exists q.
    + destruct (Hdisj id Hidq). apply elem_of_listedIds. by exists p.
    + by apply IH.
Qed.

Lemma listedIds_map (f : ApiStore.Portfolio → ApiStore.Portfolio) ps :
  (∀ p, ApiStore.holdingIds (f p) = ApiStore.holdingIds p) →
  listedIds (map f ps) = listedIds ps.
Proof.
  intros Hf. unfold listedIds. induction ps as [|a ps IH]; simpl; [done|].
  by rewrite Hf, IH.
Qed.

Lemma listedIds_app ps qs : listedIds (ps ++ qs) = listedIds ps ++ listedIds qs.
Proof. unfold listedIds. by rewrite map_app, concat_app. Qed.

Lemma api_pushHoldingId_other id hid p :
  ApiStore.portfolio_id p ≠ id → ApiStore.pushHoldingId id hid p = p.
Proof. intros Hne. unfold ApiStore.pushHoldingId. by rewrite decide_False. Qed.

Lemma listedIds_push id hid ps :
  NoDup (JS.keys ApiStore.portfolio_id ps) →
  id ∈ JS.keys ApiStore.portfolio_id ps →
  listedIds (map (ApiStore.pushHoldingId id hid) ps) ≡ₚ hid :: listedIds ps.
Proof.
  unfold listedIds, JS.keys. induction ps as [|a ps IH]; simpl.
  - by intros _ ?%elem_of_nil.
  - intros [Ha Hnd]%NoDup_cons Hin.
    unfold ApiStore.pushHoldingId at 1.
    destruct (decide (ApiStore.portfolio_id a = id)) as [Heq|Hne]; simpl.
    + rewrite (map_other ApiStore.portfolio_id (ApiStore.pushHoldingId id hid) id).
      * rewrite <- app_assoc. simpl.
        by rewrite <- Permutation_middle.
      * intros p. apply api_pushHoldingId_other.
      * by rewrite <- Heq.
    + apply elem_of_cons in Hin as [Heq|Hin]; [by destruct Hne|].
      rewrite (IH Hnd Hin). by rewrite Permutation_middle.
Qed.

Lemma listedIds_filter id hid ps :
  listedIds (map (ApiStore.filterHoldingId id hid) ps) `sublist_of` listedIds ps.
Proof.
  unfold listedIds. induction ps as [|a ps IH]; simpl; [done|].
  apply sublist_app; [|done]. unfold ApiStore.filterHoldingId.
  destruct (decide _); [|done]. simpl. apply sublist_filter.
Qed.

Lemma listedIds_delete id ps :
  listedIds (JS.delete ApiStore.portfolio_id id ps) `sublist_of` listedIds ps.
Proof.
  unfold listedIds, JS.delete. induction ps as [|a ps IH]; simpl; [done|].
  destruct (decide (ApiStore.portfolio_id a ≠ id)).
  - rewrite filter_cons_True by done. simpl. by apply sublist_app.
  - rewrite filter_cons_False by done. by apply sublist_inserts_l.
Qed.

(** *** What [loadDataFromApi] builds *)

Lemma keys_loadHolding hrows :
  JS.keys ApiStore.holding_id (map ApiStore.loadHolding hrows)
  = map ApiStore.row_id hrows.
Proof. unfold JS.keys. rewrite map_map. by apply map_ext. Qed.

Lemma keys_toPortfolio data :
  JS.keys ApiStore.portfolio_id (map toPortfolio data) = map ApiStore.prow_id data.
Proof. unfold JS.keys. rewrite map_map. by apply map_ext. Qed.

Lemma listedIds_toPortfolio data : listedIds (map toPortfolio data) = rowIds data.
Proof. unfold listedIds, rowIds. by rewrite map_map. Qed.

Lemma rowIds_rows data : map ApiStore.row_id (rows data) = rowIds data.
Proof. unfold rows, rowIds. by rewrite concat_map, map_map. Qed.

Lemma keys_app {A} (key : A → string) o1 o2 :
  JS.keys key (o1 ++ o2) = JS.keys key o1 ++ JS.keys key o2.
Proof. unfold JS.keys. apply map_app. Qed.

Lemma load_holdings hrows hs :
  NoDup (JS.keys ApiStore.holding_id hs ++ map ApiStore.row_id hrows) →
  fold_left (λ hs h, JS.set ApiStore.holding_id (ApiStore.loadHolding h) hs) hrows hs
  = hs ++ map ApiStore.loadHolding hrows.
Proof.
  revert hs. induction hrows as [|h hrows IH]; intros hs Hnd; simpl.
  - by rewrite app_nil_r.
  - simpl in Hnd. rewrite set_new.
    + rewrite IH; [by rewrite <- app_assoc|].
      rewrite keys_app. simpl. by rewrite <- app_assoc.
    + apply NoDup_app in Hnd as (_ & Hdisj & _). intros Hin.
      apply (Hdisj _ Hin). left.
Qed.

Lemma load_fold data ps hs :
  NoDup (JS.keys ApiStore.portfolio_id ps ++ map ApiStore.prow_id data) →
  NoDup (JS.keys ApiStore.holding_id hs ++ rowIds data) →
  fold_left ApiStore.loadPortfolio data (ps, hs)
  = (ps ++ map toPortfolio data, hs ++ map ApiStore.loadHolding (rows data)).
Proof.
  revert ps hs. induction data as [|p data IH]; intros ps hs Hps Hhs; simpl.
  - by rewrite !app_nil_r.
  - unfold ApiStore.loadPortfolio at 2. simpl.
    change (rowIds (p :: data))
      with (map ApiStore.row_id (ApiStore.Holdings p) ++ rowIds data) in Hhs.
    change (rows (p :: data)) with (ApiStore.Holdings p ++ rows data).
    rewrite app_assoc in Hhs.
    rewrite load_holdings by (by apply NoDup_app in Hhs as (? & _ & _)).
    rewrite (set_new ApiStore.portfolio_id).
    + rewrite IH.
      * by rewrite map_app, <- !app_assoc.
      * rewrite keys_app. simpl. by rewrite <- app_assoc.
      * by rewrite keys_app, keys_loadHolding.
    + simpl in Hps. apply NoDup_app in Hps as (_ & Hdisj & _). intros Hin.
      apply (Hdisj _ Hin). left.
Qed.

Lemma loadDataFromApi_loaded st data :
  NoDup (map ApiStore.prow_id data) → NoDup (rowIds data) →
  ApiStore.loadDataFromApi st (ApiStore.Loaded data)
  = (ApiStore.mkState (map toPortfolio data)
       (map ApiStore.loadHolding (rows data))
       (ApiStore.prow_id <$> head data) (ApiStore.priceUpdateInterval st), []).
Proof.
  intros Hps Hhs. unfold ApiStore.loadDataFromApi.
  rewrite load_fold by done. simpl. by destruct data.
Qed.

(** *** The actions keep a state together *)

Lemma api_current_elem st p :
  ApiStore.getCurrentPortfolio st = Some p →
  p ∈ ApiStore.portfolios st
  ∧ ApiStore.currentPortfolioId st = Some (ApiStore.portfolio_id p).
Proof.
  unfold ApiStore.getCurrentPortfolio.
  destruct (ApiStore.currentPortfolioId st) as [cur|]; [|done].
  intros [Hin <-]%get_Some. done.
Qed.

Lemma api_current_map (f : ApiStore.Portfolio → ApiStore.Portfolio) st hs interval :
  (∀ p, ApiStore.portfolio_id (f p) = ApiStore.portfolio_id p) →
  ApiStore.getCurrentPortfolio
    (ApiStore.mkState (map f (ApiStore.portfolios st)) hs
       (ApiStore.currentPortfolioId st) interval)
  = f <$> ApiStore.getCurrentPortfolio st.
Proof.
  intros Hf. unfold ApiStore.getCurrentPortfolio. simpl.
  destruct (ApiStore.currentPortfolioId st) as [cur|]; [|done].
  by rewrite get_map.
Qed.

Lemma api_filterHoldingId_id id hid p :
  ApiStore.portfolio_id (ApiStore.filterHoldingId id hid p) = ApiStore.portfolio_id p.
Proof. unfold ApiStore.filterHoldingId. by destruct (decide _). Qed.

Lemma api_rename_id id n p :
  ApiStore.portfolio_id (ApiStore.rename id n p) = ApiStore.portfolio_id p.
Proof. unfold ApiStore.rename. by destruct (decide _). Qed.

Lemma api_rename_holdingIds id n p :
  ApiStore.holdingIds (ApiStore.rename id n p) = ApiStore.holdingIds p.
Proof. unfold ApiStore.rename. by destruct (decide _). Qed.

(** After a removal the portfolios list the removed holding no more. *)
Lemma api_removed_unlisted st holdingId :
  api_wf st → api_expected st (ARemoveHolding holdingId true true) →
  holdingId ∉ listedIds
    match ApiStore.getCurrentPortfolio st with
    | Some portfolio =>
        map (ApiStore.filterHoldingId (ApiStore.portfolio_id portfolio) holdingId)
            (ApiStore.portfolios st)
    | None => ApiStore.portfolios st
    end.
Proof.
  intros (Hkeys & Hnd & Hres & Hsel) Hexp. simpl in Hexp.
  destruct (ApiStore.getCurrentPortfolio st) as [p|] eqn:Hcur.
  - intros (q' & Hq' & Hid)%elem_of_listedIds.
    apply (list_elem_of_fmap (ApiStore.filterHoldingId _ _)) in Hq' as (q & -> & Hq).
    unfold ApiStore.filterHoldingId in Hid.
    destruct (decide (ApiStore.portfolio_id q = ApiStore.portfolio_id p)) as [Heq|Hne].
    + simpl in Hid. apply list_elem_of_filter in Hid as [Hid _]. done.
    + destruct Hexp as (p' & [= <-] & Hp).
      { apply elem_of_listedIds. by exists q. }
      apply api_current_elem in Hcur as [Hin _].
      destruct Hne. by rewrite (listed_owner _ q p holdingId Hnd Hq Hin Hid Hp).
  - intros Hin. by destruct (Hexp Hin) as (p & ? & _).
Qed.

Local Ltac api_wf_fields :=
  unfold api_wf;
  cbn [fst ApiStore.portfolios ApiStore.holdings ApiStore.currentPortfolioId
       ApiStore.priceUpdateInterval].

Lemma api_wf_act st a : api_wf st → api_expected st a → api_wf (api_act st a).
Proof.
  intros Hwf Hexp. pose proof Hwf as (Hkeys & Hnd & Hres & Hsel).
  destruct a; simpl.
  - (* loadDataFromApi *)
    destruct out as [data|]; [|done]. destruct Hexp as [Hps Hhs].
    rewrite loadDataFromApi_loaded by done. api_wf_fields.
    split; [by rewrite keys_toPortfolio|].
    rewrite listedIds_toPortfolio. split; [done|]. split.
    + apply Forall_forall. intros id Hid. apply get_is_Some.
      by rewrite keys_loadHolding, rowIds_rows.
    + destruct data as [|p data]; [by left|right].
      unfold ApiStore.getCurrentPortfolio. simpl. by rewrite decide_True.
  - (* switchPortfolio *)
    destruct (JS.get _ portfolioId _) as [q|] eqn:Hq; [|done].
    unfold ApiStore.switchPortfolio. rewrite Hq.
    do 3 (split; [done|]). right.
    unfold ApiStore.getCurrentPortfolio. simpl. by rewrite Hq.
  - (* addStock *)
    unfold ApiStore.addStock_push, ApiStore.addStock_then.
    destruct (ApiStore.getCurrentPortfolio st) as [p|] eqn:Hcur; [|done].
    repeat case_match; cbn [fst]; try done. subst. api_wf_fields.
    apply api_current_elem in Hcur as Hp. destruct Hp as [Hp _].
    assert (listedIds (map (ApiStore.pushHoldingId (ApiStore.portfolio_id p)
                              (ApiStore.row_id row)) (ApiStore.portfolios st))
            ≡ₚ ApiStore.row_id row :: listedIds (ApiStore.portfolios st)) as Hperm.
    { apply listedIds_push; [done|]. by apply list_elem_of_fmap_2. }
    split; [by rewrite keys_map by apply api_pushHoldingId_id|].
    split; [|split].
    + rewrite Hperm. apply NoDup_cons. split; [|done]. intros Hin.
      apply Hexp. apply get_is_Some.
      by apply (proj1 (Forall_forall _ _) Hres).
    + rewrite Hperm. apply Forall_cons. split.
      * rewrite (get_set_key ApiStore.holding_id) by done. by eexists.
      * eapply Forall_impl; [exact Hres|]. intros id.
        apply get_set_is_Some.
    + right. rewrite api_current_map by apply api_pushHoldingId_id.
      by rewrite Hcur.
  - (* removeHolding *)
    unfold ApiStore.removeHolding. destruct confirm; [|done].
    destruct deleted; [|done]. cbn [negb]. api_wf_fields.
    pose proof (api_removed_unlisted st holdingId Hwf Hexp) as Hgone.
    destruct (ApiStore.getCurrentPortfolio st) as [p|] eqn:Hcur.
    + split; [by rewrite keys_map by apply api_filterHoldingId_id|].
      split; [by apply (sublist_NoDup _ _ Hnd), listedIds_filter|].
      split.
      * apply Forall_forall. intros id Hid.
        rewrite get_delete_ne by (by intros <-).
        apply (proj1 (Forall_forall _ _) Hres).
        by apply (elem_of_sublist _ _ _ Hid), listedIds_filter.
      * right. rewrite api_current_map by apply api_filterHoldingId_id.
        by rewrite Hcur.
    + split; [done|]. split; [done|]. split.
      * apply Forall_forall. intros id Hid.
        rewrite get_delete_ne by (by intros <-).
        by apply (proj1 (Forall_forall _ _) Hres).
      * destruct Hsel as [Hnil|Hsome]; [by left|].
        unfold ApiStore.getCurrentPortfolio in *. simpl. by right.
  - (* createPortfolio *)
    unfold ApiStore.createPortfolio. destruct (JS.falsy_str newName); [done|].
    destruct post as [id name|]; [|done]. simpl in Hexp. api_wf_fields.
    split; [by apply NoDup_keys_set|].
    rewrite (set_new ApiStore.portfolio_id (ApiStore.mkPortfolio id name [])) by done.
    rewrite listedIds_app. unfold listedIds at 2 4. simpl. rewrite !app_nil_r.
    do 2 (split; [done|]). right.
    unfold ApiStore.getCurrentPortfolio. simpl.
    rewrite <- (set_new ApiStore.portfolio_id (ApiStore.mkPortfolio id name [])) by done.
    rewrite (get_set ApiStore.portfolio_id (ApiStore.mkPortfolio id name [])).
    by eexists.
  - (* savePortfolioName *)
    unfold ApiStore.savePortfolioName.
    destruct (ApiStore.getCurrentPortfolio st) as [p|] eqn:Hcur; [|done].
    destruct (JS.falsy_str newName); [done|]. destruct saved; [|done].
    cbn [negb]. api_wf_fields.
    split; [by rewrite keys_map by apply api_rename_id|].
    rewrite listedIds_map by apply api_rename_holdingIds.
    do 2 (split; [done|]). right.
    rewrite api_current_map by apply api_rename_id. by rewrite Hcur.
  - (* deletePortfolio *)
    unfold ApiStore.deletePortfolio.
    destruct (ApiStore.getCurrentPortfolio st) as [p|] eqn:Hcur; [|done].
    destruct (decide _); [done|]. destruct confirm; [|done].
    destruct deleted; [|done]. cbn [negb]. api_wf_fields.
    apply api_current_elem in Hcur as [Hp _].
    split; [by apply NoDup_keys_delete|].
    split; [by apply (sublist_NoDup _ _ Hnd), listedIds_delete|].
    split.
    + apply Forall_forall. intros id (q & Hq & Hid)%elem_of_listedIds.
      apply list_elem_of_filter in Hq as [Hne Hq].
      rewrite get_delete_all. rewrite decide_False.
      * apply (proj1 (Forall_forall _ _) Hres). apply elem_of_listedIds.
        by exists q.
      * intros Hidp. destruct Hne.
        by rewrite (listed_owner _ q p id Hnd Hq Hp Hid Hidp).
    + destruct (JS.delete ApiStore.portfolio_id (ApiStore.portfolio_id p)
                  (ApiStore.portfolios st)) as [|a rest]; [by left|right].
      unfold ApiStore.getCurrentPortfolio. simpl. by rewrite decide_True.
  - (* the answer to a quote request *)
    destruct out; try done. api_wf_fields. do 2 (split; [done|]). split; [|done].
    eapply Forall_impl; [exact Hres|]. intros id Hid. simpl.
    rewrite (get_map ApiStore.holding_id) by apply api_updatePrice_id.
    by apply fmap_is_Some.
Qed.

Lemma api_wf_history actions st :
  api_wf st → api_history st actions → api_wf (fold_left api_act actions st).
Proof.
  revert st. induction actions as [|a actions IH]; intros st Hwf; simpl; [done|].
  intros [Hexp Hrest]. apply IH; [|done]. by apply api_wf_act.
Qed.

Lemma someSymbol_resolves hs sym ids :
  Forall (λ id, is_Some (JS.get ApiStore.holding_id id hs)) ids →
  is_Some (ApiStore.someSymbol hs sym ids).
Proof.
  induction 1 as [|id ids [h Hh] _ IH]; simpl; [by eexists|].
  rewrite Hh. destruct (decide _); [by eexists|done].
Qed.

Lemma omap_resolves_length hs ids :
  Forall (λ id, is_Some (JS.get ApiStore.holding_id id hs)) ids →
  length (omap (λ id, JS.get ApiStore.holding_id id hs) ids) = length ids.
Proof.
  induction 1 as [|id ids [h Hh] _ IH]; [done|].
  simpl. rewrite Hh. simpl. f_equal. exact IH.
Qed.

Lemma api_wf_resolves st p :
  api_wf st → p ∈ ApiStore.portfolios st →
  Forall (λ id, is_Some (JS.get ApiStore.holding_id id (ApiStore.holdings st)))
         (ApiStore.holdingIds p).
Proof.
  intros (_ & _ & Hres & _) Hp. apply Forall_forall. intros id Hid.
  apply (proj1 (Forall_forall _ _) Hres). apply elem_of_listedIds. by exists p.
Qed.

Local Ltac not_among :=
  let H := fresh in
  intros H; repeat (apply elem_of_cons in H as [H|H]; [discriminate|]);
  by apply elem_of_nil in H.

Lemma api_fetch_no_TypeError st respond :
  Uncaught "TypeError" ∉ (ApiStore.fetchRealTimePrices st respond).2.
Proof.
  unfold ApiStore.fetchRealTimePrices.
  destruct (ApiStore.fetchRealTimePrices_request st) as [url|]; [|not_among].
  destruct (respond url); not_among.
Qed.

Lemma api_addStock_no_TypeError st symbol shares purchasePrice purchaseDate post
    respond :
  api_wf st →
  Uncaught "TypeError"
    ∉ (ApiStore.addStock st symbol shares purchasePrice purchaseDate post
         respond).2.
Proof.
  intros Hwf. unfold ApiStore.addStock, ApiStore.addStock_then.
  destruct (ApiStore.getCurrentPortfolio st) as [p|] eqn:Hcur; [|not_among].
  apply api_current_elem in Hcur as [Hp _].
  destruct (someSymbol_resolves (ApiStore.holdings st) symbol
              (ApiStore.holdingIds p) (api_wf_resolves st p Hwf Hp)) as [b ->].
  destruct (_ || _); [not_among|]. destruct b; [not_among|].
  destruct post as [row|]; [apply api_fetch_no_TypeError|not_among].
Qed.

(** X14: the [ApiStore] front end keeps its portfolios and its holdings
    together.  From the state the constructor builds, and along every
    history of loads, user actions and answers in which the server gives
    each portfolio and each holding an id of its own and a confirmed
    removal is of a holding of the portfolio on display, the portfolio ids
    stay distinct, no holding is listed twice or by two portfolios, every
    listed holding is in the store, and a portfolio is selected unless
    there is none; so [addStock] never fails with a TypeError on a missing
    holding, and a portfolio shows as many holdings as it lists. *)
Theorem api_store_consistent :
  api_wf ApiStore.constructor
  ∧ ∀ st actions,
      api_wf st → api_history st actions →
      api_wf (fold_left api_act actions st)
      ∧ (∀ symbol shares purchasePrice purchaseDate post respond,
           Uncaught "TypeError"
             ∉ (ApiStore.addStock (fold_left api_act actions st) symbol shares
                  purchasePrice purchaseDate post respond).2)
      ∧ (∀ p, p ∈ ApiStore.portfolios (fold_left api_act actions st) →
           length (holdingsOf (fold_left api_act actions st) p)
           = length (ApiStore.holdingIds p)).
Proof.
  split.
  - split; [constructor|]. split; [constructor|]. split; [constructor|]. by left.
  - intros st actions Hwf Hhist.
    pose proof (api_wf_history actions st Hwf Hhist) as Hwf'.
    split; [done|]. split.
    + intros. by apply api_addStock_no_TypeError.
    + intros p Hp. apply omap_resolves_length. by apply api_wf_resolves.
Qed.

(** The sample store after a removal, the deletion of the first portfolio
    and the addition of a stock to the one that is left. *)
Lemma api_store_consistent_witness :
  api_wf Sample.api
  ∧ api_wf (fold_left api_act
              [ARemoveHolding "h2" true true; ADeletePortfolio true true;
               AAddStock "KO" 5 60 "2024-04-01"
                 (ApiStore.Created
                    (ApiStore.mkHoldingRow "h4" "KO" 5 60 "2024-04-01"))]
              Sample.api).
Proof.
  assert (api_wf Sample.api) as Hwf.
  { split; [by apply (bool_decide_unpack _)|].
    split; [by apply (bool_decide_unpack _)|].
    split; [by apply (bool_decide_unpack _)|]. right. by eexists. }
  split; [done|].
  destruct api_store_consistent as [_ Hkeep].
  apply (Hkeep Sample.api); [done|]. simpl. split; [|split; [done|split; [|done]]].
  - intros _. eexists. split; [reflexivity|]. by apply (bool_decide_unpack _).
  - by apply (bool_decide_unpack _).
Defined.

(* ------------------------------------------------------------------ *)
(** ** [ApiStore]: removing a holding *)

Lemma filter_out_length (x : string) l :
  NoDup l → x ∈ l → S (length (filter (λ y, y ≠ x) l)) = length l.
Proof.
  induction 1 as [|y l Hy Hnd IH]; [by intros ?%elem_of_nil|].
  intros [->|Hin]%elem_of_cons.
  - rewrite filter_cons_False by (by intros ?). simpl. f_equal.
    clear IH Hnd. induction l as [|z l IH]; [done|].
    apply not_elem_of_cons in Hy as [Hne Hy].
    rewrite filter_cons_True by done. simpl. f_equal. by apply IH.
  - rewrite filter_cons_True by (by intros ->). simpl. f_equal. by apply IH.
Qed.

Lemma listedIds_NoDup ps p :
  NoDup (listedIds ps) → p ∈ ps → NoDup (ApiStore.holdingIds p).
Proof.
  unfold listedIds. induction ps as [|a ps IH]; simpl; [by intros _ ?%elem_of_nil|].
  intros (Ha & _ & Hps)%NoDup_app [->|Hp]%elem_of_cons; [done|]. by apply IH.
Qed.

(** X15: [removeHolding] of [ApiStore] takes one holding out of the
    portfolio on display and out of the store.  In a state that hangs
    together, once the removal of a holding of the current portfolio is
    confirmed and the server has deleted it, the current portfolio lists
    one holding less, the others in their order; the store has no holding
    of that id and keeps every other holding as it was; the other
    portfolios are as they were.  When the confirmation is declined or the
    server fails, the state is unchanged, and the failure is reported. *)
Theorem api_removeHolding_correct st p holdingId :
  api_wf st →
  ApiStore.getCurrentPortfolio st = Some p →
  holdingId ∈ ApiStore.holdingIds p →
  (∃ p',
     ApiStore.getCurrentPortfolio (ApiStore.removeHolding st holdingId true true).1
     = Some p'
     ∧ ApiStore.portfolio_id p' = ApiStore.portfolio_id p
     ∧ ApiStore.name p' = ApiStore.name p
     ∧ ApiStore.holdingIds p'
       = filter (λ id, id ≠ holdingId) (ApiStore.holdingIds p)
     ∧ S (length (ApiStore.holdingIds p')) = length (ApiStore.holdingIds p))
  ∧ JS.get ApiStore.holding_id holdingId
      (ApiStore.holdings (ApiStore.removeHolding st holdingId true true).1) = None
  ∧ (∀ id, id ≠ holdingId →
       JS.get ApiStore.holding_id id
         (ApiStore.holdings (ApiStore.removeHolding st holdingId true true).1)
       = JS.get ApiStore.holding_id id (ApiStore.holdings st))
  ∧ (∀ q, q ∈ ApiStore.portfolios st →
       ApiStore.portfolio_id q ≠ ApiStore.portfolio_id p →
       q ∈ ApiStore.portfolios (ApiStore.removeHolding st holdingId true true).1)
  ∧ (∀ deleted,
       ApiStore.removeHolding st holdingId false deleted
       = (st, [ShowConfirmation "Confirm Deletion" false]))
  ∧ (ApiStore.removeHolding st holdingId true false).1 = st
  ∧ ShowConfirmation "Error" true
      ∈ (ApiStore.removeHolding st holdingId true false).2.
Proof.
  intros (Hkeys & Hnd & Hres & Hsel) Hcur Hid.
  unfold ApiStore.removeHolding. cbn [negb fst snd]. rewrite Hcur.
  split; [|split; [|split; [|split; [|split; [done|split; [done|]]]]]].
  - exists (ApiStore.filterHoldingId (ApiStore.portfolio_id p) holdingId p).
    rewrite api_current_map by apply api_filterHoldingId_id. rewrite Hcur.
    split; [done|]. unfold ApiStore.filterHoldingId.
    rewrite decide_True by done. simpl. do 3 (split; [done|]).
    apply filter_out_length; [|done].
    apply api_current_elem in Hcur as [Hp _]. by eapply listedIds_NoDup.
  - apply get_delete.
  - intros id Hne. simpl. by apply get_delete_ne.
  - intros q Hq Hne. simpl. apply list_elem_of_fmap. exists q. split; [|done].
    unfold ApiStore.filterHoldingId. by rewrite decide_False.
  - right. right. left.
Qed.

(** Removing MSFT ([h2]) from the sample store. *)
Lemma api_removeHolding_correct_witness :
  JS.get ApiStore.holding_id "h2"
    (ApiStore.holdings (ApiStore.removeHolding Sample.api "h2" true true).1) = None
  ∧ JS.get ApiStore.holding_id "h3"
      (ApiStore.holdings (ApiStore.removeHolding Sample.api "h2" true true).1)
    = JS.get ApiStore.holding_id "h3" (ApiStore.holdings Sample.api).
Proof.
  assert (api_wf Sample.api) as Hwf.
  { split; [by apply (bool_decide_unpack _)|].
    split; [by apply (bool_decide_unpack _)|].
    split; [by apply (bool_decide_unpack _)|]. right. by eexists. }
  eassert (ApiStore.getCurrentPortfolio Sample.api = Some _) as Hcur
    by reflexivity.
  destruct (api_removeHolding_correct Sample.api _ "h2" Hwf Hcur)
    as (_ & Hgone & Hkept & _).
  { by apply (bool_decide_unpack _). }
  split; [done|]. by apply Hkept.
Defined.

(* ------------------------------------------------------------------ *)
(** ** [ApiStore]: what the start-up load builds *)

Lemma loaded_holdings data hrows :
  NoDup (rowIds data) →
  Forall (λ h, h ∈ rows data) hrows →
  omap (λ id, JS.get ApiStore.holding_id id
                (map ApiStore.loadHolding (rows data)))
       (map ApiStore.row_id hrows)
  = map ApiStore.loadHolding hrows.
Proof.
  intros Hnd. induction 1 as [|h hrows Hh _ IH]; [done|]. simpl.
  pose proof (get_elem ApiStore.holding_id (ApiStore.loadHolding h)
                (map ApiStore.loadHolding (rows data))) as Hget.
  simpl in Hget. rewrite Hget.
  - simpl. f_equal. exact IH.
  - by rewrite keys_loadHolding, rowIds_rows.
  - by apply list_elem_of_fmap_2.
Qed.

Lemma elem_of_rows data p h :
  p ∈ data → h ∈ ApiStore.Holdings p → h ∈ rows data.
Proof.
  unfold rows. induction data as [|a data IH]; simpl; [by intros ?%elem_of_nil|].
  intros [->|Hp]%elem_of_cons Hh; apply elem_of_app; [by left|right; by apply IH].
Qed.

(** X16: [loadDataFromApi] rebuilds the state from the answer of the
    server.  For an answer whose portfolios and holdings each have an id of
    their own, the portfolios are those of the answer in its order, each
    listing the ids of its holdings; the holdings of each portfolio are
    those of its row, in the row's order, each with its current price set
    to its purchase price; the first portfolio of the answer is selected,
    or none when the answer is empty; what the state held before is gone,
    and the interval is kept.  When the load fails the state is unchanged
    and the connection error is shown. *)
Theorem loadDataFromApi_correct st data :
  NoDup (map ApiStore.prow_id data) →
  NoDup (rowIds data) →
  ApiStore.portfolios (ApiStore.loadDataFromApi st (ApiStore.Loaded data)).1
  = map toPortfolio data
  ∧ (∀ p, p ∈ data →
       holdingsOf (ApiStore.loadDataFromApi st (ApiStore.Loaded data)).1
         (toPortfolio p)
       = map ApiStore.loadHolding (ApiStore.Holdings p))
  ∧ JS.keys ApiStore.holding_id
      (ApiStore.holdings (ApiStore.loadDataFromApi st (ApiStore.Loaded data)).1)
    = rowIds data
  ∧ ApiStore.getCurrentPortfolio
      (ApiStore.loadDataFromApi st (ApiStore.Loaded data)).1
    = toPortfolio <$> head data
  ∧ ApiStore.priceUpdateInterval
      (ApiStore.loadDataFromApi st (ApiStore.Loaded data)).1
    = ApiStore.priceUpdateInterval st
  ∧ (ApiStore.loadDataFromApi st (ApiStore.Loaded data)).2 = []
  ∧ ApiStore.loadDataFromApi st ApiStore.LoadFailed
    = (st, [ConsoleError "Error loading data:";
            ShowConfirmation "Connection Error" true]).
Proof.
  intros Hps Hhs. rewrite loadDataFromApi_loaded by done. cbn [fst snd].
  split; [done|]. split; [|split; [|split; [|done]]].
  - intros p Hp. unfold holdingsOf. simpl. apply loaded_holdings; [done|].
    apply Forall_forall. intros h Hh. by apply (elem_of_rows data p).
  - simpl. by rewrite keys_loadHolding, rowIds_rows.
  - destruct data as [|p data]; [done|].
    unfold ApiStore.getCurrentPortfolio. simpl. by rewrite decide_True.
Qed.

(** Loading one portfolio with two holdings into the sample store. *)
Lemma loadDataFromApi_correct_witness :
  ApiStore.portfolios
    (ApiStore.loadDataFromApi Sample.api
       (ApiStore.Loaded
          [ApiStore.mkPortfolioRow "p7" "Loaded"
             [ApiStore.mkHoldingRow "h7" "KO" 5 60 "2024-04-01";
              ApiStore.mkHoldingRow "h8" "PFE" 7 40 "2024-04-02"]])).1
  = [ApiStore.mkPortfolio "p7" "Loaded" ["h7"; "h8"]].
Proof.
  apply (loadDataFromApi_correct Sample.api
           [ApiStore.mkPortfolioRow "p7" "Loaded"
              [ApiStore.mkHoldingRow "h7" "KO" 5 60 "2024-04-01";
               ApiStore.mkHoldingRow "h8" "PFE" 7 40 "2024-04-02"]]);
    by apply (bool_decide_unpack _).
Defined.

(* ------------------------------------------------------------------ *)
(** ** [LocalStore]: nothing is changed without being saved *)

Lemma local_act_saved st a :
  (LocalStore.portfolios (local_act st a) = LocalStore.portfolios st
   ∧ LocalStore.localStorage (local_act st a) = LocalStore.localStorage st)
  ∨ LocalStore.localStorage (local_act st a)
    = Some (LocalStore.portfolios (local_act st a)).
Proof.
  destruct a; simpl.
  - unfold LocalStore.switchPortfolio. destruct (JS.get _ _ _); by left.
  - unfold LocalStore.addStock_push, LocalStore.addStock_then.
    repeat case_match; simplify_eq; simpl; auto.
  - unfold LocalStore.removeHolding. repeat case_match; simpl; auto.
  - unfold LocalStore.createPortfolio. repeat case_match; simpl; auto.
  - unfold LocalStore.savePortfolioName. repeat case_match; simpl; auto.
  - unfold LocalStore.deletePortfolio. repeat case_match; simpl; auto.
  - destruct out; simpl; auto.
Qed.

(** X17: the [LocalStore] front end never holds a change it has not saved.
    Every action and every answer to a quote request either leaves the
    portfolios and the stored item as they were or stores the portfolios it
    leaves; so once the stored item is the portfolios, as it is when the
    front end starts from stored data, it stays so, and whenever an action
    changes the portfolios the stored item is the changed portfolios. *)
Theorem local_store_saved :
  (∀ stored now,
     LocalStore.portfolios (LocalStore.constructor (Some stored) now) = stored
     ∧ LocalStore.localStorage (LocalStore.constructor (Some stored) now)
       = Some stored)
  ∧ (∀ st actions,
       LocalStore.localStorage st = Some (LocalStore.portfolios st) →
       LocalStore.localStorage (fold_left local_act actions st)
       = Some (LocalStore.portfolios (fold_left local_act actions st)))
  ∧ (∀ st a,
       LocalStore.portfolios (local_act st a) ≠ LocalStore.portfolios st →
       LocalStore.localStorage (local_act st a)
       = Some (LocalStore.portfolios (local_act st a))).
Proof.
  split; [done|]. split.
  - intros st actions. revert st.
    induction actions as [|a actions IH]; intros st Hsaved; simpl; [done|].
    apply IH. destruct (local_act_saved st a) as [[Hp Hs]|Hs]; [|done].
    by rewrite Hp, Hs.
  - intros st a Hne. by destruct (local_act_saved st a) as [[Hp _]|Hs].
Qed.

(** Started from the sample portfolios as stored data, the front end still
    has its portfolios stored after an addition, a failed quote request and
    a removal. *)
Lemma local_store_saved_witness :
  LocalStore.localStorage
    (fold_left local_act
       [LAddStock "NVDA" 20 120.5 "2024-04-01"; LAnswer NetworkError;
        LRemoveHolding "AAPL" true]
       (LocalStore.constructor (Some (LocalStore.portfolios Sample.local)) 0))
  = Some (LocalStore.portfolios
            (fold_left local_act
               [LAddStock "NVDA" 20 120.5 "2024-04-01"; LAnswer NetworkError;
                LRemoveHolding "AAPL" true]
               (LocalStore.constructor
                  (Some (LocalStore.portfolios Sample.local)) 0))).
Proof.
  destruct local_store_saved as (_ & Hkeep & _).
  apply Hkeep. reflexivity.
Defined.

(* ------------------------------------------------------------------ *)
(** ** [LocalStore]: creating and renaming portfolios *)

Lemma newPortfolioId_inj now now' :
  LocalStore.newPortfolioId now = LocalStore.newPortfolioId now' → now = now'.
Proof.
  unfold LocalStore.newPortfolioId. intros H.
  apply String.app_inj in H. by apply pretty_N_inj in H.
Qed.

(** X18: [createPortfolio] of [LocalStore] adds an empty portfolio and
    selects it.  For a name that is not empty, the portfolio
    [portfolio-<now>] with that name and no holdings becomes the current
    one and the portfolios are saved; when no portfolio has that id yet it
    is appended after the portfolios there were, which are kept as they
    are, and different times give different ids; but when a portfolio with
    that id exists (one created in the same millisecond), the new, empty
    portfolio takes its place.  An empty name changes nothing and asks for
    a valid name. *)
Theorem local_createPortfolio_correct st newName now :
  newName ≠ "" →
  LocalStore.getCurrentPortfolio (LocalStore.createPortfolio st newName now).1
  = Some (LocalStore.mkPortfolio (LocalStore.newPortfolioId now) newName [])
  ∧ LocalStore.localStorage (LocalStore.createPortfolio st newName now).1
    = Some (LocalStore.portfolios (LocalStore.createPortfolio st newName now).1)
  ∧ (LocalStore.newPortfolioId now
       ∉ JS.keys LocalStore.portfolio_id (LocalStore.portfolios st) →
     LocalStore.portfolios (LocalStore.createPortfolio st newName now).1
     = LocalStore.portfolios st
       ++ [LocalStore.mkPortfolio (LocalStore.newPortfolioId now) newName []])
  ∧ (LocalStore.newPortfolioId now
       ∈ JS.keys LocalStore.portfolio_id (LocalStore.portfolios st) →
     JS.keys LocalStore.portfolio_id
       (LocalStore.portfolios (LocalStore.createPortfolio st newName now).1)
     = JS.keys LocalStore.portfolio_id (LocalStore.portfolios st))
  ∧ (∀ now', now' ≠ now →
       LocalStore.newPortfolioId now' ≠ LocalStore.newPortfolioId now)
  ∧ LocalStore.createPortfolio st "" now
    = (st, [ShowConfirmation "Invalid Name" true]).
Proof.
  intros Hname%falsy_str_spec. unfold LocalStore.createPortfolio.
  rewrite Hname. cbn [fst].
  split; [|split; [done|split; [|split; [|split; [|done]]]]].
  - unfold LocalStore.getCurrentPortfolio. simpl.
    apply (get_set LocalStore.portfolio_id
             (LocalStore.mkPortfolio (LocalStore.newPortfolioId now) newName [])).
  - intros Hnew. simpl.
    by apply (set_new LocalStore.portfolio_id (LocalStore.mkPortfolio _ _ _)).
  - intros Hold. simpl.
    by apply (keys_set_old LocalStore.portfolio_id (LocalStore.mkPortfolio _ _ _)).
  - intros now' Hne Heq. by apply newPortfolioId_inj in Heq.
Qed.

(** A second portfolio for the sample store. *)
Lemma local_createPortfolio_correct_witness :
  LocalStore.getCurrentPortfolio
    (LocalStore.createPortfolio Sample.local "Bonds" 1700000000000).1
  = Some (LocalStore.mkPortfolio "portfolio-1700000000000" "Bonds" []).
Proof.
  by apply (local_createPortfolio_correct Sample.local "Bonds" 1700000000000).
Defined.

Lemma local_totals_rename id newName p :
  LocalStore.calculatePortfolioTotals (LocalStore.rename id newName p)
  = LocalStore.calculatePortfolioTotals p.
Proof. unfold LocalStore.rename. by destruct (decide _). Qed.

Lemma local_allSymbols_rename id newName ps s0 :
  fold_left
    (λ allSymbols p,
       fold_left (λ allSymbols h, JS.Set_add allSymbols (LocalStore.symbol h))
                 (LocalStore.holdings p) allSymbols)
    (map (LocalStore.rename id newName) ps) s0
  = fold_left
      (λ allSymbols p,
         fold_left (λ allSymbols h, JS.Set_add allSymbols (LocalStore.symbol h))
                   (LocalStore.holdings p) allSymbols)
      ps s0.
Proof.
  revert s0. induction ps as [|p ps IH]; intros s0; simpl; [done|].
  rewrite IH. f_equal. unfold LocalStore.rename. by destruct (decide _).
Qed.

(** X19: [savePortfolioName] of [LocalStore] changes a name and nothing
    else.  With a portfolio selected and a name that is not empty, the
    current portfolio gets the name and keeps its id and its holdings; the
    portfolios keep their order, and those with another id are as they
    were; the totals of every portfolio and the symbols of the next quote
    request are what they were; and the result is saved.  An empty name
    changes nothing. *)
Theorem local_savePortfolioName_correct st p newName :
  LocalStore.getCurrentPortfolio st = Some p →
  newName ≠ "" →
  LocalStore.getCurrentPortfolio (LocalStore.savePortfolioName st newName).1
  = Some (LocalStore.mkPortfolio (LocalStore.portfolio_id p) newName
            (LocalStore.holdings p))
  ∧ Forall2 (λ q q',
       LocalStore.portfolio_id q' = LocalStore.portfolio_id q
       ∧ LocalStore.holdings q' = LocalStore.holdings q
       ∧ LocalStore.calculatePortfolioTotals q'
         = LocalStore.calculatePortfolioTotals q
       ∧ (LocalStore.portfolio_id q ≠ LocalStore.portfolio_id p → q' = q))
      (LocalStore.portfolios st)
      (LocalStore.portfolios (LocalStore.savePortfolioName st newName).1)
  ∧ LocalStore.fetchRealTimePrices_request
      (LocalStore.savePortfolioName st newName).1
    = LocalStore.fetchRealTimePrices_request st
  ∧ LocalStore.localStorage (LocalStore.savePortfolioName st newName).1
    = Some (LocalStore.portfolios (LocalStore.savePortfolioName st newName).1)
  ∧ LocalStore.savePortfolioName st "" = (st, []).
Proof.
  intros Hcur Hname%falsy_str_spec. unfold LocalStore.savePortfolioName.
  rewrite Hcur, Hname. cbn [fst].
  split; [|split; [|split; [|split; [done|done]]]].
  - unfold LocalStore.saveDataToLocalStorage. cbn [LocalStore.portfolios
      LocalStore.currentPortfolioId LocalStore.priceUpdateInterval].
    rewrite (local_current_map (LocalStore.rename _ _) st p)
      by (apply local_rename_id || done).
    unfold LocalStore.rename. by rewrite decide_True.
  - simpl. apply Forall2_fmap_r, Forall_Forall2_diag, Forall_forall.
    intros q _. split; [apply local_rename_id|].
    split; [unfold LocalStore.rename; by destruct (decide _)|].
    split; [apply local_totals_rename|].
    intros Hne. unfold LocalStore.rename. by rewrite decide_False.
  - unfold LocalStore.fetchRealTimePrices_request, LocalStore.allSymbols. simpl.
    by rewrite local_allSymbols_rename.
Qed.

(** Renaming the first portfolio of the sample store. *)
Lemma local_savePortfolioName_correct_witness :
  LocalStore.name <$>
    LocalStore.getCurrentPortfolio
      (LocalStore.savePortfolioName Sample.local "Tech").1
  = Some "Tech".
Proof.
  eassert (LocalStore.getCurrentPortfolio Sample.local = Some _) as Hcur
    by reflexivity.
  destruct (local_savePortfolioName_correct Sample.local _ "Tech" Hcur)
    as [Hnew _]; [done|].
  by rewrite Hnew.
Defined.

(* ------------------------------------------------------------------ *)
(** ** The demo: every holding has a price range *)

Lemma ranged_mono ranges ranges' ps :
  (∀ s, is_Some (ranges !! s) → is_Some (ranges' !! s)) →
  ranged ranges ps → ranged ranges' ps.
Proof.
  intros Hsub. unfold ranged. intros Hps.
  eapply Forall_impl; [exact Hps|]. intros p Hp.
  eapply Forall_impl; [exact Hp|]. intros h. apply Hsub.
Qed.

Lemma ranged_map (f : Demo.Portfolio → Demo.Portfolio) ranges ps :
  (∀ p, Forall (λ h, is_Some (ranges !! Demo.symbol h)) (Demo.holdings p) →
        Forall (λ h, is_Some (ranges !! Demo.symbol h)) (Demo.holdings (f p))) →
  ranged ranges ps → ranged ranges (map f ps).
Proof.
  intros Hf. unfold ranged. intros Hps. apply Forall_fmap.
  eapply Forall_impl; [exact Hps|]. intros p. apply Hf.
Qed.

Lemma simulateInRange_symbol range random h :
  Demo.symbol (Demo.simulateInRange range random h).1 = Demo.symbol h.
Proof. unfold Demo.simulateInRange. cbv zeta. by destruct (_ <? _)%float. Qed.

Lemma simulateHoldings_ranged (ranges : gmap string Demo.Range) priceRanges
    random n holdings :
  Forall (λ h, is_Some (ranges !! Demo.symbol h)) holdings →
  Forall (λ h, is_Some (ranges !! Demo.symbol h))
    (Demo.simulateHoldings priceRanges random n holdings).1.1.
Proof.
  intros Hall. revert n. induction Hall as [|h holdings Hh _ IH]; intros n; simpl.
  - constructor.
  - destruct (priceRanges !! Demo.symbol h) as [range|].
    + pose proof (simulateInRange_symbol range (random n) h) as Hsym.
      destruct (Demo.simulateInRange range (random n) h) as [h' updated].
      specialize (IH (S n)).
      destruct (Demo.simulateHoldings priceRanges random (S n) holdings)
        as [[rest' n'] hasUpdates].
      simpl in *. constructor; [by rewrite Hsym|done].
    + specialize (IH n).
      destruct (Demo.simulateHoldings priceRanges random n holdings)
        as [[rest' n'] hasUpdates].
      simpl in *. by constructor.
Qed.

Lemma simulatePortfolios_ranged (ranges : gmap string Demo.Range) priceRanges
    random n ps :
  ranged ranges ps →
  ranged ranges (Demo.simulatePortfolios priceRanges random n ps).1.1.
Proof.
  unfold ranged. intros Hall. revert n.
  induction Hall as [|p ps Hp _ IH]; intros n; simpl; [constructor|].
  pose proof (simulateHoldings_ranged ranges priceRanges random n
                (Demo.holdings p) Hp) as Hhs.
  destruct (Demo.simulateHoldings priceRanges random n (Demo.holdings p))
    as [[holdings' n'] updated].
  specialize (IH n').
  destruct (Demo.simulatePortfolios priceRanges random n' ps)
    as [[rest' n''] hasUpdates].
  simpl in *. by constructor.
Qed.

Lemma demo_act_ranges st a s range :
  Demo.priceRanges st !! s = Some range →
  Demo.priceRanges (demo_act st a) !! s = Some range.
Proof.
  intros Hs. destruct a; simpl.
  - unfold Demo.switchPortfolio. by repeat case_match.
  - unfold Demo.addStock. repeat case_match; simpl; try done.
    rewrite lookup_insert_ne; [done|]. by intros ->; simplify_eq.
  - unfold Demo.removeHolding. by repeat case_match.
  - unfold Demo.savePortfolioName. by repeat case_match.
  - unfold Demo.simulatePriceUpdates.
    by destruct (Demo.simulatePortfolios _ _ _ _) as [[? ?] ?].
Qed.

Lemma demo_act_ranged st a :
  ranged (Demo.priceRanges st) (Demo.portfolios st) →
  ranged (Demo.priceRanges (demo_act st a)) (Demo.portfolios (demo_act st a)).
Proof.
  intros Hr. destruct a; simpl.
  - unfold Demo.switchPortfolio. by repeat case_match.
  - unfold Demo.addStock.
    destruct (negb _); [done|]. destruct (_ || _ || _ || _); [done|].
    destruct (_ || _); [done|].
    destruct (Demo.getCurrentPortfolio st) as [p|]; [|done]. cbn [fst].
    cbn [Demo.priceRanges Demo.portfolios].
    set (ranges' := match Demo.priceRanges st !! stockSymbol with
                    | Some _ => Demo.priceRanges st
                    | None => _
                    end).
    assert (∀ s, is_Some (Demo.priceRanges st !! s) → is_Some (ranges' !! s))
      as Hsub.
    { intros s Hs. unfold ranges'.
      destruct (Demo.priceRanges st !! stockSymbol) eqn:Hsym; [done|].
      rewrite lookup_insert_ne; [done|]. intros ->. rewrite Hsym in Hs.
      by destruct Hs. }
    assert (is_Some (ranges' !! stockSymbol)) as Hnew.
    { unfold ranges'.
      destruct (Demo.priceRanges st !! stockSymbol) eqn:Hsym.
      - by rewrite Hsym.
      - by rewrite lookup_insert_eq. }
    apply ranged_map; [|by apply (ranged_mono (Demo.priceRanges st))].
    intros q Hq. unfold Demo.pushHolding. destruct (decide _); [|done]. simpl.
    apply Forall_app. split; [done|]. by repeat constructor.
  - unfold Demo.removeHolding. destruct confirm; [|done].
    destruct (Demo.getCurrentPortfolio st) as [p|]; [|done].
    destruct (Demo.holdings p !! index); [|done]. cbn [fst].
    apply ranged_map; [|done].
    intros q Hq. unfold Demo.spliceHolding. destruct (decide _); [|done]. simpl.
    by apply Forall_delete.
  - unfold Demo.savePortfolioName. destruct (JS.falsy_str newName); [done|].
    destruct (Demo.getCurrentPortfolio st) as [p|]; [|done]. cbn [fst].
    apply ranged_map; [|done].
    intros q Hq. unfold Demo.rename. by destruct (decide _).
  - unfold Demo.simulatePriceUpdates.
    pose proof (simulatePortfolios_ranged (Demo.priceRanges st)
                  (Demo.priceRanges st) random 0 (Demo.portfolios st) Hr) as Hsim.
    by destruct (Demo.simulatePortfolios _ _ _ _) as [[? ?] ?].
Qed.

(** X20: in the demo every holding always has a price range, and a range
    never changes.  The holdings the constructor builds all have a range
    for their symbol; [addStock] gives a symbol its range when it has none;
    and along every history of switching, adding, removing, renaming and
    price simulation, every holding of every portfolio still has a range,
    so that the simulation reaches it, and every symbol keeps the range it
    had, also when its holding is removed and the stock is added again at
    another price. *)
Theorem demo_every_holding_ranged :
  ranged (Demo.priceRanges Demo.constructor) (Demo.portfolios Demo.constructor)
  ∧ ∀ st actions,
      ranged (Demo.priceRanges st) (Demo.portfolios st) →
      ranged (Demo.priceRanges (fold_left demo_act actions st))
             (Demo.portfolios (fold_left demo_act actions st))
      ∧ ∀ s range,
          Demo.priceRanges st !! s = Some range →
          Demo.priceRanges (fold_left demo_act actions st) !! s = Some range.
Proof.
  split.
  - by apply (bool_decide_unpack _).
  - intros st actions. revert st.
    induction actions as [|a actions IH]; intros st Hr; simpl; [done|].
    destruct (IH (demo_act st a) (demo_act_ranged st a Hr)) as [Hr' Hkeep].
    split; [done|]. intros s range Hs. by apply Hkeep, demo_act_ranges.
Qed.

(** The demo after NVDA is bought at 100, sold, and bought again at 200:
    its range is still the one of the first purchase. *)
Lemma demo_every_holding_ranged_witness :
  Demo.priceRanges
    (fold_left demo_act
       [DRemoveHolding 3 true; DAddStock "NVDA" "1" 200 "2024-05-01"]
       (demo_act Demo.constructor (DAddStock "NVDA" "1" 100 "2024-04-01")))
    !! "NVDA"
  = Some (Demo.mkRange (100 * 0.9) (100 * 1.1)).
Proof.
  destruct demo_every_holding_ranged as [Hinit Hkeep].
  assert (ranged
            (Demo.priceRanges
               (demo_act Demo.constructor (DAddStock "NVDA" "1" 100 "2024-04-01")))
            (Demo.portfolios
               (demo_act Demo.constructor (DAddStock "NVDA" "1" 100 "2024-04-01"))))
    as Hr by (by apply (Hkeep Demo.constructor [DAddStock "NVDA" "1" 100 "2024-04-01"])).
  apply (Hkeep _ [DRemoveHolding 3 true; DAddStock "NVDA" "1" 200 "2024-05-01"] Hr).
  reflexivity.
Defined.

(* ------------------------------------------------------------------ *)
(** ** [ApiStore]: nothing changes unless the server agrees *)

(** X21: the [ApiStore] front end changes its state only after the server
    has agreed.  When the load fails, when the server refuses to store a
    holding, to delete a holding or a portfolio, to create or to rename a
    portfolio, when the user declines a confirmation, or when a quote
    request ends without prices, the portfolios, the holdings, the selection
    and the interval are exactly what they were. *)
Theorem api_refused_changes_nothing st a :
  api_refused a = true → api_act st a = st.
Proof.
  destruct a; simpl.
  - by destruct out.
  - done.
  - destruct post; [done|]. intros _.
    unfold ApiStore.addStock_push, ApiStore.addStock_then.
    by repeat case_match.
  - unfold ApiStore.removeHolding. by destruct confirm, deleted.
  - destruct post; [done|]. intros _. unfold ApiStore.createPortfolio.
    by repeat case_match.
  - destruct saved; [done|]. intros _. unfold ApiStore.savePortfolioName.
    by repeat case_match.
  - unfold ApiStore.deletePortfolio. destruct confirm, deleted; try done;
      intros _; by repeat case_match.
  - by destruct out.
Qed.

(** The server refuses to store a holding for the sample store. *)
Lemma api_refused_changes_nothing_witness :
  (ApiStore.addStock_push Sample.api "KO" 5 60 "2024-04-01"
     ApiStore.PostFailed).1
  = Sample.api.
Proof.
  apply (api_refused_changes_nothing Sample.api
           (AAddStock "KO" 5 60 "2024-04-01" ApiStore.PostFailed)).
  reflexivity.
Defined.

(* ------------------------------------------------------------------ *)
(** ** Switching to a portfolio that is not there *)

(** X22: [switchPortfolio] is guarded by a lookup in the two front ends
    with a server and not in the demo.  In [LocalStore] and [ApiStore],
    switching to the id of a portfolio selects that portfolio and renders
    it, and switching to an id that is neither the id of a portfolio nor
    the name of a property that every object inherits ([toString],
    [constructor] and the like) changes nothing.  Such a name passes the
    guard and is selected, with the portfolios as they were: [ApiStore]
    then renders what it names like a portfolio without holdings, and
    [LocalStore] fails with a TypeError in [render].  The demo selects
    whatever id it is given: for an inherited name it fails with a
    TypeError in [renderPortfolio]; for any other id that no portfolio has
    it logs an error and is left without a current portfolio, so that
    [addStock], [removeHolding] and [savePortfolioName] add, remove and
    rename nothing until an existing portfolio is selected again. *)
Theorem switchPortfolio_guarded :
  (∀ st portfolioId,
     match JS.get LocalStore.portfolio_id portfolioId (LocalStore.portfolios st) with
     | Some p =>
         LocalStore.getCurrentPortfolio
           (LocalStore.switchPortfolio st portfolioId).1 = Some p
         ∧ LocalStore.portfolios (LocalStore.switchPortfolio st portfolioId).1
           = LocalStore.portfolios st
         ∧ (LocalStore.switchPortfolio st portfolioId).2 = [Render]
     | None =>
         if JS.inherited portfolioId
         then LocalStore.currentPortfolioId
                (LocalStore.switchPortfolio st portfolioId).1
              = Some portfolioId
              ∧ LocalStore.portfolios (LocalStore.switchPortfolio st portfolioId).1
                = LocalStore.portfolios st
              ∧ (LocalStore.switchPortfolio st portfolioId).2
                = [Uncaught "TypeError"]
         else LocalStore.switchPortfolio st portfolioId = (st, [])
     end)
  ∧ (∀ st portfolioId,
     match JS.get ApiStore.portfolio_id portfolioId (ApiStore.portfolios st) with
     | Some p =>
         ApiStore.getCurrentPortfolio
           (ApiStore.switchPortfolio st portfolioId).1 = Some p
         ∧ ApiStore.portfolios (ApiStore.switchPortfolio st portfolioId).1
           = ApiStore.portfolios st
         ∧ ApiStore.holdings (ApiStore.switchPortfolio st portfolioId).1
           = ApiStore.holdings st
         ∧ (ApiStore.switchPortfolio st portfolioId).2 = [Render]
     | None =>
         if JS.inherited portfolioId
         then ApiStore.currentPortfolioId
                (ApiStore.switchPortfolio st portfolioId).1
              = Some portfolioId
              ∧ ApiStore.portfolios (ApiStore.switchPortfolio st portfolioId).1
                = ApiStore.portfolios st
              ∧ ApiStore.holdings (ApiStore.switchPortfolio st portfolioId).1
                = ApiStore.holdings st
              ∧ (ApiStore.switchPortfolio st portfolioId).2 = [Render]
         else ApiStore.switchPortfolio st portfolioId = (st, [])
     end)
  ∧ (∀ st portfolioId,
     Demo.currentPortfolioId (Demo.switchPortfolio st portfolioId).1
     = portfolioId
     ∧ Demo.portfolios (Demo.switchPortfolio st portfolioId).1
       = Demo.portfolios st
     ∧ match JS.get Demo.portfolio_id portfolioId (Demo.portfolios st) with
       | Some p =>
           Demo.getCurrentPortfolio (Demo.switchPortfolio st portfolioId).1
           = Some p
           ∧ (Demo.switchPortfolio st portfolioId).2 = [Render]
       | None =>
           if JS.inherited portfolioId
           then (Demo.switchPortfolio st portfolioId).2 = [Uncaught "TypeError"]
           else
             Demo.getCurrentPortfolio (Demo.switchPortfolio st portfolioId).1
             = None
             ∧ (Demo.switchPortfolio st portfolioId).2
               = [ConsoleError "Portfolio not found:"]
             ∧ (∀ a, match a with
                     | DSwitch _ | DSimulate _ => True
                     | _ => demo_act (Demo.switchPortfolio st portfolioId).1 a
                            = (Demo.switchPortfolio st portfolioId).1
                     end)
       end)
  ∧ JS.inherited "toString" = true
  ∧ JS.inherited "constructor" = true
  ∧ JS.inherited "__proto__" = true
  ∧ JS.inherited "portfolio-1700000000000" = false.
Proof.
  split; [|split; [|split]].
  - intros st portfolioId. unfold LocalStore.switchPortfolio.
    destruct (JS.get _ _ _) as [p|] eqn:Hp.
    + unfold LocalStore.getCurrentPortfolio. simpl. by rewrite Hp.
    + by destruct (JS.inherited portfolioId).
  - intros st portfolioId. unfold ApiStore.switchPortfolio.
    destruct (JS.get _ _ _) as [p|] eqn:Hp.
    + unfold ApiStore.getCurrentPortfolio. simpl. by rewrite Hp.
    + by destruct (JS.inherited portfolioId).
  - intros st portfolioId. unfold Demo.switchPortfolio.
    change (Demo.getCurrentPortfolio
              (Demo.mkState (Demo.portfolios st) (Demo.priceRanges st) portfolioId))
      with (JS.get Demo.portfolio_id portfolioId (Demo.portfolios st)).
    destruct (JS.get _ _ _) as [p|] eqn:Hp; cbn [fst snd].
    { by repeat split. }
    destruct (JS.inherited portfolioId); cbn [fst snd]; [by repeat split|].
    assert (Demo.getCurrentPortfolio
              (Demo.mkState (Demo.portfolios st) (Demo.priceRanges st)
                 portfolioId) = None) as Hnone by done.
    split; [done|]. split; [done|].
    split; [done|]. split; [done|]. intros a. destruct a; simpl; try done.
    + unfold Demo.addStock. rewrite Hnone. by repeat case_match.
    + unfold Demo.removeHolding. rewrite Hnone. by destruct confirm.
    + unfold Demo.savePortfolioName. rewrite Hnone. by case_match.
  - by repeat split.
Qed.

(* ------------------------------------------------------------------ *)
(** ** [ApiStore]: creating a portfolio, and undoing an addition *)

(** X23: [createPortfolio] of [ApiStore] appends the portfolio the server
    has created and selects it.  For a name that is not empty and an
    answer of the server with an id that no portfolio has, the new
    portfolio, with the id and the name of the answer and no holdings,
    comes after the portfolios there were, which are as they were, and is
    the current one; its totals are all zero; the holdings and the next
    quote request are what they were.  An empty name changes nothing and
    asks for a valid name, whatever the server would answer. *)
Theorem api_createPortfolio_correct st newName id name :
  newName ≠ "" →
  id ∉ JS.keys ApiStore.portfolio_id (ApiStore.portfolios st) →
  ApiStore.portfolios
    (ApiStore.createPortfolio st newName (ApiStore.PortfolioCreated id name)).1
  = ApiStore.portfolios st ++ [ApiStore.mkPortfolio id name []]
  ∧ ApiStore.getCurrentPortfolio
      (ApiStore.createPortfolio st newName (ApiStore.PortfolioCreated id name)).1
    = Some (ApiStore.mkPortfolio id name [])
  ∧ ApiStore.calculatePortfolioTotals
      (ApiStore.createPortfolio st newName (ApiStore.PortfolioCreated id name)).1
      (ApiStore.mkPortfolio id name [])
    = ApiStore.mkPortfolioTotals 0 0 0
  ∧ ApiStore.holdings
      (ApiStore.createPortfolio st newName (ApiStore.PortfolioCreated id name)).1
    = ApiStore.holdings st
  ∧ ApiStore.fetchRealTimePrices_request
      (ApiStore.createPortfolio st newName (ApiStore.PortfolioCreated id name)).1
    = ApiStore.fetchRealTimePrices_request st
  ∧ ∀ post, ApiStore.createPortfolio st "" post
            = (st, [ShowConfirmation "Invalid Name" true]).
Proof.
  intros Hname%falsy_str_spec Hnew. unfold ApiStore.createPortfolio.
  rewrite Hname. cbn [fst].
  split; [|split; [|split; [done|split; [done|split; [done|done]]]]].
  - simpl. by apply (set_new ApiStore.portfolio_id (ApiStore.mkPortfolio id name [])).
  - unfold ApiStore.getCurrentPortfolio. simpl.
    apply (get_set ApiStore.portfolio_id (ApiStore.mkPortfolio id name [])).
Qed.

(** The server creates portfolio [p3] for the sample store. *)
Lemma api_createPortfolio_correct_witness :
  ApiStore.portfolio_id <$>
    ApiStore.portfolios
      (ApiStore.createPortfolio Sample.api "Bonds"
         (ApiStore.PortfolioCreated "p3" "Bonds")).1
  = ["p1"; "p2"; "p3"].
Proof.
  destruct (api_createPortfolio_correct Sample.api "Bonds" "p3" "Bonds")
    as [Hps _]; [done|by apply (bool_decide_unpack _)|].
  by rewrite Hps.
Defined.

Lemma filter_id {A} (P : A → Prop) `{!∀ x, Decision (P x)} (l : list A) :
  (∀ x, x ∈ l → P x) → filter P l = l.
Proof.
  induction l as [|x l IH]; [done|]. intros Hall.
  rewrite filter_cons_True by (apply Hall; left).
  f_equal. apply IH. intros y Hy. apply Hall. by right.
Qed.

Lemma api_wf_listed_key st p id :
  api_wf st → p ∈ ApiStore.portfolios st → id ∈ ApiStore.holdingIds p →
  id ∈ JS.keys ApiStore.holding_id (ApiStore.holdings st).
Proof.
  intros Hwf Hp Hid. apply get_is_Some.
  by apply (proj1 (Forall_forall _ _) (api_wf_resolves st p Hwf Hp)).
Qed.

(** Listing a new holding in a portfolio and taking it out of the lists
    again gives back the portfolios. *)
Lemma api_push_filter st p id :
  api_wf st → p ∈ ApiStore.portfolios st →
  id ∉ JS.keys ApiStore.holding_id (ApiStore.holdings st) →
  map (ApiStore.filterHoldingId (ApiStore.portfolio_id p) id)
      (map (ApiStore.pushHoldingId (ApiStore.portfolio_id p) id)
           (ApiStore.portfolios st))
  = ApiStore.portfolios st.
Proof.
  intros Hwf Hp Hfresh. rewrite map_map. apply map_fixed. intros q Hq.
  unfold ApiStore.pushHoldingId, ApiStore.filterHoldingId.
  destruct (decide (ApiStore.portfolio_id q = ApiStore.portfolio_id p)) as [Heq|Hne];
    simpl.
  - rewrite decide_True by done. simpl. rewrite filter_app.
    rewrite filter_cons_False by (by intros ?). rewrite filter_nil, app_nil_r.
    rewrite filter_id; [by destruct q|].
    intros id' Hid ->. apply Hfresh. by apply (api_wf_listed_key st q).
  - by rewrite decide_False.
Qed.

(** Storing a holding under a new id and deleting that id gives back the
    holdings, also when they have been rewritten in place in between. *)
Lemma api_set_map_delete (f : ApiStore.Holding → ApiStore.Holding) h hs :
  (∀ h', ApiStore.holding_id (f h') = ApiStore.holding_id h') →
  ApiStore.holding_id h ∉ JS.keys ApiStore.holding_id hs →
  JS.delete ApiStore.holding_id (ApiStore.holding_id h)
    (map f (JS.set ApiStore.holding_id h hs))
  = map f hs.
Proof.
  intros Hf Hfresh. rewrite (set_new ApiStore.holding_id) by done.
  unfold JS.delete. rewrite map_app, filter_app. simpl.
  rewrite filter_cons_False by (rewrite Hf; by intros ?).
  rewrite filter_nil, app_nil_r.
  apply filter_id. intros h' (h0 & -> & Hh0)%(list_elem_of_fmap f) Heq.
  apply Hfresh. rewrite <- Heq, Hf.
  by apply (list_elem_of_fmap_2 ApiStore.holding_id).
Qed.

(** X24: in [ApiStore], removing the holding that [addStock] has just added
    gives back the state as it was, up to the prices that [addStock] has
    fetched on its way.  In a state that hangs together, a valid addition
    of a symbol that is new to the current portfolio, stored by the server
    under an id no holding has, ends with a quote request for the symbols
    of the store with the new holding, and returns with the new holding in
    the store; once the removal of that holding is confirmed and done by
    the server, the state is the one that the answer to this request makes
    of the state before the addition: the portfolios, the selection and the
    interval are those before the addition, and so are the holdings when
    the request fails, and otherwise they differ in the current prices that
    the answer quotes.  A removal that comes before the answer to the
    request ends in the same state. *)
Theorem api_add_remove_roundtrip st p symbol shares purchasePrice purchaseDate row
    respond :
  api_wf st →
  ApiStore.getCurrentPortfolio st = Some p →
  validInput symbol shares purchasePrice purchaseDate →
  (∀ id, id ∈ ApiStore.holdingIds p →
     ∃ h, JS.get ApiStore.holding_id id (ApiStore.holdings st) = Some h
          ∧ ApiStore.symbol h ≠ symbol) →
  ApiStore.row_id row ∉ JS.keys ApiStore.holding_id (ApiStore.holdings st) →
  let added :=
    (ApiStore.addStock st symbol shares purchasePrice purchaseDate
       (ApiStore.Created row) respond).1 in
  let removed :=
    (ApiStore.removeHolding added (ApiStore.row_id row) true true).1 in
  ∃ url,
    ApiStore.fetchRealTimePrices_request
      (ApiStore.addStock_push st symbol shares purchasePrice purchaseDate
         (ApiStore.Created row)).1
    = Some url
    ∧ is_Some (JS.get ApiStore.holding_id (ApiStore.row_id row)
                 (ApiStore.holdings added))
    ∧ removed = (ApiStore.fetchRealTimePrices_resume st (respond url)).1
    ∧ ApiStore.portfolios removed = ApiStore.portfolios st
    ∧ ApiStore.currentPortfolioId removed = ApiStore.currentPortfolioId st
    ∧ ApiStore.priceUpdateInterval removed = ApiStore.priceUpdateInterval st
    ∧ ApiStore.holdings removed
      = match respond url with
        | Prices prices => map (ApiStore.updatePrice prices) (ApiStore.holdings st)
        | _ => ApiStore.holdings st
        end
    ∧ (ApiStore.fetchRealTimePrices_resume
         (ApiStore.removeHolding
            (ApiStore.addStock_push st symbol shares purchasePrice purchaseDate
               (ApiStore.Created row)).1
            (ApiStore.row_id row) true true).1
         (respond url)).1
      = removed.
Proof.
  intros Hwf Hcur Hvalid Hnew Hfresh.
  destruct (api_addStock_accepted st p symbol shares purchasePrice purchaseDate
              row respond Hcur Hvalid Hnew)
    as (_ & _ & _ & _ & url & Hurl & Hwhole & (h & Hh & _) & _).
  exists url. split; [done|]. split; [by eexists|].
  cbv zeta. rewrite Hwhole. clear Hurl Hwhole Hh.
  unfold ApiStore.addStock_push.
  rewrite (api_addStock_pushed _ st p) by done. cbn [fst].
  apply api_current_elem in Hcur as Hp. destruct Hp as [Hp _].
  pose proof (api_current_map (ApiStore.pushHoldingId (ApiStore.portfolio_id p)
                                 (ApiStore.row_id row)) st) as Hpushed.
  assert (∀ hs interval,
            ApiStore.getCurrentPortfolio
              (ApiStore.mkState
                 (map (ApiStore.pushHoldingId (ApiStore.portfolio_id p)
                         (ApiStore.row_id row)) (ApiStore.portfolios st))
                 hs (ApiStore.currentPortfolioId st) interval)
            = Some (ApiStore.pushHoldingId (ApiStore.portfolio_id p)
                      (ApiStore.row_id row) p)) as Hsel.
  { intros hs interval. rewrite Hpushed by apply api_pushHoldingId_id.
    by rewrite Hcur. }
  assert ((ApiStore.removeHolding
             (ApiStore.mkState
                (map (ApiStore.pushHoldingId (ApiStore.portfolio_id p)
                        (ApiStore.row_id row)) (ApiStore.portfolios st))
                (JS.set ApiStore.holding_id (ApiStore.loadHolding row)
                   (ApiStore.holdings st))
                (ApiStore.currentPortfolioId st)
                (ApiStore.priceUpdateInterval st))
             (ApiStore.row_id row) true true).1 = st) as Hearly.
  { unfold ApiStore.removeHolding. cbn [negb fst]. rewrite Hsel.
    cbn [ApiStore.portfolios ApiStore.holdings ApiStore.currentPortfolioId
         ApiStore.priceUpdateInterval].
    rewrite api_pushHoldingId_id, api_push_filter by done.
    rewrite <- (map_id (JS.set _ _ _)).
    rewrite (api_set_map_delete id (ApiStore.loadHolding row)) by done.
    rewrite map_id. by destruct st. }
  rewrite Hearly. clear Hearly.
  unfold ApiStore.removeHolding. cbn [negb fst].
  destruct (respond url) as [| | |prices];
    cbn [ApiStore.fetchRealTimePrices_resume fst];
    rewrite Hsel;
    cbn [ApiStore.portfolios ApiStore.holdings ApiStore.currentPortfolioId
         ApiStore.priceUpdateInterval];
    rewrite api_pushHoldingId_id, api_push_filter by done.
  1-3: rewrite <- (map_id (JS.set _ _ _));
    rewrite (api_set_map_delete id (ApiStore.loadHolding row)) by done;
    rewrite map_id; by destruct st.
  rewrite (api_set_map_delete (ApiStore.updatePrice prices)
             (ApiStore.loadHolding row))
    by (done || apply api_updatePrice_id).
  done.
Qed.

(** KO is added to the first portfolio of the sample store as [h4] and
    removed again: when the quote request fails the store is as before;
    when it is answered with 180.5 for AAPL, the two AAPL holdings are left
    at 180.5. *)
Lemma api_add_remove_roundtrip_witness :
  (ApiStore.removeHolding
     (ApiStore.addStock Sample.api "KO" 5 60 "2024-04-01"
        (ApiStore.Created (ApiStore.mkHoldingRow "h4" "KO" 5 60 "2024-04-01"))
        (λ _, NetworkError)).1
     "h4" true true).1
  = Sample.api
  ∧ ApiStore.holdings
      (ApiStore.removeHolding
         (ApiStore.addStock Sample.api "KO" 5 60 "2024-04-01"
            (ApiStore.Created (ApiStore.mkHoldingRow "h4" "KO" 5 60 "2024-04-01"))
            (λ _, Prices {[ "AAPL" := 180.5%float ]})).1
         "h4" true true).1
    = [ ApiStore.mkHolding "h1" "AAPL" 50 150.25 "2024-01-15" 180.5;
        ApiStore.mkHolding "h2" "MSFT" 30 280 "2024-02-01" 295.50;
        ApiStore.mkHolding "h3" "AAPL" 10 160 "2024-03-01" 180.5 ].
Proof.
  assert (api_wf Sample.api) as Hwf.
  { split; [by apply (bool_decide_unpack _)|].
    split; [by apply (bool_decide_unpack _)|].
    split; [by apply (bool_decide_unpack _)|]. right. by eexists. }
  eassert (ApiStore.getCurrentPortfolio Sample.api = Some _) as Hcur
    by reflexivity.
  assert (validInput "KO" 5 60 "2024-04-01") as Hvalid by done.
  assert (∀ id, id ∈ ["h1"; "h2"] →
            ∃ h, JS.get ApiStore.holding_id id (ApiStore.holdings Sample.api)
                 = Some h ∧ ApiStore.symbol h ≠ "KO") as Hnew.
  { intros id Hid.
    apply elem_of_cons in Hid as [->|Hid]; [by eexists|].
    apply list_elem_of_singleton in Hid as ->. by eexists. }
  assert ("h4" ∉ JS.keys ApiStore.holding_id (ApiStore.holdings Sample.api))
    as Hfresh by (by apply (bool_decide_unpack _)).
  split.
  - destruct (api_add_remove_roundtrip Sample.api _ "KO" 5 60 "2024-04-01"
                (ApiStore.mkHoldingRow "h4" "KO" 5 60 "2024-04-01")
                (λ _, NetworkError) Hwf Hcur Hvalid Hnew Hfresh)
      as (url & _ & _ & Hsame & _).
    exact Hsame.
  - destruct (api_add_remove_roundtrip Sample.api _ "KO" 5 60 "2024-04-01"
                (ApiStore.mkHoldingRow "h4" "KO" 5 60 "2024-04-01")
                (λ _, Prices {[ "AAPL" := 180.5%float ]})
                Hwf Hcur Hvalid Hnew Hfresh)
      as (url & _ & _ & _ & _ & _ & _ & Hprices & _).
    etrans; [exact Hprices|reflexivity].
Defined.
